(** * canonref / bibleref: parsing, validation and canonical rendering of
    Bible references, embedded from the Go sources.

    Go strings are byte sequences; they are modelled by [string], whose
    characters ([ascii]) are the bytes.  Go's [int] is modelled by [Z];
    the only place where its width matters is [strconv.Atoi], which
    rejects values outside the 64-bit range.  Go maps are [gmap]s. *)

From Stdlib Require Import ZArith NArith Ascii String List Bool Lia.
From stdpp Require Import gmap strings.

Open Scope string_scope.

(** ** Bytes *)

Definition byteVal (c : ascii) : N := N_of_ascii c.

(** ['0' <= c && c <= '9'] *)
Definition isDigit (c : ascii) : bool :=
  ((48 <=? byteVal c) && (byteVal c <=? 57))%N.

Definition isUpper (c : ascii) : bool :=
  ((65 <=? byteVal c) && (byteVal c <=? 90))%N.

Definition eqByte (c : ascii) (n : N) : bool := (byteVal c =? n)%N.

Definition str1 (c : ascii) : string := String c EmptyString.

(** The one-character string holding a double quote (code 34). *)
Definition DoubleQuote : string := str1 (ascii_of_N 34).

(** [s[n:]] and [s[:n]] for [n <= len(s)]. *)
Fixpoint sliceFrom (n : nat) (s : string) : string :=
  match n, s with
  | O, _ => s
  | S k, String _ r => sliceFrom k r
  | S _, EmptyString => EmptyString
  end.

Fixpoint sliceTo (n : nat) (s : string) : string :=
  match n, s with
  | O, _ => EmptyString
  | S k, String c r => String c (sliceTo k r)
  | S _, EmptyString => EmptyString
  end.

Fixpoint mapBytes (f : ascii -> ascii) (s : string) : string :=
  match s with
  | EmptyString => EmptyString
  | String c r => String (f c) (mapBytes f r)
  end.

Fixpoint allBytes (p : ascii -> bool) (s : string) : bool :=
  match s with
  | EmptyString => true
  | String c r => p c && allBytes p r
  end.

Fixpoint revOnto (s acc : string) : string :=
  match s with
  | EmptyString => acc
  | String c r => revOnto r (String c acc)
  end.

Definition revString (s : string) : string := revOnto s EmptyString.

(** ** package unicode: the white space of [unicode.IsSpace], in UTF-8

    White space is U+0009..U+000D, U+0020, U+0085, U+00A0, U+1680,
    U+2000..U+200A, U+2028, U+2029, U+202F, U+205F and U+3000.  The three
    predicates recognise their one-, two- and three-byte encodings. *)

Definition isSpace1 (c1 : ascii) : bool :=
  ((9 <=? byteVal c1) && (byteVal c1 <=? 13))%N || eqByte c1 32.

Definition isSpace2 (c1 c2 : ascii) : bool :=
  eqByte c1 0xC2 && (eqByte c2 0x85 || eqByte c2 0xA0).

Definition isSpace3 (c1 c2 c3 : ascii) : bool :=
  (eqByte c1 0xE1 && eqByte c2 0x9A && eqByte c3 0x80)
  || (eqByte c1 0xE2 && eqByte c2 0x80
      && (((0x80 <=? byteVal c3) && (byteVal c3 <=? 0x8A))%N
          || eqByte c3 0xA8 || eqByte c3 0xA9 || eqByte c3 0xAF))
  || (eqByte c1 0xE2 && eqByte c2 0x81 && eqByte c3 0x9F)
  || (eqByte c1 0xE3 && eqByte c2 0x80 && eqByte c3 0x80).

(** Number of bytes of the white-space rune that [s] starts with; 0 when
    [s] does not start with white space. *)
Definition spaceWidth (s : string) : nat :=
  match s with
  | String c1 r1 =>
      if isSpace1 c1 then 1
      else match r1 with
           | String c2 r2 =>
               if isSpace2 c1 c2 then 2
               else match r2 with
                    | String c3 _ => if isSpace3 c1 c2 c3 then 3 else 0
                    | EmptyString => 0
                    end
           | EmptyString => 0
           end
  | EmptyString => 0
  end.

(** The same for the rune that a string ends with; [r] holds the bytes of
    the string in reverse order (last byte first). *)
Definition spaceWidthRev (r : string) : nat :=
  match r with
  | String c1 r1 =>
      if isSpace1 c1 then 1
      else match r1 with
           | String c2 r2 =>
               if isSpace2 c2 c1 then 2
               else match r2 with
                    | String c3 _ => if isSpace3 c3 c2 c1 then 3 else 0
                    | EmptyString => 0
                    end
           | EmptyString => 0
           end
  | EmptyString => 0
  end.

(** The lower-casing of strings that hold a non-ASCII byte is Go's
    [strings.Map(unicode.ToLower, s)], which rests on the Unicode case
    tables; it is the one part of the Go runtime taken as a parameter. *)
Class GoUnicode := { mapUnicodeToLower : string -> string }.

(** ** package strings *)

Module GoStrings.

(** [skip] counts the bytes still to be dropped of a white-space rune
    already recognised. *)
Fixpoint trimLeftAux (width : string -> nat) (skip : nat) (s : string)
  : string :=
  match s with
  | EmptyString => EmptyString
  | String _ r =>
      match skip with
      | S k => trimLeftAux width k r
      | O => match width s with
             | O => s
             | S k => trimLeftAux width k r
             end
      end
  end.

Definition TrimLeftSpace (s : string) : string := trimLeftAux spaceWidth 0 s.

Definition TrimRightSpace (s : string) : string :=
  revString (trimLeftAux spaceWidthRev 0 (revString s)).

(** [strings.TrimSpace] *)
Definition TrimSpace (s : string) : string :=
  TrimRightSpace (TrimLeftSpace s).

Definition flush (cur : string) : list string :=
  match cur with
  | EmptyString => []
  | _ => [cur]
  end.

(** [cur] is the field being read, [skip] as in [trimLeftAux]. *)
Fixpoint fieldsAux (skip : nat) (cur : string) (s : string) : list string :=
  match s with
  | EmptyString => flush cur
  | String c r =>
      match skip with
      | S k => fieldsAux k cur r
      | O => match spaceWidth s with
             | O => fieldsAux 0 (cur +:+ str1 c) r
             | S k => flush cur ++ fieldsAux k EmptyString r
             end
      end
  end.

(** [strings.Fields] *)
Definition Fields (s : string) : list string := fieldsAux 0 EmptyString s.

(** [strings.Join] *)
Fixpoint Join (elems : list string) (sep : string) : string :=
  match elems with
  | [] => EmptyString
  | [x] => x
  | x :: rest => x +:+ sep +:+ Join rest sep
  end.

(** [strings.HasPrefix] *)
Definition HasPrefix (s pre : string) : bool := String.prefix pre s.

(** [strings.Contains] *)
Fixpoint Contains (s substr : string) : bool :=
  HasPrefix s substr
  || match s with
     | EmptyString => false
     | String _ r => Contains r substr
     end.

Fixpoint replaceAux (skip : nat) (old new s : string) : string :=
  match s with
  | EmptyString => EmptyString
  | String c r =>
      match skip with
      | S k => replaceAux k old new r
      | O => if HasPrefix s old
             then new +:+ replaceAux (String.length old - 1) old new r
             else String c (replaceAux 0 old new r)
      end
  end.

(** [strings.ReplaceAll] for a non-empty [old], which is all the program
    passes (for the empty [old], where Go inserts [new] around every
    rune, the string is returned as it is). *)
Definition ReplaceAll (s old new : string) : string :=
  match old with
  | EmptyString => s
  | _ => replaceAux 0 old new s
  end.

Fixpoint splitAux (skip : nat) (sep cur s : string) : list string :=
  match s with
  | EmptyString => [cur]
  | String c r =>
      match skip with
      | S k => splitAux k sep cur r
      | O => if HasPrefix s sep
             then cur :: splitAux (String.length sep - 1) sep EmptyString r
             else splitAux 0 sep (cur +:+ str1 c) r
      end
  end.

(** [strings.Split] for a non-empty separator, which is all the program
    passes. *)
Definition Split (s sep : string) : list string := splitAux 0 sep EmptyString s.

Definition lowerByte (c : ascii) : ascii :=
  if isUpper c then ascii_of_N (byteVal c + 32) else c.

Definition isASCII (s : string) : bool :=
  allBytes (fun c => (byteVal c <? 128)%N) s.

(** [strings.ToLower]: the ASCII fast path, else the Unicode mapping. *)
Definition ToLower `{GoUnicode} (s : string) : string :=
  if isASCII s then mapBytes lowerByte s else mapUnicodeToLower s.

End GoStrings.

(** ** package strconv *)

Module GoStrconv.

Inductive NumErrKind := ErrSyntax | ErrRange.

(** [*strconv.NumError] *)
Record NumError := { Func : string; Num : string; NumErr : NumErrKind }.

Definition maxUint64 : Z := 2 ^ 64 - 1.
Definition maxInt : Z := 2 ^ 63 - 1.
Definition minInt : Z := - 2 ^ 63.

Definition digitVal (c : ascii) : Z := Z.of_N (byteVal c) - 48.

(** The loop of [ParseUint] in base 10 with a 64-bit accumulator. *)
Fixpoint parseUintLoop (n : Z) (s : string) : Z + NumErrKind :=
  match s with
  | EmptyString => inl n
  | String c r =>
      if negb (isDigit c) then inr ErrSyntax
      else if (maxUint64 / 10 + 1 <=? n)%Z then inr ErrRange
      else let n1 := (n * 10 + digitVal c)%Z in
           if (maxUint64 <? n1)%Z then inr ErrRange
           else parseUintLoop n1 r
  end.

(** [strconv.Atoi]: an optional sign, then one or more decimal digits;
    the value has to fit [int] (64 bits).  Its fast path for short
    strings and [ParseInt(s, 10, 0)] agree on this. *)
Definition Atoi (s : string) : Z + NumError :=
  let fail k := inr {| Func := "Atoi"; Num := s; NumErr := k |} in
  match s with
  | EmptyString => fail ErrSyntax
  | String c0 r0 =>
      let neg := eqByte c0 45 in
      let body := if eqByte c0 43 || eqByte c0 45 then r0 else s in
      match body with
      | EmptyString => fail ErrSyntax
      | _ =>
          match parseUintLoop 0 body with
          | inr ErrSyntax => fail ErrSyntax
          | inr ErrRange => fail ErrRange
          | inl un =>
              if negb neg && (maxInt <? un)%Z then fail ErrRange
              else if neg && (maxInt + 1 <? un)%Z then fail ErrRange
              else inl (if neg then - un else un)%Z
          end
      end
  end.

Definition digitChar (d : Z) : ascii := ascii_of_N (Z.to_N d + 48).

(** The digits of [n >= 0], written from the last one, in front of [acc]. *)
Fixpoint formatBits (fuel : nat) (n : Z) (acc : string) : string :=
  match fuel with
  | O => acc
  | S f =>
      let acc' := String (digitChar (n mod 10)) acc in
      if (n <? 10)%Z then acc' else formatBits f (n / 10) acc'
  end.

Definition utoa (n : Z) : string :=
  formatBits (S (Z.to_nat (Z.log2 n))) n EmptyString.

(** [strconv.Itoa], and [%d] of [fmt.Sprintf]. *)
Definition Itoa (n : Z) : string :=
  if (n <? 0)%Z then "-" +:+ utoa (- n) else utoa n.

End GoStrconv.

(** [%c] of [fmt.Sprintf] for a byte: the UTF-8 encoding of the code
    point of that value. *)
Definition sprintChar (c : ascii) : string :=
  if (byteVal c <? 128)%N then str1 c
  else String (ascii_of_N (192 + byteVal c / 64))
         (str1 (ascii_of_N (128 + byteVal c mod 64))).

(** ** package util *)

Module Util.

(** [const EnDash] as the source file spells it: the three characters
    U+00E2, U+20AC, U+201C, that is the eight bytes C3 A2 E2 82 AC E2 80
    9C.  (The en-dash U+2013 itself is the three bytes E2 80 93.) *)
Definition EnDash : string := "â€“".

Definition Hyphen : string := "-".

Record VerseRange := { StartVerse : Z; EndVerse : option Z }.

(** [func (v VerseRange) String() string] *)
Definition VerseRange_String (v : VerseRange) : string :=
  match EndVerse v with
  | None => GoStrconv.Itoa (StartVerse v)
  | Some e => GoStrconv.Itoa (StartVerse v) +:+ EnDash +:+ GoStrconv.Itoa e
  end.

End Util.

(** ** package bibleref *)

Import GoStrings GoStrconv Util.

Inductive ErrKind :=
  | KindParse
  | KindUnknownBook
  | KindInvalidBook
  | KindInvalidChapter
  | KindInvalidVerse
  | KindUnsupportedFormat.

(** The package's sentinel errors ([var Err... = fmt.Errorf(...)]). *)
Inductive Sentinel :=
  | ErrBibleRefParseFailed
  | ErrBibleRefValidationFailed
  | ErrInvalidOSISCode
  | ErrInvalidBook
  | ErrInvalidChapter
  | ErrInvalidVerse
  | ErrUnsupportedFormat.

(** [BibleRefError], and the values its [Cause] takes in this package:
    another [*BibleRefError] or the [*strconv.NumError] of [Atoi]. *)
Inductive BibleRefError :=
  | mkBibleRefError (kind : ErrKind) (err : Sentinel)
      (message : option string) (cause : option error)
with error :=
  | ErrNum (e : NumError)
  | ErrBibleRef (e : BibleRefError).

Definition Kind (e : BibleRefError) : ErrKind :=
  match e with mkBibleRefError k _ _ _ => k end.
Definition Err (e : BibleRefError) : Sentinel :=
  match e with mkBibleRefError _ s _ _ => s end.
Definition Message (e : BibleRefError) : option string :=
  match e with mkBibleRefError _ _ m _ => m end.
Definition Cause (e : BibleRefError) : option error :=
  match e with mkBibleRefError _ _ _ c => c end.

Record Book := {
  Book_OSIS : string;
  Book_Name : string;
  Book_Aliases : list string;
  Book_Testament : string;
  Book_Order : Z;
  Book_Chapters : Z
}.

Record BibleRef := {
  OSIS : string;
  Chapter : Z;
  Verse : option VerseRange
}.

Record Table := {
  ByOsis : gmap string Book;
  ByAlias : gmap string string
}.

Definition isEmpty (s : string) : bool :=
  match s with EmptyString => true | _ => false end.

(** [func (b Book) Validate() error]; [None] is the nil error. *)
Definition Book_Validate (b : Book) : option BibleRefError :=
  if isEmpty (Book_OSIS b) then
    Some (mkBibleRefError KindInvalidBook ErrInvalidOSISCode None None)
  else if isEmpty (Book_Name b) then
    Some (mkBibleRefError KindInvalidBook ErrInvalidBook
            (Some "book name cannot be empty") None)
  else if (Book_Chapters b <? 1)%Z then
    Some (mkBibleRefError KindInvalidBook ErrInvalidBook
            (Some "book must have at least one chapter") None)
  else if (Book_Order b <? 1)%Z then
    Some (mkBibleRefError KindInvalidBook ErrInvalidBook
            (Some "book order must be a positive integer") None)
  else None.

(** [func (r BibleRef) Validate(tbl *Table) error] *)
Definition BibleRef_Validate (r : BibleRef) (tbl : Table)
  : option BibleRefError :=
  match ByOsis tbl !! OSIS r with
  | None =>
      Some (mkBibleRefError KindUnknownBook ErrInvalidOSISCode
              (Some ("unknown OSIS code: " +:+ OSIS r)) None)
  | Some book =>
      if (Chapter r <? 1)%Z || (Book_Chapters book <? Chapter r)%Z then
        Some (mkBibleRefError KindInvalidChapter ErrInvalidChapter
                (Some ("invalid chapter number " +:+ Itoa (Chapter r)
                       +:+ " for book " +:+ Book_Name book)) None)
      else
        match Verse r with
        | None => None
        | Some v =>
            if (StartVerse v <? 1)%Z then
              Some (mkBibleRefError KindInvalidVerse ErrInvalidVerse
                      (Some ("start verse must be a positive integer, got "
                             +:+ Itoa (StartVerse v))) None)
            else
              match EndVerse v with
              | None => None
              | Some e =>
                  if (e <? StartVerse v)%Z then
                    Some (mkBibleRefError KindInvalidVerse ErrInvalidVerse
                            (Some ("end verse must be greater than or equal to start verse, got start: "
                                   +:+ Itoa (StartVerse v) +:+ ", end: "
                                   +:+ Itoa e)) None)
                  else None
              end
        end
  end.

(** [func (r BibleRef) String() string] *)
Definition BibleRef_String (r : BibleRef) : string :=
  match Verse r with
  | None => OSIS r +:+ " " +:+ Itoa (Chapter r)
  | Some v => OSIS r +:+ " " +:+ Itoa (Chapter r) +:+ ":" +:+ VerseRange_String v
  end.

Inductive Format := FormatOSIS | FormatHuman | FormatCanonical.

(** [func (r BibleRef) Format(f Format, tbl *Table) string]; [tbl] may be
    nil ([None]), which only [FormatHuman] dereferences (a panic, [None]
    here); a book missing from the map reads as the zero [Book]. *)
Definition BibleRef_Format (r : BibleRef) (f : Format) (tbl : option Table)
  : option string :=
  match f with
  | FormatOSIS =>
      Some match Verse r with
           | None => OSIS r +:+ "." +:+ Itoa (Chapter r)
           | Some v =>
               OSIS r +:+ "." +:+ Itoa (Chapter r) +:+ "." +:+ VerseRange_String v
           end
  | FormatHuman =>
      match tbl with
      | None => None
      | Some t =>
          let name := match ByOsis t !! OSIS r with
                      | Some book => Book_Name book
                      | None => EmptyString
                      end in
          Some match Verse r with
               | None => name +:+ " " +:+ Itoa (Chapter r)
               | Some v =>
                   name +:+ " " +:+ Itoa (Chapter r) +:+ ":" +:+ VerseRange_String v
               end
      end
  | FormatCanonical =>
      Some match Verse r with
           | None => OSIS r +:+ " " +:+ Itoa (Chapter r)
           | Some v =>
               OSIS r +:+ " " +:+ Itoa (Chapter r) +:+ ":" +:+ VerseRange_String v
           end
  end.

(** [func (r BibleRef) IsChapterOnly() bool] *)
Definition IsChapterOnly (r : BibleRef) : bool :=
  match Verse r with None => true | Some _ => false end.

(** [func (r BibleRef) IsSingleVerse() bool] *)
Definition IsSingleVerse (r : BibleRef) : bool :=
  match Verse r with
  | Some v => match EndVerse v with None => true | Some _ => false end
  | None => false
  end.

(** [func (r BibleRef) IsRange() bool] *)
Definition IsRange (r : BibleRef) : bool :=
  match Verse r with
  | Some v => match EndVerse v with None => false | Some _ => true end
  | None => false
  end.

(** [func NormalizeVerseRange(s string) string] *)
Definition NormalizeVerseRange (s : string) : string :=
  let res := TrimSpace s in
  let res := ReplaceAll res Hyphen EnDash in
  let res := ReplaceAll res " " EmptyString in
  res.

(** [func NormalizeAlias(s string) string] *)
Definition NormalizeAlias `{GoUnicode} (s : string) : string :=
  let res := TrimSpace s in
  let res := ToLower res in
  let res := ReplaceAll res "." EmptyString in
  let res := ReplaceAll res EnDash Hyphen in
  let res := ReplaceAll res "iii " "3 " in
  let res := ReplaceAll res "ii " "2 " in
  let res := ReplaceAll res "i " "1 " in
  let res := ReplaceAll res "’" "'" in
  let res := ReplaceAll res "‘" "'" in
  let res := ReplaceAll res "“" DoubleQuote in
  let res := ReplaceAll res "”" DoubleQuote in
  res.

(** The loop of [parseTail]:
    [for i < len(tail) && tail[i] >= '0' && tail[i] <= '9' { i++ }]. *)
Fixpoint digitPrefixLen (s : string) : nat :=
  match s with
  | String c r => if isDigit c then S (digitPrefixLen r) else O
  | EmptyString => O
  end.

(** [func parseTail(tail string) (string, error)].  [tail[i:]] is empty
    exactly when [i == len(tail)]; otherwise its first byte is
    [tail[i]] and the rest is [tail[i+1:]]. *)
Definition parseTail (tail : string) : string + BibleRefError :=
  match tail with
  | EmptyString =>
      inr (mkBibleRefError KindParse ErrBibleRefParseFailed
             (Some "tail cannot be empty") None)
  | String c0 _ =>
      if negb (isDigit c0) then
        inr (mkBibleRefError KindInvalidChapter ErrInvalidChapter
               (Some ("tail must start with a digit, got: " +:+ tail)) None)
      else
        let i := digitPrefixLen tail in
        match sliceFrom i tail with
        | EmptyString => inl tail
        | String ci versesPart =>
            if negb (eqByte ci 58) then
              inr (mkBibleRefError KindParse ErrBibleRefParseFailed
                     (Some ("expected ':' after chapter, got: "
                            +:+ sprintChar ci +:+ " at position "
                            +:+ Itoa (Z.of_nat i))) None)
            else if isEmpty versesPart then
              inr (mkBibleRefError KindInvalidVerse ErrInvalidVerse
                     (Some "verse part cannot be empty after ':'") None)
            else
              inl (sliceTo i tail +:+ ":" +:+ NormalizeVerseRange versesPart)
        end
  end.

(** [func parseVerseRange(s string, parts []string)], returning a
    [VerseRange] or an error. *)
Definition parseVerseRange (s : string) (parts : list string)
  : VerseRange + BibleRefError :=
  match parts with
  | [p0; p1] =>
      match Atoi p0 with
      | inr e =>
          inr (mkBibleRefError KindInvalidVerse ErrInvalidVerse
                 (Some ("invalid start verse: " +:+ p0)) (Some (ErrNum e)))
      | inl startVerse =>
          match Atoi p1 with
          | inr e =>
              inr (mkBibleRefError KindInvalidVerse ErrInvalidVerse
                     (Some ("invalid end verse: " +:+ p1)) (Some (ErrNum e)))
          | inl endVerse =>
              inl {| StartVerse := startVerse; EndVerse := Some endVerse |}
          end
      end
  | _ =>
      inr (mkBibleRefError KindParse ErrBibleRefParseFailed
             (Some ("invalid verse range: " +:+ s)) None)
  end.

(** [func parseChapterVerse(s string)], returning the chapter and the
    optional verse range, or an error. *)
Definition parseChapterVerse (s : string)
  : (Z * option VerseRange) + BibleRefError :=
  match Split s ":" with
  | [] =>
      inr (mkBibleRefError KindParse ErrBibleRefParseFailed
             (Some "chapter and verse string must contain at least a chapter")
             None)
  | chapterStr :: rest =>
      if (2 <? List.length (chapterStr :: rest))%nat then
        inr (mkBibleRefError KindParse ErrBibleRefParseFailed
               (Some "chapter and verse string must contain at most one colon")
               None)
      else
        match Atoi chapterStr with
        | inr e =>
            inr (mkBibleRefError KindInvalidChapter ErrInvalidChapter
                   (Some ("invalid chapter: " +:+ chapterStr))
                   (Some (ErrNum e)))
        | inl chapter =>
            match rest with
            | [] => inl (chapter, None)
            | part1 :: _ =>
                let verseStr := NormalizeVerseRange part1 in
                if Contains verseStr EnDash then
                  match parseVerseRange verseStr (Split verseStr EnDash) with
                  | inr e => inr e
                  | inl verseRange => inl (chapter, Some verseRange)
                  end
                else
                  match Atoi verseStr with
                  | inr e =>
                      inr (mkBibleRefError KindInvalidVerse ErrInvalidVerse
                             (Some ("invalid verse: " +:+ verseStr))
                             (Some (ErrNum e)))
                  | inl startVerse =>
                      inl (chapter,
                           Some {| StartVerse := startVerse; EndVerse := None |})
                  end
            end
        end
  end.

(** [func parseRefString(s string, tbl *Table)], returning a [BibleRef]
    or an error. *)
Definition parseRefString `{GoUnicode} (s : string) (tbl : Table)
  : BibleRef + BibleRefError :=
  let s := TrimSpace s in
  if isEmpty s then
    inr (mkBibleRefError KindParse ErrBibleRefParseFailed
           (Some "reference string cannot be empty") None)
  else
    let fields := Fields s in
    if (List.length fields <? 2)%nat then
      inr (mkBibleRefError KindParse ErrBibleRefParseFailed
             (Some "reference string must contain at least a book and a chapter")
             None)
    else
      let bookPart := Join (removelast fields) " " in
      let bookStr := NormalizeAlias bookPart in
      match parseTail (List.last fields EmptyString) with
      | inr e => inr e
      | inl chapterVerseStr =>
          let bookOsis := match ByAlias tbl !! bookStr with
                          | Some o => o
                          | None => bookStr
                          end in
          match ByOsis tbl !! bookOsis with
          | None =>
              inr (mkBibleRefError KindUnknownBook ErrInvalidOSISCode
                     (Some ("unknown book: " +:+ bookStr)) None)
          | Some book =>
              match parseChapterVerse chapterVerseStr with
              | inr e => inr e
              | inl (chapter, verseRange) =>
                  if match verseRange with
                     | Some v => (StartVerse v <? 1)%Z
                     | None => false
                     end
                  then
                    inr (mkBibleRefError KindInvalidVerse ErrInvalidVerse
                           (Some ("invalid verse number: "
                                  +:+ Itoa (match verseRange with
                                            | Some v => StartVerse v
                                            | None => 0
                                            end))) None)
                  else
                    let ref := {| OSIS := Book_OSIS book;
                                  Chapter := chapter;
                                  Verse := verseRange |} in
                    match BibleRef_Validate ref tbl with
                    | Some e => inr e
                    | None => inl ref
                    end
              end
          end
      end.

(** [func doParse(s string, tbl *Table)] *)
Definition doParse `{GoUnicode} (s : string) (tbl : Table)
  : BibleRef + BibleRefError :=
  match parseRefString s tbl with
  | inr e => inr e
  | inl ref =>
      match BibleRef_Validate ref tbl with
      | Some e => inr e
      | None => inl ref
      end
  end.

(** [func Parse(s string, tbl *Table)]: every error of
    [doParse] is wrapped in a [KindParse] error that keeps it as [Cause]. *)
Definition Parse `{GoUnicode} (s : string) (tbl : Table)
  : BibleRef + BibleRefError :=
  match doParse s tbl with
  | inr e =>
      inr (mkBibleRefError KindParse ErrBibleRefParseFailed
             (Some ("failed to parse reference string: " +:+ s))
             (Some (ErrBibleRef e)))
  | inl parseResult => inl parseResult
  end.

(** [func contains(m map[string]string, key string) bool] *)
Definition contains (m : gmap string string) (key : string) : bool :=
  match m !! key with Some _ => true | None => false end.

(** The inner loop of [NewTable]:
    [for _, alias := range book.Aliases { tbl.ByAlias[NormalizeAlias(alias)] = book.OSIS }]. *)
Definition addAliases `{GoUnicode} (osis : string) (aliases : list string)
    (m : gmap string string) : gmap string string :=
  fold_left (fun m alias => <[NormalizeAlias alias := osis]> m) aliases m.

(** The body of the loop of [NewTable] for a valid book. *)
Definition addBook `{GoUnicode} (book : Book) (tbl : Table) : Table :=
  let byOsis := <[Book_OSIS book := book]> (ByOsis tbl) in
  let byAlias := addAliases (Book_OSIS book) (Book_Aliases book) (ByAlias tbl) in
  let byAlias :=
    if negb (contains byAlias (NormalizeAlias (Book_OSIS book)))
    then <[NormalizeAlias (Book_OSIS book) := Book_OSIS book]> byAlias
    else byAlias in
  {| ByOsis := byOsis; ByAlias := byAlias |}.

(** The loop of [NewTable], which returns at the first invalid book. *)
Fixpoint newTableLoop `{GoUnicode} (books : list Book) (tbl : Table)
  : Table + BibleRefError :=
  match books with
  | [] => inl tbl
  | book :: rest =>
      match Book_Validate book with
      | Some e => inr e
      | None => newTableLoop rest (addBook book tbl)
      end
  end.

(** [func NewTable(books []Book)], returning a [Table] or an error. *)
Definition NewTable `{GoUnicode} (books : list Book) : Table + BibleRefError :=
  newTableLoop books {| ByOsis := ∅; ByAlias := ∅ |}.

(** An instance for closed examples: their strings reach [ToLower] in
    pure ASCII only, where the parameter is not consulted. *)
#[global] Instance asciiOnly : GoUnicode := {| mapUnicodeToLower := fun s => s |}.

(** ** Notions used to state the properties *)

(** The number that the decimal digits of [s] denote, after the digits
    already accumulated in [n]. *)
Fixpoint decimalValue (n : Z) (s : string) : Z :=
  match s with
  | EmptyString => n
  | String c r => decimalValue (n * 10 + digitVal c) r
  end.

(** A non-empty string of ASCII digits. *)
Definition isDigits (s : string) : bool :=
  negb (isEmpty s) && allBytes isDigit s.

(** What [String] writes after the id and the space. *)
Definition canonicalTail (chapter : Z) (verse : option VerseRange) : string :=
  match verse with
  | None => Itoa chapter
  | Some v => Itoa chapter +:+ ":" +:+ VerseRange_String v
  end.

(** The chapter and the verses are natural numbers that fit [int]. *)
Definition fitsInt (chapter : Z) (verse : option VerseRange) : Prop :=
  (0 <= chapter <= maxInt)%Z
  /\ match verse with
     | None => True
     | Some v =>
         (0 <= StartVerse v <= maxInt)%Z
         /\ match EndVerse v with
            | None => True
            | Some e => (0 <= e <= maxInt)%Z
            end
     end.

(** The en-dash character U+2013 in UTF-8 (bytes E2 80 93). *)
Definition U2013 : string := "–".

(** Bytes that are no continuation bytes of UTF-8 (not in 80..BF). *)
Definition isLead (c : ascii) : bool :=
  (byteVal c <? 0x80)%N || (0xC0 <=? byteVal c)%N.

(** The byte [a] occurs nowhere in [s]. *)
Definition avoids (a : ascii) (s : string) : bool :=
  allBytes (fun c => negb (Ascii.eqb c a)) s.

(** Bytes with which the encoding of a white-space rune can start. *)
Definition isSpaceStart (c : ascii) : bool :=
  isSpace1 c || eqByte c 0xC2 || eqByte c 0xE1 || eqByte c 0xE2 || eqByte c 0xE3.

(** No white-space rune starts anywhere in [s]. *)
Fixpoint spaceFree (s : string) : bool :=
  match s with
  | EmptyString => true
  | String _ r => Nat.eqb (spaceWidth s) 0 && spaceFree r
  end.

(** The book that a normalized head resolves to in [parseRefString]: by
    the alias map, else as a literal id. *)
Definition resolveBook (tbl : Table) (bookStr : string) : option Book :=
  ByOsis tbl !! match ByAlias tbl !! bookStr with
                | Some o => o
                | None => bookStr
                end.

(** The keys under which [NewTable] registers a book in [ByAlias]. *)
Definition aliasKeys `{GoUnicode} (b : Book) : list string :=
  map NormalizeAlias (Book_Aliases b) ++ [NormalizeAlias (Book_OSIS b)].

(** The invariant of the loop of [NewTable], for a table that starts
    empty: [ByOsis] holds books of the list under their own id, one for
    every id; [ByAlias] holds under each key the id of a book that has the
    key, and has every key of every book. *)
Definition tableInv `{GoUnicode} (books : list Book) (tbl : Table) : Prop :=
  (forall k b, ByOsis tbl !! k = Some b -> In b books /\ Book_OSIS b = k)
  /\ (forall b, In b books -> exists b', ByOsis tbl !! Book_OSIS b = Some b')
  /\ (forall k o, ByAlias tbl !! k = Some o ->
        exists b, In b books /\ In k (aliasKeys b) /\ o = Book_OSIS b)
  /\ (forall b k, In b books -> In k (aliasKeys b) ->
        exists o, ByAlias tbl !! k = Some o).

(** The input [s] reads as the reference [r], as [parseRefString] goes
    about it before it checks any bound: the trimmed input has two fields
    or more, the last one passes [parseTail], the others, joined and
    normalized, resolve to a book with the id of [r], and
    [parseChapterVerse] reads the tail as the chapter and verses of [r]. *)
Definition readsAs `{GoUnicode} (s : string) (tbl : Table) (r : BibleRef) : Prop :=
  let fields := GoStrings.Fields (GoStrings.TrimSpace s) in
  (2 <= List.length fields)%nat
  /\ exists cv b0,
       parseTail (List.last fields EmptyString) = inl cv
       /\ resolveBook tbl (NormalizeAlias (GoStrings.Join (removelast fields) " "))
          = Some b0
       /\ Book_OSIS b0 = OSIS r
       /\ parseChapterVerse cv = inl (Chapter r, Verse r).

(** The error [Parse] makes of an error [e] of [doParse]. *)
Definition parseError (s : string) (e : BibleRefError) : BibleRefError :=
  mkBibleRefError KindParse ErrBibleRefParseFailed
    (Some ("failed to parse reference string: " +:+ s)) (Some (ErrBibleRef e)).

(** What the comment of [NormalizeVerseRange] asks for, byte by byte:
    every ASCII hyphen written as [util.EnDash], every ASCII space
    dropped, every other byte kept. *)
Fixpoint hyphensToEnDash (s : string) : string :=
  match s with
  | EmptyString => EmptyString
  | String c r =>
      if Ascii.eqb c "-" then EnDash +:+ hyphensToEnDash r
      else if Ascii.eqb c " " then hyphensToEnDash r
      else String c (hyphensToEnDash r)
  end.

(** ** Sample registries (from the package's tests) *)

Definition mkBook (osis name : string) (aliases : list string)
    (testament : string) (order chapters : Z) : Book :=
  {| Book_OSIS := osis; Book_Name := name; Book_Aliases := aliases;
     Book_Testament := testament; Book_Order := order;
     Book_Chapters := chapters |}.

Definition proverbs : Book :=
  mkBook "Prov" "Proverbs" ["proverbs"; "prov"; "pro"] "OT" 20 31.

Definition matthew : Book :=
  mkBook "Matt" "Matthew" ["matthew"; "matt"; "mt"] "NT" 40 28.

Definition testBooks : list Book :=
  [ proverbs;
    mkBook "1Sam" "1 Samuel"
      ["1 samuel"; "1samuel"; "1 sam"; "1sam"; "i samuel"; "i sam"] "OT" 9 31;
    mkBook "2Sam" "2 Samuel"
      ["2 samuel"; "2samuel"; "2 sam"; "2sam"; "ii samuel"; "ii sam"] "OT" 10 24;
    mkBook "Wis" "Wisdom of Solomon"
      ["wisdom of solomon"; "wisdom"; "wis"; "book of wisdom"] "Apocrypha" 70 19;
    matthew ].

(** Two books that claim the alias "prov" (test [TestTable_DuplicateAliases]). *)
Definition matthewProv : Book :=
  mkBook "Matt" "Matthew" ["matthew"; "prov"] "NT" 40 28.

Definition booksWithDuplicates : list Book :=
  [ mkBook "Prov" "Proverbs" ["proverbs"; "prov"] "OT" 20 31; matthewProv ].

(** The table of a list of books that [NewTable] accepts (the empty
    table otherwise). *)
Definition tableOf (books : list Book) : Table :=
  match NewTable books with
  | inl tbl => tbl
  | inr _ => {| ByOsis := ∅; ByAlias := ∅ |}
  end.

Definition rangeRef (osis : string) (chapter startVerse endVerse : Z) : BibleRef :=
  {| OSIS := osis; Chapter := chapter;
     Verse := Some {| StartVerse := startVerse; EndVerse := Some endVerse |} |}.

Definition chapterRef (osis : string) (chapter : Z) : BibleRef :=
  {| OSIS := osis; Chapter := chapter; Verse := None |}.

(** [s] has [sub] somewhere inside. *)
Definition includes (s sub : string) : Prop :=
  exists pre post, s = pre +:+ sub +:+ post.

(** * Properties *)

(** ** Strings *)

Lemma sapp_nil_l (s : string) : EmptyString +:+ s = s.
Proof. reflexivity. Qed.

Lemma sapp_cons (c : ascii) (s t : string) :
  String c s +:+ t = String c (s +:+ t).
Proof. reflexivity. Qed.

Lemma sapp_nil_r (s : string) : s +:+ EmptyString = s.
Proof. induction s; [reflexivity | rewrite sapp_cons; congruence]. Qed.

Lemma sapp_assoc (a b c : string) : (a +:+ b) +:+ c = a +:+ (b +:+ c).
Proof. induction a; [reflexivity | rewrite !sapp_cons; congruence]. Qed.

Lemma slength_app (a b : string) :
  String.length (a +:+ b) = (String.length a + String.length b)%nat.
Proof. induction a; [reflexivity | rewrite sapp_cons; simpl; congruence]. Qed.

(** ** Book validation and table construction *)

Lemma isEmpty_true (s : string) : isEmpty s = true <-> s = EmptyString.
Proof. destruct s; simpl; split; congruence. Qed.

Lemma Book_Validate_kind (b : Book) (e : BibleRefError) :
  Book_Validate b = Some e -> Kind e = KindInvalidBook.
Proof.
  unfold Book_Validate.
  repeat match goal with |- context [if ?c then _ else _] => destruct c end;
    intros [= <-]; reflexivity.
Qed.

Lemma Book_Validate_None (b : Book) :
  Book_Validate b = None <->
  Book_OSIS b <> EmptyString /\ Book_Name b <> EmptyString
  /\ (1 <= Book_Chapters b)%Z /\ (1 <= Book_Order b)%Z.
Proof.
  unfold Book_Validate.
  destruct (isEmpty (Book_OSIS b)) eqn:E1;
    [apply isEmpty_true in E1; split; [discriminate | tauto] |].
  destruct (isEmpty (Book_Name b)) eqn:E2;
    [apply isEmpty_true in E2; split; [discriminate | tauto] |].
  destruct (Z.ltb_spec (Book_Chapters b) 1); [split; [discriminate | lia] |].
  destruct (Z.ltb_spec (Book_Order b) 1); [split; [discriminate | lia] |].
  split; [intros _ | reflexivity].
  repeat split; try lia; intros E; apply isEmpty_true in E; congruence.
Qed.

Lemma newTableLoop_invalid `{GoUnicode} (books : list Book) (b : Book) :
  In b books -> Book_Validate b <> None ->
  forall tbl, exists e,
    newTableLoop books tbl = inr e /\ Kind e = KindInvalidBook.
Proof.
  induction books as [|b0 rest IH]; intros Hin Hbad tbl; [destruct Hin |].
  simpl. destruct (Book_Validate b0) as [e|] eqn:E0.
  - exists e. split; [reflexivity | eapply Book_Validate_kind; eassumption].
  - destruct Hin as [-> | Hin]; [congruence | apply IH; assumption].
Qed.

(** C10: [NewTable] returns an error (of kind [KindInvalidBook]) and no
    table for every list holding a book whose [Order] is below 1, as it
    does for a book with an empty id, an empty name or a chapter count
    below 1; an otherwise valid book with [Order < 1] is refused by
    [Book.Validate] for its order. *)
Theorem C10_NewTable_rejects_order_below_one `{GoUnicode}
    (books : list Book) (b : Book) :
  In b books ->
  ((Book_Order b < 1)%Z \/ Book_OSIS b = EmptyString
   \/ Book_Name b = EmptyString \/ (Book_Chapters b < 1)%Z) ->
  (exists e, NewTable books = inr e /\ Kind e = KindInvalidBook)
  /\ ((Book_Order b < 1)%Z -> Book_OSIS b <> EmptyString ->
      Book_Name b <> EmptyString -> (1 <= Book_Chapters b)%Z ->
      Book_Validate b =
        Some (mkBibleRefError KindInvalidBook ErrInvalidBook
                (Some "book order must be a positive integer") None)).
Proof.
  intros Hin Hbad. split.
  - apply newTableLoop_invalid with (b := b); [assumption |].
    rewrite Book_Validate_None. intros (? & ? & ? & ?).
    destruct Hbad as [?|[?|[?|?]]]; try lia; congruence.
  - intros Ho Hid Hname Hch. unfold Book_Validate.
    destruct (isEmpty (Book_OSIS b)) eqn:E1;
      [apply isEmpty_true in E1; congruence |].
    destruct (isEmpty (Book_Name b)) eqn:E2;
      [apply isEmpty_true in E2; congruence |].
    destruct (Z.ltb_spec (Book_Chapters b) 1); [lia |].
    destruct (Z.ltb_spec (Book_Order b) 1); [reflexivity | lia].
Qed.

Lemma C10_witness :
  (exists e, NewTable [proverbs; mkBook "Matt" "Matthew" ["mt"] "NT" 0 28]
             = inr e /\ Kind e = KindInvalidBook)
  /\ ((0 < 1)%Z -> "Matt" <> EmptyString -> "Matthew" <> EmptyString ->
      (1 <= 28)%Z ->
      Book_Validate (mkBook "Matt" "Matthew" ["mt"] "NT" 0 28) =
        Some (mkBibleRefError KindInvalidBook ErrInvalidBook
                (Some "book order must be a positive integer") None)).
Proof.
  apply (C10_NewTable_rejects_order_below_one
           [proverbs; mkBook "Matt" "Matthew" ["mt"] "NT" 0 28]
           (mkBook "Matt" "Matthew" ["mt"] "NT" 0 28)).
  - simpl. right. left. reflexivity.
  - left. simpl. lia.
Defined.

(** ** Validation of references *)

Lemma includes_mid (pre sub post : string) : includes (pre +:+ sub +:+ post) sub.
Proof. exists pre, post. reflexivity. Qed.

(** The outcomes of [Validate] for a reference whose book is in the
    table, in the order of its checks. *)
Lemma BibleRef_Validate_cases (r : BibleRef) (tbl : Table) (book : Book) :
  ByOsis tbl !! OSIS r = Some book ->
  (((Chapter r < 1)%Z \/ (Book_Chapters book < Chapter r)%Z) /\
   BibleRef_Validate r tbl =
     Some (mkBibleRefError KindInvalidChapter ErrInvalidChapter
             (Some ("invalid chapter number " +:+ Itoa (Chapter r)
                    +:+ " for book " +:+ Book_Name book)) None))
  \/ ((1 <= Chapter r <= Book_Chapters book)%Z /\
      ((Verse r = None /\ BibleRef_Validate r tbl = None)
       \/ (exists v, Verse r = Some v /\ (StartVerse v < 1)%Z /\
             exists e, BibleRef_Validate r tbl = Some e
                       /\ Kind e = KindInvalidVerse)
       \/ (exists v, Verse r = Some v /\ (1 <= StartVerse v)%Z /\
             EndVerse v = None /\ BibleRef_Validate r tbl = None)
       \/ (exists v e, Verse r = Some v /\ (1 <= StartVerse v)%Z /\
             EndVerse v = Some e /\ (e < StartVerse v)%Z /\
             exists err, BibleRef_Validate r tbl = Some err
                         /\ Kind err = KindInvalidVerse)
       \/ (exists v e, Verse r = Some v /\ (1 <= StartVerse v)%Z /\
             EndVerse v = Some e /\ (StartVerse v <= e)%Z /\
             BibleRef_Validate r tbl = None))).
Proof.
  intros Hb. unfold BibleRef_Validate. rewrite Hb.
  destruct (Z.ltb_spec (Chapter r) 1) as [Hlo|Hlo]; simpl.
  { left. split; [lia | reflexivity]. }
  destruct (Z.ltb_spec (Book_Chapters book) (Chapter r)) as [Hhi|Hhi]; simpl.
  { left. split; [lia | reflexivity]. }
  right. split; [lia |].
  destruct (Verse r) as [v|]; [| left; split; reflexivity].
  right.
  destruct (Z.ltb_spec (StartVerse v) 1) as [Hs|Hs].
  { left. exists v. repeat split; [assumption |]. eexists. split; reflexivity. }
  right.
  destruct (EndVerse v) as [e|] eqn:He;
    [| left; exists v; repeat split; assumption].
  right.
  destruct (Z.ltb_spec e (StartVerse v)) as [Hr|Hr].
  - left. exists v, e. repeat split; try assumption.
    eexists. split; reflexivity.
  - right. exists v, e. repeat split; assumption.
Qed.

(** C7, as the code has it: [Validate] checks the chapter before the
    verses.  For a reference with a verse range whose book is in the
    table and whose chapter is within the book's bounds, [Validate] fails
    with [KindInvalidVerse] whenever the end verse is below the start
    verse, and accepts the range when [1 <= start <= end]; the tail
    parser builds the range as written, reversed or not. *)
Theorem C7_range_direction (r : BibleRef) (tbl : Table) (book : Book)
    (v : VerseRange) (e : Z) :
  ByOsis tbl !! OSIS r = Some book ->
  (1 <= Chapter r <= Book_Chapters book)%Z ->
  Verse r = Some v -> EndVerse v = Some e ->
  ((e < StartVerse v)%Z ->
     exists err, BibleRef_Validate r tbl = Some err /\ Kind err = KindInvalidVerse)
  /\ ((1 <= StartVerse v <= e)%Z -> BibleRef_Validate r tbl = None)
  /\ parseChapterVerse ("1:20" +:+ EnDash +:+ "10") =
       inl (1%Z, Some {| StartVerse := 20; EndVerse := Some 10%Z |})
  /\ parseChapterVerse ("1:10" +:+ EnDash +:+ "20") =
       inl (1%Z, Some {| StartVerse := 10; EndVerse := Some 20%Z |}).
Proof.
  intros Hb Hch Hv He. unfold BibleRef_Validate. rewrite Hb, Hv, He.
  destruct (Z.ltb_spec (Chapter r) 1) as [?|_]; [lia |].
  destruct (Z.ltb_spec (Book_Chapters book) (Chapter r)) as [?|_]; [lia |].
  simpl. split; [| split; [| split; vm_compute; reflexivity]].
  - intros Hrev. destruct (Z.ltb_spec (StartVerse v) 1).
    + eexists. split; reflexivity.
    + destruct (Z.ltb_spec e (StartVerse v)); [| lia].
      eexists. split; reflexivity.
  - intros Hord. destruct (Z.ltb_spec (StartVerse v) 1); [lia |].
    destruct (Z.ltb_spec e (StartVerse v)); [lia | reflexivity].
Qed.

Lemma C7_witness :
  (exists err, BibleRef_Validate (rangeRef "Prov" 1 20 10) (tableOf testBooks)
               = Some err /\ Kind err = KindInvalidVerse)
  /\ BibleRef_Validate (rangeRef "Prov" 1 10 20) (tableOf testBooks) = None.
Proof.
  assert (Hb : forall a b,
             ByOsis (tableOf testBooks) !! OSIS (rangeRef "Prov" 1 a b)
             = Some proverbs) by (intros; vm_compute; reflexivity).
  assert (Hch : forall a b, (1 <= Chapter (rangeRef "Prov" 1 a b)
                             <= Book_Chapters proverbs)%Z)
    by (intros; simpl; lia).
  split.
  - apply (proj1 (C7_range_direction (rangeRef "Prov" 1 20 10) (tableOf testBooks)
                    proverbs _ 10%Z (Hb _ _) (Hch _ _) eq_refl eq_refl)).
    simpl. lia.
  - apply (proj1 (proj2 (C7_range_direction (rangeRef "Prov" 1 10 20)
                           (tableOf testBooks) proverbs _ 20%Z (Hb _ _) (Hch _ _)
                           eq_refl eq_refl))).
    simpl. lia.
Defined.

(** C7 as stated fails: the reference that "Prov 32:20-10" parses to
    carries the reversed range 20..10, and its validation fails with
    [KindInvalidChapter], not [KindInvalidVerse]. *)
Lemma C7_counterexample :
  BibleRef_Validate (rangeRef "Prov" 32 20 10) (tableOf testBooks) =
    Some (mkBibleRefError KindInvalidChapter ErrInvalidChapter
            (Some "invalid chapter number 32 for book Proverbs") None)
  /\ doParse "Prov 32:20-10" (tableOf testBooks) =
       inr (mkBibleRefError KindInvalidChapter ErrInvalidChapter
              (Some "invalid chapter number 32 for book Proverbs") None)
  /\ KindInvalidChapter <> KindInvalidVerse.
Proof. split; [| split]; try (vm_compute; reflexivity). discriminate. Qed.

(** The ranges of C7 through the whole parser, written with a hyphen. *)
Example Parse_range_direction :
  Parse "Prov 1:10-20" (tableOf testBooks) = inl (rangeRef "Prov" 1 10 20)
  /\ doParse "Prov 1:20-10" (tableOf testBooks) =
       inr (mkBibleRefError KindInvalidVerse ErrInvalidVerse
              (Some "end verse must be greater than or equal to start verse, got start: 20, end: 10")
              None).
Proof. split; vm_compute; reflexivity. Qed.

(** ** Bytes and basic string facts *)

Ltac bool_to_prop :=
  repeat match goal with
         | H : _ && _ = true |- _ => apply andb_true_iff in H; destruct H
         | H : _ || _ = true |- _ => apply orb_true_iff in H; destruct H
         | H : _ || _ = false |- _ => apply orb_false_iff in H; destruct H
         | H : _ && _ = false |- _ => apply andb_false_iff in H; destruct H
         | H : negb _ = true |- _ => apply negb_true_iff in H
         | H : negb _ = false |- _ => apply negb_false_iff in H
         | H : (_ <=? _)%N = true |- _ => apply N.leb_le in H
         | H : (_ <=? _)%N = false |- _ => apply N.leb_gt in H
         | H : (_ <? _)%N = true |- _ => apply N.ltb_lt in H
         | H : (_ <? _)%N = false |- _ => apply N.ltb_ge in H
         | H : (_ =? _)%N = true |- _ => apply N.eqb_eq in H
         | H : (_ =? _)%N = false |- _ => apply N.eqb_neq in H
         end.

(** Replaces the value of a literal byte by its number. *)
Ltac byte_literals :=
  repeat match goal with
         | H : context [byteVal (Ascii ?a ?b ?c ?d ?e ?f ?g ?h)] |- _ =>
             let v := eval vm_compute in (byteVal (Ascii a b c d e f g h)) in
             change (byteVal (Ascii a b c d e f g h)) with v in H
         | |- context [byteVal (Ascii ?a ?b ?c ?d ?e ?f ?g ?h)] =>
             let v := eval vm_compute in (byteVal (Ascii a b c d e f g h)) in
             change (byteVal (Ascii a b c d e f g h)) with v
         end.

(** Decides a boolean fact on bytes from boolean hypotheses on them, by
    arithmetic on the byte values. *)
Ltac byte_facts :=
  unfold isLead, isSpaceStart, isSpace1, isSpace2, isSpace3, isDigit, isUpper,
    eqByte in *;
  try (apply not_true_is_false; intro);
  try (apply not_false_iff_true; intro);
  byte_literals; bool_to_prop; lia.

Lemma byteVal_inj (a b : ascii) : byteVal a = byteVal b -> a = b.
Proof.
  unfold byteVal. intros E.
  rewrite <- (ascii_N_embedding a), <- (ascii_N_embedding b), E. reflexivity.
Qed.

Lemma eqByte_true (c : ascii) (n : N) :
  eqByte c n = true -> c = ascii_of_N n.
Proof.
  unfold eqByte, byteVal. intros E%N.eqb_eq.
  rewrite <- E. symmetry. apply ascii_N_embedding.
Qed.

Lemma digit_not_spaceStart (c : ascii) : isDigit c = true -> isSpaceStart c = false.
Proof. intros Hd. byte_facts. Qed.

Lemma digit_neq (c : ascii) (n : N) :
  isDigit c = true -> (n < 48 \/ 57 < n)%N -> eqByte c n = false.
Proof. intros Hd Hn. byte_facts. Qed.

Lemma digitVal_range (c : ascii) : isDigit c = true -> (0 <= digitVal c <= 9)%Z.
Proof. unfold digitVal. intros Hd. byte_facts. Qed.

Lemma allBytes_app (p : ascii -> bool) (a b : string) :
  allBytes p (a +:+ b) = allBytes p a && allBytes p b.
Proof.
  induction a; [reflexivity |]. rewrite sapp_cons. simpl.
  rewrite IHa, andb_assoc. reflexivity.
Qed.

Lemma allBytes_impl (p q : ascii -> bool) (s : string) :
  (forall c, p c = true -> q c = true) -> allBytes p s = true -> allBytes q s = true.
Proof.
  intros Hpq. induction s; simpl; [reflexivity |].
  intros [Ha Hs]%andb_true_iff. rewrite (Hpq _ Ha), (IHs Hs). reflexivity.
Qed.

Lemma revOnto_app (a b acc : string) :
  revOnto (a +:+ b) acc = revOnto b (revOnto a acc).
Proof.
  revert acc. induction a; intros acc; [reflexivity |].
  rewrite sapp_cons. simpl. apply IHa.
Qed.

Lemma revOnto_acc (a acc : string) : revOnto a acc = revString a +:+ acc.
Proof.
  unfold revString. revert acc. induction a; intros acc; [reflexivity |].
  simpl. rewrite IHa, (IHa (String _ EmptyString)), sapp_assoc. reflexivity.
Qed.

Lemma revString_app (a b : string) :
  revString (a +:+ b) = revString b +:+ revString a.
Proof. unfold revString at 1. rewrite revOnto_app, revOnto_acc. reflexivity. Qed.

Lemma revString_involutive (s : string) : revString (revString s) = s.
Proof.
  induction s; [reflexivity |].
  change (String a s) with (str1 a +:+ s) at 1.
  rewrite revString_app, revString_app. rewrite IHs. reflexivity.
Qed.

Lemma sliceFrom_app (a b : string) : sliceFrom (String.length a) (a +:+ b) = b.
Proof. induction a; [reflexivity | rewrite sapp_cons; simpl; exact IHa]. Qed.

Lemma sliceTo_app (a b : string) : sliceTo (String.length a) (a +:+ b) = a.
Proof. induction a; [reflexivity | rewrite sapp_cons; simpl; congruence]. Qed.

(** A non-empty string all of whose bytes satisfy [p] ends with such a
    byte. *)
Lemma allBytes_last (p : ascii -> bool) (s : string) :
  allBytes p s = true -> s <> EmptyString ->
  exists c r, revString s = String c r /\ p c = true.
Proof.
  induction s as [|a s IH]; [congruence |].
  simpl. intros [Ha Hs]%andb_true_iff _.
  change (String a s) with (str1 a +:+ s). rewrite revString_app.
  destruct s as [|b s'].
  - exists a, EmptyString. split; [reflexivity | exact Ha].
  - destruct (IH Hs) as (c & r & -> & Hc); [congruence |].
    exists c, (r +:+ revString (str1 a)). split; [reflexivity | exact Hc].
Qed.

(** ** White space: [TrimSpace] and [Fields] *)

Lemma spaceWidth_nonstart (c : ascii) (r : string) :
  isSpaceStart c = false -> spaceWidth (String c r) = 0%nat.
Proof.
  intros Hc. simpl.
  assert (H1 : isSpace1 c = false) by byte_facts. rewrite H1.
  destruct r as [|c2 r2]; [reflexivity |].
  assert (H2 : isSpace2 c c2 = false) by byte_facts. rewrite H2.
  destruct r2 as [|c3 r3]; [reflexivity |].
  assert (H3 : isSpace3 c c2 c3 = false) by byte_facts. rewrite H3.
  reflexivity.
Qed.

Lemma spaceWidthRev_digit (c : ascii) (r : string) :
  isDigit c = true -> spaceWidthRev (String c r) = 0%nat.
Proof.
  intros Hc. simpl.
  assert (H1 : isSpace1 c = false) by byte_facts. rewrite H1.
  destruct r as [|c2 r2]; [reflexivity |].
  assert (H2 : isSpace2 c2 c = false) by byte_facts. rewrite H2.
  destruct r2 as [|c3 r3]; [reflexivity |].
  assert (H3 : isSpace3 c3 c2 c = false) by byte_facts. rewrite H3.
  reflexivity.
Qed.

(** A space appended after a non-empty string does not change what the
    string starts with. *)
Lemma spaceWidth_app_space (c : ascii) (a t : string) :
  spaceWidth (String c a +:+ String " " t) = spaceWidth (String c a).
Proof.
  rewrite sapp_cons. simpl. destruct (isSpace1 c); [reflexivity |].
  destruct a as [|c2 a2].
  - rewrite sapp_nil_l.
    assert (H2 : isSpace2 c " " = false) by byte_facts. rewrite H2.
    destruct t as [|c3 t3]; [reflexivity |].
    assert (H3 : isSpace3 c " " c3 = false) by byte_facts. rewrite H3.
    reflexivity.
  - rewrite sapp_cons. destruct (isSpace2 c c2); [reflexivity |].
    destruct a2 as [|c3 a3].
    + rewrite sapp_nil_l.
      assert (H3 : isSpace3 c c2 " " = false) by byte_facts. rewrite H3.
      reflexivity.
    + rewrite sapp_cons. reflexivity.
Qed.

Lemma spaceWidth_le_length (s : string) : (spaceWidth s <= String.length s)%nat.
Proof.
  destruct s as [|c1 [|c2 [|c3 r]]]; simpl;
    repeat match goal with |- context [if ?b then _ else _] => destruct b end;
    lia.
Qed.

Lemma flush_app (cur t : string) :
  t <> EmptyString -> GoStrings.flush (cur +:+ t) = [cur +:+ t].
Proof.
  intros Ht. destruct cur; [| reflexivity].
  rewrite sapp_nil_l. destruct t; [congruence | reflexivity].
Qed.

Lemma fieldsAux_spaceFree (t cur : string) :
  spaceFree t = true ->
  GoStrings.fieldsAux 0 cur t = GoStrings.flush (cur +:+ t).
Proof.
  revert cur. induction t as [|c t IH]; intros cur Hf.
  - rewrite sapp_nil_r. reflexivity.
  - cbn [spaceFree] in Hf. apply andb_true_iff in Hf as [Hw Hf].
    apply Nat.eqb_eq in Hw. cbn [GoStrings.fieldsAux]. rewrite Hw.
    rewrite IH by exact Hf. unfold str1. rewrite sapp_assoc. reflexivity.
Qed.

(** The fields of a string followed by a space and a token [t] that holds
    no white space are the fields of the string, then [t]. *)
Lemma fieldsAux_app_token (t : string) :
  spaceFree t = true -> t <> EmptyString ->
  forall (a cur : string) (k : nat),
    (k <= String.length a)%nat ->
    GoStrings.fieldsAux k cur (a +:+ String " " t)
    = (GoStrings.fieldsAux k cur a ++ [t])%list.
Proof.
  intros Hf Ht. induction a as [|c a IH]; intros cur k Hk.
  - simpl in Hk. assert (k = 0%nat) as -> by lia.
    rewrite sapp_nil_l. cbn [GoStrings.fieldsAux].
    change (spaceWidth (String " " t)) with 1%nat. cbv iota.
    rewrite (fieldsAux_spaceFree t EmptyString Hf), sapp_nil_l.
    destruct t; [congruence | reflexivity].
  - destruct k as [|k].
    + pose proof (spaceWidth_app_space c a t) as Hw.
      pose proof (spaceWidth_le_length (String c a)) as Hl.
      rewrite sapp_cons in *. cbn [GoStrings.fieldsAux]. rewrite Hw.
      destruct (spaceWidth (String c a)) as [|w].
      * apply IH. lia.
      * rewrite IH by (simpl in Hl; lia). rewrite app_assoc. reflexivity.
    + rewrite sapp_cons. cbn [GoStrings.fieldsAux]. apply IH. simpl in Hk. lia.
Qed.

Lemma Fields_app_token (a t : string) :
  spaceFree t = true -> t <> EmptyString ->
  GoStrings.Fields (a +:+ " " +:+ t) = (GoStrings.Fields a ++ [t])%list.
Proof.
  intros Hf Ht. unfold GoStrings.Fields.
  apply fieldsAux_app_token; [assumption | assumption | lia].
Qed.

Lemma fieldsAux_trimLeft (s : string) (k : nat) :
  GoStrings.fieldsAux 0 EmptyString (GoStrings.trimLeftAux spaceWidth k s)
  = GoStrings.fieldsAux k EmptyString s.
Proof.
  revert k. induction s as [|c s IH]; intros k; [reflexivity |].
  destruct k as [|k]; cbn [GoStrings.trimLeftAux GoStrings.fieldsAux].
  - destruct (spaceWidth (String c s)) as [|w] eqn:Hw.
    + cbn [GoStrings.fieldsAux]. rewrite Hw. reflexivity.
    + rewrite IH. reflexivity.
  - apply IH.
Qed.

Lemma Fields_TrimLeftSpace (s : string) :
  GoStrings.Fields (GoStrings.TrimLeftSpace s) = GoStrings.Fields s.
Proof. apply fieldsAux_trimLeft. Qed.

Lemma trimLeftAux_suffix (width : string -> nat) (s : string) (k : nat) :
  exists p, s = p +:+ GoStrings.trimLeftAux width k s.
Proof.
  revert k. induction s as [|c s IH]; intros k.
  - exists EmptyString. reflexivity.
  - destruct k as [|k]; cbn [GoStrings.trimLeftAux].
    + destruct (width (String c s)).
      * exists EmptyString. reflexivity.
      * destruct (IH n) as [p Hp]. exists (String c p).
        rewrite sapp_cons, <- Hp. reflexivity.
    + destruct (IH k) as [p Hp]. exists (String c p).
      rewrite sapp_cons, <- Hp. reflexivity.
Qed.

(** A string that starts with a byte that opens no white space and ends
    with a digit is left as it is by [TrimSpace]. *)
Lemma TrimRightSpace_digit_end (s r : string) (c : ascii) :
  revString s = String c r -> isDigit c = true ->
  GoStrings.TrimRightSpace s = s.
Proof.
  intros Hr Hc. unfold GoStrings.TrimRightSpace. rewrite Hr.
  cbn [GoStrings.trimLeftAux]. rewrite spaceWidthRev_digit by exact Hc.
  rewrite <- Hr. apply revString_involutive.
Qed.

Lemma revString_nil (s : string) : revString s = EmptyString -> s = EmptyString.
Proof.
  intros H. rewrite <- (revString_involutive s), H. reflexivity.
Qed.

(** [TrimSpace] only removes white space at the left of a string that
    ends with a digit, so its fields are unchanged. *)
Lemma Fields_TrimSpace_digit_end (s r : string) (c : ascii) :
  revString s = String c r -> isDigit c = true ->
  GoStrings.Fields s <> [] ->
  GoStrings.Fields (GoStrings.TrimSpace s) = GoStrings.Fields s
  /\ GoStrings.TrimSpace s <> EmptyString.
Proof.
  intros Hr Hc Hne. unfold GoStrings.TrimSpace.
  destruct (trimLeftAux_suffix spaceWidth s 0) as [p Hp].
  fold (GoStrings.TrimLeftSpace s) in Hp.
  assert (Hl : GoStrings.TrimLeftSpace s <> EmptyString).
  { intros E. apply Hne. rewrite <- Fields_TrimLeftSpace, E. reflexivity. }
  assert (Hend : exists r', revString (GoStrings.TrimLeftSpace s) = String c r').
  { rewrite Hp, revString_app in Hr.
    destruct (revString (GoStrings.TrimLeftSpace s)) as [|c' r'] eqn:E.
    - apply revString_nil in E. congruence.
    - rewrite sapp_cons in Hr. injection Hr as -> _. eauto. }
  destruct Hend as [r' Hr'].
  rewrite (TrimRightSpace_digit_end _ _ _ Hr' Hc).
  split; [apply Fields_TrimLeftSpace | exact Hl].
Qed.

(** ** The table that [NewTable] builds *)

(** The table after the loop of [NewTable] has gone through [books]. *)
Lemma newTableLoop_inl `{GoUnicode} (books : list Book) (tbl tbl' : Table) :
  newTableLoop books tbl = inl tbl' ->
  Forall (fun b => Book_Validate b = None) books
  /\ tbl' = fold_left (fun t b => addBook b t) books tbl.
Proof.
  revert tbl. induction books as [|b rest IH]; intros tbl Hl; simpl in *.
  - injection Hl as <-. split; [constructor | reflexivity].
  - destruct (Book_Validate b) eqn:Hb; [discriminate |].
    destruct (IH _ Hl) as [Hall ->]. split; [constructor; assumption | reflexivity].
Qed.

Lemma newTableLoop_valid `{GoUnicode} (books : list Book) (tbl : Table) :
  Forall (fun b => Book_Validate b = None) books ->
  newTableLoop books tbl = inl (fold_left (fun t b => addBook b t) books tbl).
Proof.
  revert tbl. induction books as [|b rest IH]; intros tbl Hall; simpl.
  - reflexivity.
  - inversion Hall as [|? ? Hb Hrest]; subst. rewrite Hb. apply IH, Hrest.
Qed.

Lemma addAliases_notin `{GoUnicode} (osis : string) (aliases : list string)
    (m : gmap string string) (k : string) :
  ~ In k (map NormalizeAlias aliases) ->
  addAliases osis aliases m !! k = m !! k.
Proof.
  unfold addAliases. revert m.
  induction aliases as [|a rest IH]; intros m Hk; simpl in *; [reflexivity |].
  rewrite IH by tauto. apply lookup_insert_ne. tauto.
Qed.

Lemma addAliases_in `{GoUnicode} (osis : string) (aliases : list string)
    (m : gmap string string) (k : string) :
  In k (map NormalizeAlias aliases) ->
  addAliases osis aliases m !! k = Some osis.
Proof.
  unfold addAliases. revert m.
  induction aliases as [|a rest IH]; intros m Hk; simpl in *; [destruct Hk |].
  destruct (in_dec string_dec k (map NormalizeAlias rest)) as [Hin|Hout].
  - apply IH, Hin.
  - destruct Hk as [<-|Hin]; [| contradiction].
    fold (addAliases osis rest (<[NormalizeAlias a := osis]> m)).
    rewrite addAliases_notin by exact Hout. apply lookup_insert_eq.
Qed.

(** What [ByAlias] holds under [k] after one round of the loop. *)
Lemma addBook_ByAlias `{GoUnicode} (b : Book) (tbl : Table) (k : string) :
  ByAlias (addBook b tbl) !! k =
    if in_dec string_dec k (map NormalizeAlias (Book_Aliases b))
    then Some (Book_OSIS b)
    else match ByAlias tbl !! k with
         | Some o => Some o
         | None => if string_dec k (NormalizeAlias (Book_OSIS b))
                   then Some (Book_OSIS b) else None
         end.
Proof.
  unfold addBook, contains. cbn [ByAlias].
  set (m1 := addAliases (Book_OSIS b) (Book_Aliases b) (ByAlias tbl)).
  set (key := NormalizeAlias (Book_OSIS b)).
  assert (Hm1 : m1 !! k =
                if in_dec string_dec k (map NormalizeAlias (Book_Aliases b))
                then Some (Book_OSIS b) else ByAlias tbl !! k).
  { subst m1. destruct (in_dec _ _ _) as [Hin|Hout];
      [apply addAliases_in | apply addAliases_notin]; assumption. }
  destruct (m1 !! key) as [v|] eqn:Hkey; cbn [negb].
  - rewrite Hm1. destruct (in_dec _ _ _); [reflexivity |].
    destruct (ByAlias tbl !! k) eqn:Hk; [reflexivity |].
    destruct (string_dec k key) as [->|]; [| reflexivity].
    rewrite Hm1 in Hkey.
    first [ congruence | destruct (in_dec _ _ _); [contradiction | congruence] ].
  - destruct (string_dec k key) as [->|Hne].
    + rewrite lookup_insert_eq. rewrite Hm1 in Hkey.
      destruct (in_dec _ _ _); [discriminate |]. rewrite Hkey. reflexivity.
    + rewrite lookup_insert_ne by congruence. rewrite Hm1.
      destruct (in_dec _ _ _); [reflexivity |].
      destruct (ByAlias tbl !! k); reflexivity.
Qed.

Lemma addBook_ByOsis `{GoUnicode} (b : Book) (tbl : Table) :
  ByOsis (addBook b tbl) = <[Book_OSIS b := b]> (ByOsis tbl).
Proof. reflexivity. Qed.

Lemma in_aliasKeys `{GoUnicode} (b : Book) (k : string) :
  In k (aliasKeys b) <->
  In k (map NormalizeAlias (Book_Aliases b)) \/ k = NormalizeAlias (Book_OSIS b).
Proof.
  unfold aliasKeys. rewrite in_app_iff. simpl. intuition congruence.
Qed.

Lemma tableInv_empty `{GoUnicode} : tableInv [] {| ByOsis := ∅; ByAlias := ∅ |}.
Proof.
  unfold tableInv. cbn [ByOsis ByAlias].
  split; [| split; [| split]]; intros.
  - rewrite lookup_empty in *. discriminate.
  - contradiction.
  - rewrite lookup_empty in *. discriminate.
  - contradiction.
Qed.

Lemma tableInv_addBook `{GoUnicode} (books : list Book) (b : Book) (tbl : Table) :
  tableInv books tbl -> tableInv (books ++ [b]) (addBook b tbl).
Proof.
  intros (HO1 & HO2 & HA1 & HA2). split; [| split; [| split]].
  - intros k b0 H0. rewrite addBook_ByOsis in H0.
    destruct (string_dec (Book_OSIS b) k) as [<-|Hne].
    + rewrite lookup_insert_eq in H0. injection H0 as <-.
      split; [apply in_app_iff; right; left |]; reflexivity.
    + rewrite lookup_insert_ne in H0 by exact Hne.
      destruct (HO1 _ _ H0) as [Hin Hk].
      split; [apply in_app_iff; left; exact Hin | exact Hk].
  - intros b0 Hin. rewrite addBook_ByOsis.
    destruct (string_dec (Book_OSIS b) (Book_OSIS b0)) as [<-|Hne].
    + rewrite lookup_insert_eq. eauto.
    + rewrite lookup_insert_ne by exact Hne.
      apply in_app_iff in Hin as [Hin | [<- | [] ] ]; [apply HO2, Hin | congruence].
  - intros k o Hk. rewrite addBook_ByAlias in Hk.
    destruct (in_dec _ _ _) as [Hin|Hout].
    + injection Hk as <-. exists b. split; [apply in_app_iff; right; left; reflexivity |].
      split; [apply in_aliasKeys; left; exact Hin | reflexivity].
    + destruct (ByAlias tbl !! k) as [o'|] eqn:Hold.
      * injection Hk as <-. destruct (HA1 _ _ Hold) as (b0 & Hb0 & Hk0 & ->).
        exists b0. split; [apply in_app_iff; left; exact Hb0 | split; [exact Hk0 | reflexivity]].
      * destruct (string_dec _ _) as [->|]; [| discriminate]. injection Hk as <-.
        exists b. split; [apply in_app_iff; right; left; reflexivity |].
        split; [apply in_aliasKeys; right; reflexivity | reflexivity].
  - intros b0 k Hin Hk. rewrite addBook_ByAlias.
    destruct (in_dec _ _ _) as [|Hout]; [eauto |].
    destruct (ByAlias tbl !! k) as [o'|] eqn:Hold; [eauto |].
    apply in_app_iff in Hin as [Hin | [<- | [] ] ].
    + destruct (HA2 _ _ Hin Hk) as [o Ho]. congruence.
    + apply in_aliasKeys in Hk as [Hk | ->]; [contradiction |].
      destruct (string_dec _ _); [eauto | congruence].
Qed.

Lemma tableInv_fold `{GoUnicode} (books : list Book) :
  tableInv books
    (fold_left (fun t b => addBook b t) books {| ByOsis := ∅; ByAlias := ∅ |}).
Proof.
  induction books as [|b pre IH] using rev_ind; [apply tableInv_empty |].
  rewrite fold_left_app. simpl. apply tableInv_addBook, IH.
Qed.

Lemma NewTable_inv `{GoUnicode} (books : list Book) (tbl : Table) :
  NewTable books = inl tbl ->
  Forall (fun b => Book_Validate b = None) books /\ tableInv books tbl.
Proof.
  intros Hn. apply newTableLoop_inl in Hn as [Hall ->].
  split; [exact Hall | apply tableInv_fold].
Qed.

(** [b] is the last book of [books] whose id is [k]. *)
Lemma fold_ByOsis_last `{GoUnicode} (books : list Book) (k : string) (b : Book) :
  ByOsis (fold_left (fun t b => addBook b t) books {| ByOsis := ∅; ByAlias := ∅ |})
    !! k = Some b
  <-> exists pre post, books = (pre ++ b :: post)%list /\ Book_OSIS b = k
                       /\ forall b', In b' post -> Book_OSIS b' <> k.
Proof.
  induction books as [|x l IH] using rev_ind.
  - cbn [fold_left ByOsis]. rewrite lookup_empty. split; [discriminate |].
    intros (pre & post & E & _). destruct pre; discriminate.
  - rewrite fold_left_app. cbn [fold_left]. rewrite addBook_ByOsis. split.
    + intros Hl. destruct (string_dec (Book_OSIS x) k) as [Hk|Hne].
      * subst k. rewrite lookup_insert_eq in Hl. injection Hl as <-.
        exists l, []. split; [reflexivity | split; [reflexivity | intros ? []]].
      * rewrite lookup_insert_ne in Hl by exact Hne.
        apply IH in Hl as (pre & post & -> & Hk & Hpost).
        exists pre, (post ++ [x])%list.
        split; [rewrite <- app_assoc; reflexivity | split; [exact Hk |]].
        intros b' [Hin | [<- | [] ] ]%in_app_iff; [apply Hpost, Hin | exact Hne].
    + intros (pre & post & E & Hk & Hpost).
      destruct post as [|y post'] using rev_ind.
      * apply app_inj_tail in E as [-> ->]. subst k. apply lookup_insert_eq.
      * clear IHpost'. rewrite app_comm_cons, app_assoc in E.
        apply app_inj_tail in E as [-> ->].
        rewrite lookup_insert_ne
          by (apply Hpost, in_app_iff; right; left; reflexivity).
        apply IH. exists pre, post'. split; [reflexivity | split; [exact Hk |]].
        intros b' Hin. apply Hpost, in_app_iff. left. exact Hin.
Qed.

(** [NewTable] accepts a list of books exactly when every book has a
    non-empty id and name, at least one chapter and a positive order. *)
Theorem NewTable_accepts_iff `{GoUnicode} (books : list Book) :
  (exists tbl, NewTable books = inl tbl)
  <-> forall b, In b books ->
        Book_OSIS b <> EmptyString /\ Book_Name b <> EmptyString
        /\ (1 <= Book_Chapters b)%Z /\ (1 <= Book_Order b)%Z.
Proof.
  split.
  - intros [tbl Hn] b Hin. apply NewTable_inv in Hn as [Hall _].
    rewrite Forall_forall in Hall. apply Book_Validate_None, Hall.
    apply list_elem_of_In, Hin.
  - intros Hall. eexists. apply newTableLoop_valid.
    apply Forall_forall. intros b Hin%list_elem_of_In.
    apply Book_Validate_None, Hall, Hin.
Qed.

(** In the table of [NewTable], [ByOsis] holds under an id the last book
    of the list with that id, and nothing else. *)
Theorem NewTable_ByOsis_last_wins `{GoUnicode} (books : list Book) (tbl : Table)
    (k : string) (b : Book) :
  NewTable books = inl tbl ->
  (ByOsis tbl !! k = Some b
   <-> exists pre post, books = (pre ++ b :: post)%list /\ Book_OSIS b = k
                        /\ forall b', In b' post -> Book_OSIS b' <> k).
Proof.
  intros Hn. apply newTableLoop_inl in Hn as [_ ->]. apply fold_ByOsis_last.
Qed.

Lemma NewTable_testBooks : NewTable testBooks = inl (tableOf testBooks).
Proof. vm_compute. reflexivity. Qed.

Lemma NewTable_ByOsis_last_wins_witness :
  ByOsis (tableOf testBooks) !! "Prov" = Some proverbs
  <-> exists pre post, testBooks = (pre ++ proverbs :: post)%list
                       /\ Book_OSIS proverbs = "Prov"
                       /\ forall b', In b' post -> Book_OSIS b' <> "Prov".
Proof.
  exact (NewTable_ByOsis_last_wins testBooks (tableOf testBooks) "Prov" proverbs
           NewTable_testBooks).
Defined.

(** Every key of every book (its normalized aliases and its normalized
    id) is in [ByAlias]; it maps to the id of a book of the list that has
    this key, and to the book's own id when no book with another id shares
    the key. *)
Theorem NewTable_ByAlias_keys `{GoUnicode} (books : list Book) (tbl : Table)
    (b : Book) (k : string) :
  NewTable books = inl tbl -> In b books -> In k (aliasKeys b) ->
  exists b', In b' books /\ In k (aliasKeys b')
             /\ ByAlias tbl !! k = Some (Book_OSIS b')
             /\ ((forall b'', In b'' books -> In k (aliasKeys b'') ->
                    Book_OSIS b'' = Book_OSIS b) ->
                 ByAlias tbl !! k = Some (Book_OSIS b)).
Proof.
  intros Hn Hin Hk. apply NewTable_inv in Hn as [_ (_ & _ & HA1 & HA2)].
  destruct (HA2 _ _ Hin Hk) as [o Ho].
  destruct (HA1 _ _ Ho) as (b' & Hin' & Hk' & ->).
  exists b'. repeat split; try assumption.
  intros Huniq. rewrite Ho, (Huniq _ Hin' Hk'). reflexivity.
Qed.

Lemma NewTable_ByAlias_keys_witness :
  exists b', In b' testBooks /\ In "1 samuel" (aliasKeys b')
             /\ ByAlias (tableOf testBooks) !! "1 samuel" = Some (Book_OSIS b')
             /\ ((forall b'', In b'' testBooks -> In "1 samuel" (aliasKeys b'') ->
                    Book_OSIS b'' = "1Sam") ->
                 ByAlias (tableOf testBooks) !! "1 samuel" = Some "1Sam").
Proof.
  apply (NewTable_ByAlias_keys testBooks (tableOf testBooks)
           (mkBook "1Sam" "1 Samuel"
              ["1 samuel"; "1samuel"; "1 sam"; "1sam"; "i samuel"; "i sam"]
              "OT" 9 31) "1 samuel" NewTable_testBooks).
  - right. left. reflexivity.
  - vm_compute. left. reflexivity.
Defined.

(** [ByAlias] never dangles: the id under any of its keys is in [ByOsis],
    so a head found in the alias map always resolves to a book; and it
    holds no key of its own making: every key is the normalized alias or
    id of a book of the list with the id stored there. *)
Theorem NewTable_alias_resolves `{GoUnicode} (books : list Book) (tbl : Table)
    (k o : string) :
  NewTable books = inl tbl -> ByAlias tbl !! k = Some o ->
  (exists b, resolveBook tbl k = Some b /\ Book_OSIS b = o /\ In b books)
  /\ (exists b0, In b0 books /\ In k (aliasKeys b0) /\ Book_OSIS b0 = o).
Proof.
  intros Hn Hk. apply NewTable_inv in Hn as [_ (HO1 & HO2 & HA1 & _)].
  destruct (HA1 _ _ Hk) as (b0 & Hin0 & Hk0 & ->).
  destruct (HO2 _ Hin0) as [b Hb]. destruct (HO1 _ _ Hb) as [Hin Hid].
  split.
  - exists b. unfold resolveBook. rewrite Hk.
    split; [exact Hb | split; assumption].
  - exists b0. split; [exact Hin0 | split; [exact Hk0 | reflexivity]].
Qed.

Lemma NewTable_alias_resolves_witness :
  (exists b, resolveBook (tableOf testBooks) "2 sam" = Some b
             /\ Book_OSIS b = "2Sam" /\ In b testBooks)
  /\ (exists b0, In b0 testBooks /\ In "2 sam" (aliasKeys b0)
                  /\ Book_OSIS b0 = "2Sam").
Proof.
  apply (NewTable_alias_resolves testBooks (tableOf testBooks) "2 sam" "2Sam"
           NewTable_testBooks).
  vm_compute. reflexivity.
Defined.

(** What the last book of the list does to [ByAlias]: each of its aliases
    takes its key over, whatever an earlier book stored there; its own id
    is added only under a key that is still free; every other key keeps
    what the earlier books stored. *)
Theorem NewTable_last_alias_wins `{GoUnicode} (pre : list Book) (b : Book)
    (tbl : Table) :
  NewTable (pre ++ [b]) = inl tbl ->
  exists tbl0,
    NewTable pre = inl tbl0
    /\ (forall k, In k (map NormalizeAlias (Book_Aliases b)) ->
          ByAlias tbl !! k = Some (Book_OSIS b))
    /\ (forall k o, ~ In k (map NormalizeAlias (Book_Aliases b)) ->
          ByAlias tbl0 !! k = Some o -> ByAlias tbl !! k = Some o)
    /\ (~ In (NormalizeAlias (Book_OSIS b)) (map NormalizeAlias (Book_Aliases b)) ->
        ByAlias tbl0 !! NormalizeAlias (Book_OSIS b) = None ->
        ByAlias tbl !! NormalizeAlias (Book_OSIS b) = Some (Book_OSIS b))
    /\ (forall k, ~ In k (aliasKeys b) ->
          ByAlias tbl !! k = ByAlias tbl0 !! k).
Proof.
  intros Hn. apply newTableLoop_inl in Hn as [Hall ->].
  apply Forall_app in Hall as [Hpre _].
  eexists. split; [apply newTableLoop_valid, Hpre |].
  rewrite fold_left_app. cbn [fold_left].
  split; [| split; [| split]].
  - intros k Hk. rewrite addBook_ByAlias.
    destruct (in_dec _ _ _); [reflexivity | contradiction].
  - intros k o Hk Ho. rewrite addBook_ByAlias.
    destruct (in_dec _ _ _); [contradiction |]. rewrite Ho. reflexivity.
  - intros Hk Ho. rewrite addBook_ByAlias.
    destruct (in_dec _ _ _); [contradiction |]. rewrite Ho.
    destruct (string_dec _ _); [reflexivity | congruence].
  - intros k Hk. rewrite addBook_ByAlias. rewrite in_aliasKeys in Hk.
    destruct (in_dec _ _ _); [tauto |].
    destruct (ByAlias _ !! k); [reflexivity |].
    destruct (string_dec _ _); [tauto | reflexivity].
Qed.

(** The witness is the package's own test of duplicate aliases: "prov"
    ends up under "Matt". *)
Lemma NewTable_last_alias_wins_witness :
  exists tbl0,
    NewTable [mkBook "Prov" "Proverbs" ["proverbs"; "prov"] "OT" 20 31] = inl tbl0
    /\ (forall k, In k (map NormalizeAlias (Book_Aliases matthewProv)) ->
          ByAlias (tableOf booksWithDuplicates) !! k = Some "Matt")
    /\ (forall k o, ~ In k (map NormalizeAlias (Book_Aliases matthewProv)) ->
          ByAlias tbl0 !! k = Some o ->
          ByAlias (tableOf booksWithDuplicates) !! k = Some o)
    /\ (~ In (NormalizeAlias "Matt") (map NormalizeAlias (Book_Aliases matthewProv)) ->
        ByAlias tbl0 !! NormalizeAlias "Matt" = None ->
        ByAlias (tableOf booksWithDuplicates) !! NormalizeAlias "Matt" = Some "Matt")
    /\ (forall k, ~ In k (aliasKeys matthewProv) ->
          ByAlias (tableOf booksWithDuplicates) !! k = ByAlias tbl0 !! k).
Proof.
  apply (NewTable_last_alias_wins
           [mkBook "Prov" "Proverbs" ["proverbs"; "prov"] "OT" 20 31]
           matthewProv (tableOf booksWithDuplicates)).
  vm_compute. reflexivity.
Defined.

Example duplicate_alias_overwritten :
  ByAlias (tableOf booksWithDuplicates) !! "prov" = Some "Matt".
Proof. vm_compute. reflexivity. Qed.

(** ** More on validation *)

Lemma BibleRef_Validate_ok (r : BibleRef) (tbl : Table) :
  BibleRef_Validate r tbl = None ->
  exists book,
    ByOsis tbl !! OSIS r = Some book
    /\ (1 <= Chapter r <= Book_Chapters book)%Z
    /\ match Verse r with
       | None => True
       | Some v => (1 <= StartVerse v)%Z
                   /\ match EndVerse v with
                      | None => True
                      | Some e => (StartVerse v <= e)%Z
                      end
       end.
Proof.
  unfold BibleRef_Validate.
  destruct (ByOsis tbl !! OSIS r) as [book|]; [| discriminate].
  destruct (Z.ltb_spec (Chapter r) 1); [discriminate |].
  destruct (Z.ltb_spec (Book_Chapters book) (Chapter r)); [discriminate |].
  cbn [orb]. intros Hv. exists book. split; [reflexivity | split; [lia |]].
  destruct (Verse r) as [v|]; [| exact I].
  destruct (Z.ltb_spec (StartVerse v) 1); [discriminate |].
  split; [lia |]. destruct (EndVerse v) as [e|]; [| exact I].
  destruct (Z.ltb_spec e (StartVerse v)); [discriminate | lia].
Qed.

Lemma BibleRef_Validate_cases_start (r : BibleRef) (tbl : Table) :
  BibleRef_Validate r tbl = None ->
  match Verse r with
  | Some v => (StartVerse v <? 1)%Z
  | None => false
  end = false.
Proof.
  intros (book & _ & _ & Hv)%BibleRef_Validate_ok.
  destruct (Verse r) as [v|]; [| reflexivity].
  apply Z.ltb_ge. tauto.
Qed.

(** [Validate] returns nil exactly for a reference whose book is in the
    table, whose chapter is within the book's bounds and whose verses,
    when given, satisfy [1 <= start] and [start <= end]. *)
Theorem BibleRef_Validate_ok_iff (r : BibleRef) (tbl : Table) :
  BibleRef_Validate r tbl = None
  <-> exists book,
        ByOsis tbl !! OSIS r = Some book
        /\ (1 <= Chapter r <= Book_Chapters book)%Z
        /\ match Verse r with
           | None => True
           | Some v => (1 <= StartVerse v)%Z
                       /\ match EndVerse v with
                          | None => True
                          | Some e => (StartVerse v <= e)%Z
                          end
           end.
Proof.
  split; [apply BibleRef_Validate_ok |]. unfold BibleRef_Validate.
  - intros (book & -> & Hch & Hv).
    destruct (Z.ltb_spec (Chapter r) 1); [lia |].
    destruct (Z.ltb_spec (Book_Chapters book) (Chapter r)); [lia |].
    cbn [orb]. destruct (Verse r) as [v|]; [| reflexivity].
    destruct Hv as [Hs He].
    destruct (Z.ltb_spec (StartVerse v) 1); [lia |].
    destruct (EndVerse v) as [e|]; [| reflexivity].
    destruct (Z.ltb_spec e (StartVerse v)); [lia | reflexivity].
Qed.

(** The kind of the error of [Validate] is that of the first check that
    fails: the book, then the chapter, then the verses; the error has no
    cause. *)
Theorem BibleRef_Validate_error_kind (r : BibleRef) (tbl : Table)
    (e : BibleRefError) :
  BibleRef_Validate r tbl = Some e ->
  Cause e = None
  /\ ((Kind e = KindUnknownBook /\ Err e = ErrInvalidOSISCode
       /\ ByOsis tbl !! OSIS r = None)
      \/ (Kind e = KindInvalidChapter /\ Err e = ErrInvalidChapter
          /\ exists book, ByOsis tbl !! OSIS r = Some book
               /\ ((Chapter r < 1)%Z \/ (Book_Chapters book < Chapter r)%Z))
      \/ (Kind e = KindInvalidVerse /\ Err e = ErrInvalidVerse
          /\ exists book v, ByOsis tbl !! OSIS r = Some book
               /\ (1 <= Chapter r <= Book_Chapters book)%Z
               /\ Verse r = Some v
               /\ ((StartVerse v < 1)%Z
                   \/ exists e', EndVerse v = Some e' /\ (e' < StartVerse v)%Z))).
Proof.
  unfold BibleRef_Validate.
  destruct (ByOsis tbl !! OSIS r) as [book|] eqn:Hb.
  2:{ intros [= <-]. split; [reflexivity |]. left.
      split; [reflexivity | split; reflexivity]. }
  destruct (Z.ltb_spec (Chapter r) 1).
  { intros [= <-]. split; [reflexivity |]. right. left.
    split; [reflexivity | split; [reflexivity |]].
    exists book. split; [reflexivity | lia]. }
  destruct (Z.ltb_spec (Book_Chapters book) (Chapter r)).
  { intros [= <-]. split; [reflexivity |]. right. left.
    split; [reflexivity | split; [reflexivity |]].
    exists book. split; [reflexivity | lia]. }
  cbn [orb]. destruct (Verse r) as [v|] eqn:Hv; [| discriminate].
  destruct (Z.ltb_spec (StartVerse v) 1).
  { intros [= <-]. split; [reflexivity |]. right. right.
    split; [reflexivity | split; [reflexivity |]].
    exists book, v. split; [reflexivity | split; [lia | split; [reflexivity |]]].
    left. lia. }
  destruct (EndVerse v) as [e'|] eqn:He; [| discriminate].
  destruct (Z.ltb_spec e' (StartVerse v)); [| discriminate].
  intros [= <-]. split; [reflexivity |]. right. right.
  split; [reflexivity | split; [reflexivity |]].
  exists book, v. split; [reflexivity | split; [lia | split; [reflexivity |]]].
  right. exists e'. split; [exact He | lia].
Qed.

Lemma BibleRef_Validate_error_kind_witness :
  Cause (mkBibleRefError KindUnknownBook ErrInvalidOSISCode
           (Some "unknown OSIS code: Gen") None) = None
  /\ ((KindUnknownBook = KindUnknownBook /\ ErrInvalidOSISCode = ErrInvalidOSISCode
       /\ ByOsis (tableOf testBooks) !! "Gen" = None)
      \/ (KindUnknownBook = KindInvalidChapter /\ ErrInvalidOSISCode = ErrInvalidChapter
          /\ exists book, ByOsis (tableOf testBooks) !! "Gen" = Some book
               /\ ((3 < 1)%Z \/ (Book_Chapters book < 3)%Z))
      \/ (KindUnknownBook = KindInvalidVerse /\ ErrInvalidOSISCode = ErrInvalidVerse
          /\ exists book v, ByOsis (tableOf testBooks) !! "Gen" = Some book
               /\ (1 <= 3 <= Book_Chapters book)%Z
               /\ None = Some v
               /\ ((StartVerse v < 1)%Z
                   \/ exists e', EndVerse v = Some e' /\ (e' < StartVerse v)%Z))).
Proof.
  apply (BibleRef_Validate_error_kind (chapterRef "Gen" 3) (tableOf testBooks)).
  vm_compute. reflexivity.
Defined.

(** ** The parser *)

Lemma Fields_nil_length (s : string) :
  isEmpty s = true -> List.length (GoStrings.Fields s) = 0%nat.
Proof. intros ->%isEmpty_true. reflexivity. Qed.

(** [parseRefString] once the input has at least two fields, its tail
    passes [parseTail] and its head resolves to a book. *)
Lemma parseRefString_resolved `{GoUnicode} (s : string) (tbl : Table)
    (cv : string) (book : Book) :
  let fields := GoStrings.Fields (GoStrings.TrimSpace s) in
  (2 <= List.length fields)%nat ->
  parseTail (List.last fields EmptyString) = inl cv ->
  resolveBook tbl (NormalizeAlias (GoStrings.Join (removelast fields) " "))
    = Some book ->
  parseRefString s tbl =
    match parseChapterVerse cv with
    | inr e => inr e
    | inl (chapter, verseRange) =>
        if match verseRange with
           | Some v => (StartVerse v <? 1)%Z
           | None => false
           end
        then
          inr (mkBibleRefError KindInvalidVerse ErrInvalidVerse
                 (Some ("invalid verse number: "
                        +:+ Itoa (match verseRange with
                                  | Some v => StartVerse v
                                  | None => 0
                                  end))) None)
        else
          match BibleRef_Validate
                  {| OSIS := Book_OSIS book; Chapter := chapter;
                     Verse := verseRange |} tbl with
          | Some e => inr e
          | None => inl {| OSIS := Book_OSIS book; Chapter := chapter;
                           Verse := verseRange |}
          end
    end.
Proof.
  intros fields Hlen Htail Hbook. unfold parseRefString.
  fold fields.
  destruct (isEmpty (GoStrings.TrimSpace s)) eqn:He.
  { apply Fields_nil_length in He. fold fields in He. lia. }
  destruct (Nat.ltb_spec (List.length fields) 2); [lia |].
  rewrite Htail. unfold resolveBook in Hbook. rewrite Hbook. reflexivity.
Qed.

(** [parseRefString] when the head resolves to no book. *)
Lemma parseRefString_unresolved `{GoUnicode} (s : string) (tbl : Table)
    (cv : string) :
  let fields := GoStrings.Fields (GoStrings.TrimSpace s) in
  let bookStr := NormalizeAlias (GoStrings.Join (removelast fields) " ") in
  (2 <= List.length fields)%nat ->
  parseTail (List.last fields EmptyString) = inl cv ->
  resolveBook tbl bookStr = None ->
  parseRefString s tbl =
    inr (mkBibleRefError KindUnknownBook ErrInvalidOSISCode
           (Some ("unknown book: " +:+ bookStr)) None).
Proof.
  intros fields bookStr Hlen Htail Hbook. unfold parseRefString.
  fold fields. fold bookStr.
  destruct (isEmpty (GoStrings.TrimSpace s)) eqn:He.
  { apply Fields_nil_length in He. fold fields in He. lia. }
  destruct (Nat.ltb_spec (List.length fields) 2); [lia |].
  rewrite Htail. unfold resolveBook in Hbook. rewrite Hbook. reflexivity.
Qed.

(** What a successful [parseRefString] went through. *)
Lemma parseRefString_inl `{GoUnicode} (s : string) (tbl : Table) (r : BibleRef) :
  parseRefString s tbl = inl r ->
  BibleRef_Validate r tbl = None
  /\ exists cv book,
       let fields := GoStrings.Fields (GoStrings.TrimSpace s) in
       (2 <= List.length fields)%nat
       /\ parseTail (List.last fields EmptyString) = inl cv
       /\ resolveBook tbl (NormalizeAlias (GoStrings.Join (removelast fields) " "))
            = Some book
       /\ parseChapterVerse cv = inl (Chapter r, Verse r)
       /\ OSIS r = Book_OSIS book.
Proof.
  unfold parseRefString, resolveBook.
  destruct (isEmpty (GoStrings.TrimSpace s)); [discriminate |].
  set (fields := GoStrings.Fields (GoStrings.TrimSpace s)).
  destruct (Nat.ltb_spec (List.length fields) 2); [discriminate |].
  destruct (parseTail (List.last fields EmptyString)) as [cv|] eqn:Ht;
    [| discriminate].
  set (bookStr := NormalizeAlias (GoStrings.Join (removelast fields) " ")).
  destruct (ByOsis tbl !! _) as [book|] eqn:Hb; [| discriminate].
  destruct (parseChapterVerse cv) as [[chapter verseRange]|] eqn:Hcv;
    [| discriminate].
  destruct (match verseRange with Some v => _ | None => false end); [discriminate |].
  destruct (BibleRef_Validate _ tbl) eqn:Hv; [discriminate |].
  intros [= <-]. split; [exact Hv |].
  exists cv, book. cbn zeta.
  split; [lia | split; [reflexivity | split; [reflexivity | split; [exact Hcv | reflexivity]]]].
Qed.

Lemma doParse_parseRefString `{GoUnicode} (s : string) (tbl : Table) :
  doParse s tbl = parseRefString s tbl.
Proof.
  unfold doParse. destruct (parseRefString s tbl) as [r|e] eqn:Hp; [| reflexivity].
  apply parseRefString_inl in Hp as [-> _]. reflexivity.
Qed.

Lemma Parse_wrap `{GoUnicode} (s : string) (tbl : Table) :
  Parse s tbl =
    match parseRefString s tbl with
    | inl r => inl r
    | inr e =>
        inr (mkBibleRefError KindParse ErrBibleRefParseFailed
               (Some ("failed to parse reference string: " +:+ s))
               (Some (ErrBibleRef e)))
    end.
Proof.
  unfold Parse. rewrite doParse_parseRefString.
  destruct (parseRefString s tbl); reflexivity.
Qed.

(** The validation that [doParse] runs after [parseRefString] never
    fails: [parseRefString] has validated the reference already.  So
    [doParse] is [parseRefString], and [Parse] returns either its
    reference or its error wrapped as the cause of a [KindParse] error
    that quotes the input. *)
Theorem Parse_is_wrapped_parseRefString `{GoUnicode} (s : string) (tbl : Table) :
  doParse s tbl = parseRefString s tbl
  /\ Parse s tbl =
       match parseRefString s tbl with
       | inl r => inl r
       | inr e =>
           inr (mkBibleRefError KindParse ErrBibleRefParseFailed
                  (Some ("failed to parse reference string: " +:+ s))
                  (Some (ErrBibleRef e)))
       end.
Proof.
  split; [apply doParse_parseRefString | apply Parse_wrap].
Qed.

Lemma Parse_inl `{GoUnicode} (s : string) (tbl : Table) (r : BibleRef) :
  Parse s tbl = inl r -> parseRefString s tbl = inl r.
Proof.
  rewrite Parse_wrap.
  destruct (parseRefString s tbl); [intros [= ->]; reflexivity | discriminate].
Qed.

(** C6, as the code has it.  For a reference whose book is in the table
    with [N] chapters, [Validate] fails with [KindInvalidChapter] exactly
    when the chapter is below 1 or above [N]; the message of that error
    includes the book's display name; with [N = 31], chapters 0 and 32
    fail so, and a chapter-only reference to chapter 31 is valid.
    [Parse] never returns an error of that kind: each of its errors has
    kind [KindParse] and keeps the inner error as [Cause].  For an input
    that reads as the reference, with no verse or a start verse of 1 or
    more, [Parse] returns the reference when [Validate] accepts it and
    else the error of [Validate] as the cause, so that the cause has
    [KindInvalidChapter] exactly when the chapter is out of bounds, and
    a chapter-only input within bounds succeeds.  When the start verse is
    below 1, [Parse] fails with a [KindInvalidVerse] cause before the
    chapter is looked at. *)
Theorem C6_chapter_bounds `{GoUnicode} (r : BibleRef) (tbl : Table) (book : Book) :
  ByOsis tbl !! OSIS r = Some book ->
  ((exists e, BibleRef_Validate r tbl = Some e /\ Kind e = KindInvalidChapter)
   <-> (Chapter r < 1)%Z \/ (Book_Chapters book < Chapter r)%Z)
  /\ (forall e, BibleRef_Validate r tbl = Some e ->
        Kind e = KindInvalidChapter ->
        exists msg, Message e = Some msg /\ includes msg (Book_Name book))
  /\ (Book_Chapters book = 31%Z ->
      (Chapter r = 0%Z \/ Chapter r = 32%Z ->
         exists e, BibleRef_Validate r tbl = Some e
                   /\ Kind e = KindInvalidChapter)
      /\ (Chapter r = 31%Z -> Verse r = None -> BibleRef_Validate r tbl = None))
  /\ (forall s e, Parse s tbl = inr e ->
        Kind e = KindParse /\ exists c, e = parseError s c)
  /\ (forall s, readsAs s tbl r ->
        (forall v, Verse r = Some v -> (1 <= StartVerse v)%Z) ->
        Parse s tbl = match BibleRef_Validate r tbl with
                      | None => inl r
                      | Some e => inr (parseError s e)
                      end
        /\ ((exists c, Parse s tbl = inr (parseError s c)
                       /\ Kind c = KindInvalidChapter)
            <-> (Chapter r < 1)%Z \/ (Book_Chapters book < Chapter r)%Z)
        /\ ((1 <= Chapter r <= Book_Chapters book)%Z -> Verse r = None ->
            Parse s tbl = inl r))
  /\ (forall s v, readsAs s tbl r -> Verse r = Some v -> (StartVerse v < 1)%Z ->
        Parse s tbl =
          inr (parseError s
                 (mkBibleRefError KindInvalidVerse ErrInvalidVerse
                    (Some ("invalid verse number: " +:+ Itoa (StartVerse v)))
                    None))).
Proof.
  intros Hb.
  pose proof (BibleRef_Validate_cases r tbl book Hb) as Hc.
  assert (Hiff : (exists e, BibleRef_Validate r tbl = Some e
                            /\ Kind e = KindInvalidChapter)
                 <-> (Chapter r < 1)%Z \/ (Book_Chapters book < Chapter r)%Z).
  { split.
    - intros (e & He & Hk).
      destruct Hc as [[Hout _] | [Hin Hv]]; [exact Hout | exfalso].
      destruct Hv as [[_ Hv] | [(v & _ & _ & e' & Hv & Hk')
                     | [(v & _ & _ & _ & Hv) | [(v & e' & _ & _ & _ & _ & err & Hv & Hk')
                     | (v & e' & _ & _ & _ & _ & Hv)]]]];
        rewrite Hv in He; try discriminate; injection He as <-; congruence.
    - intros Hout. destruct Hc as [[_ Hv] | [Hin _]]; [| lia].
      eexists. split; [exact Hv | reflexivity]. }
  assert (Hok : (1 <= Chapter r <= Book_Chapters book)%Z -> Verse r = None ->
                BibleRef_Validate r tbl = None).
  { intros Hch Hv. destruct Hc as [[Hout _] | [_ Hcase]]; [lia |].
    destruct Hcase as [[_ Hok] | [(v & Hv' & _) | [(v & Hv' & _)
                      | [(v & e & Hv' & _) | (v & e & Hv' & _)]]]];
      congruence. }
  assert (Hreads : forall s, readsAs s tbl r ->
            parseRefString s tbl =
              if match Verse r with
                 | Some v => (StartVerse v <? 1)%Z
                 | None => false
                 end
              then inr (mkBibleRefError KindInvalidVerse ErrInvalidVerse
                          (Some ("invalid verse number: "
                                 +:+ Itoa (match Verse r with
                                           | Some v => StartVerse v
                                           | None => 0
                                           end))) None)
              else match BibleRef_Validate r tbl with
                   | Some e => inr e
                   | None => inl r
                   end).
  { intros s (Hlen & cv & b0 & Ht & Hres & Hid & Hcv).
    rewrite (parseRefString_resolved s tbl cv b0 Hlen Ht Hres), Hcv, Hid.
    destruct r; reflexivity. }
  split; [exact Hiff |]. split; [| split; [| split; [| split]]].
  - intros e He Hk.
    destruct Hc as [[_ Hv] | [Hin _]].
    + rewrite Hv in He. injection He as <-. simpl. eexists. split; [reflexivity |].
      exists ("invalid chapter number " +:+ Itoa (Chapter r) +:+ " for book "),
        EmptyString.
      rewrite sapp_nil_r, !sapp_assoc. reflexivity.
    + exfalso. assert (Hx : (Chapter r < 1)%Z \/ (Book_Chapters book < Chapter r)%Z)
        by (apply Hiff; eauto). lia.
  - intros HN. split.
    + intros Hch. apply Hiff. lia.
    + intros Hch Hv. apply Hok; [lia | exact Hv].
  - intros s e He. rewrite Parse_wrap in He.
    destruct (parseRefString s tbl) as [r'|c]; [discriminate |].
    injection He as <-. split; [reflexivity | exists c; reflexivity].
  - intros s Hs Hstart.
    assert (Hp : Parse s tbl = match BibleRef_Validate r tbl with
                               | None => inl r
                               | Some e => inr (parseError s e)
                               end).
    { rewrite Parse_wrap, (Hreads s Hs).
      destruct (Verse r) as [v|] eqn:Hv.
      - specialize (Hstart v eq_refl).
        destruct (Z.ltb_spec (StartVerse v) 1); [lia |].
        destruct (BibleRef_Validate r tbl); reflexivity.
      - destruct (BibleRef_Validate r tbl); reflexivity. }
    split; [exact Hp |]. split.
    + rewrite Hp. split.
      * intros (c & Hc' & Hk). apply Hiff.
        destruct (BibleRef_Validate r tbl) as [e|]; [| discriminate].
        injection Hc' as ->. exists c. split; [reflexivity | exact Hk].
      * intros Hout. apply Hiff in Hout as (e & He & Hk).
        rewrite He. exists e. split; [reflexivity | exact Hk].
    + intros Hch Hv. rewrite Hp, (Hok Hch Hv). reflexivity.
  - intros s v Hs Hv Hlt. rewrite Parse_wrap, (Hreads s Hs), Hv.
    destruct (Z.ltb_spec (StartVerse v) 1); [reflexivity | lia].
Qed.

Lemma C6_witness :
  (exists e, BibleRef_Validate (chapterRef "Prov" 32) (tableOf testBooks) = Some e
             /\ Kind e = KindInvalidChapter)
  /\ (exists e, BibleRef_Validate (chapterRef "Prov" 0) (tableOf testBooks) = Some e
                /\ Kind e = KindInvalidChapter)
  /\ BibleRef_Validate (chapterRef "Prov" 31) (tableOf testBooks) = None
  /\ (exists c, Parse "Prov 32" (tableOf testBooks) = inr (parseError "Prov 32" c)
                /\ Kind c = KindInvalidChapter)
  /\ Parse "Prov 31" (tableOf testBooks) = inl (chapterRef "Prov" 31).
Proof.
  assert (Hb : forall ch,
             ByOsis (tableOf testBooks) !! OSIS (chapterRef "Prov" ch)
             = Some proverbs) by (intros ch; vm_compute; reflexivity).
  assert (H32 : readsAs "Prov 32" (tableOf testBooks) (chapterRef "Prov" 32)).
  { split; [vm_compute; lia |]. exists "32", proverbs.
    split; [| split; [| split]]; vm_compute; reflexivity. }
  assert (H31 : readsAs "Prov 31" (tableOf testBooks) (chapterRef "Prov" 31)).
  { split; [vm_compute; lia |]. exists "31", proverbs.
    split; [| split; [| split]]; vm_compute; reflexivity. }
  split; [| split; [| split; [| split]]].
  - apply (proj1 (C6_chapter_bounds (chapterRef "Prov" 32) (tableOf testBooks)
                    proverbs (Hb 32%Z))).
    right. simpl. lia.
  - apply (proj1 (C6_chapter_bounds (chapterRef "Prov" 0) (tableOf testBooks)
                    proverbs (Hb 0%Z))).
    left. simpl. lia.
  - apply (proj1 (proj2 (proj2 (C6_chapter_bounds (chapterRef "Prov" 31)
                                  (tableOf testBooks) proverbs (Hb 31%Z)))));
      reflexivity.
  - destruct (C6_chapter_bounds (chapterRef "Prov" 32) (tableOf testBooks)
                proverbs (Hb 32%Z)) as (_ & _ & _ & _ & HP & _).
    destruct (HP "Prov 32" H32) as (_ & Hiff & _); [intros v; discriminate |].
    apply Hiff. right. simpl. lia.
  - destruct (C6_chapter_bounds (chapterRef "Prov" 31) (tableOf testBooks)
                proverbs (Hb 31%Z)) as (_ & _ & _ & _ & HP & _).
    destruct (HP "Prov 31" H31) as (_ & _ & Hin); [intros v; discriminate |].
    apply Hin; [simpl; lia | reflexivity].
Defined.

(** C6 as stated fails for [Parse]: chapter 32 of a book of 31 chapters
    makes [Parse] fail with an error of kind [KindParse], which has the
    [KindInvalidChapter] error only as its cause; and with a start verse
    of 0 the cause is a [KindInvalidVerse] error, although the chapter is
    out of bounds. *)
Lemma C6_counterexample :
  Parse "Prov 32" (tableOf testBooks) =
    inr (mkBibleRefError KindParse ErrBibleRefParseFailed
           (Some "failed to parse reference string: Prov 32")
           (Some (ErrBibleRef
              (mkBibleRefError KindInvalidChapter ErrInvalidChapter
                 (Some "invalid chapter number 32 for book Proverbs") None))))
  /\ Parse "Prov 32:0" (tableOf testBooks) =
       inr (mkBibleRefError KindParse ErrBibleRefParseFailed
              (Some "failed to parse reference string: Prov 32:0")
              (Some (ErrBibleRef
                 (mkBibleRefError KindInvalidVerse ErrInvalidVerse
                    (Some "invalid verse number: 0") None))))
  /\ KindParse <> KindInvalidChapter
  /\ KindInvalidVerse <> KindInvalidChapter.
Proof.
  split; [| split; [| split]]; try (vm_compute; reflexivity); discriminate.
Qed.

(** The bounds of C6 through the whole parser. *)
Example Parse_chapter_bounds :
  Parse "Prov 31" (tableOf testBooks) = inl (chapterRef "Prov" 31)
  /\ Parse "Prov 32" (tableOf testBooks) =
       inr (mkBibleRefError KindParse ErrBibleRefParseFailed
              (Some "failed to parse reference string: Prov 32")
              (Some (ErrBibleRef
                 (mkBibleRefError KindInvalidChapter ErrInvalidChapter
                    (Some "invalid chapter number 32 for book Proverbs") None))))
  /\ Parse "Prov 0" (tableOf testBooks) =
       inr (mkBibleRefError KindParse ErrBibleRefParseFailed
              (Some "failed to parse reference string: Prov 0")
              (Some (ErrBibleRef
                 (mkBibleRefError KindInvalidChapter ErrInvalidChapter
                    (Some "invalid chapter number 0 for book Proverbs") None)))).
Proof. split; [| split]; vm_compute; reflexivity. Qed.

(** Every reference that [Parse] returns is valid for the table: its book
    is there, its chapter is within the book's bounds, a verse is at least
    1 and a range is not reversed. *)
Theorem Parse_returns_valid `{GoUnicode} (s : string) (tbl : Table) (r : BibleRef) :
  Parse s tbl = inl r ->
  BibleRef_Validate r tbl = None
  /\ exists book,
       ByOsis tbl !! OSIS r = Some book
       /\ (1 <= Chapter r <= Book_Chapters book)%Z
       /\ (forall v, Verse r = Some v ->
             (1 <= StartVerse v)%Z
             /\ forall e, EndVerse v = Some e -> (StartVerse v <= e)%Z).
Proof.
  intros Hp%Parse_inl%parseRefString_inl. destruct Hp as [Hv _].
  split; [exact Hv |].
  apply BibleRef_Validate_ok in Hv as (book & Hb & Hch & Hvs).
  exists book. split; [exact Hb | split; [exact Hch |]].
  intros v Hv. rewrite Hv in Hvs. destruct Hvs as [Hs He].
  split; [exact Hs |]. intros e Hee. rewrite Hee in He. exact He.
Qed.

Lemma Parse_returns_valid_witness :
  BibleRef_Validate (rangeRef "Prov" 31 10 31) (tableOf testBooks) = None
  /\ exists book,
       ByOsis (tableOf testBooks) !! "Prov" = Some book
       /\ (1 <= 31 <= Book_Chapters book)%Z
       /\ (forall v, Some {| StartVerse := 10; EndVerse := Some 31%Z |} = Some v ->
             (1 <= StartVerse v)%Z
             /\ forall e, EndVerse v = Some e -> (StartVerse v <= e)%Z).
Proof.
  apply (Parse_returns_valid "PRO 31:10-31" (tableOf testBooks)
           (rangeRef "Prov" 31 10 31)).
  vm_compute. reflexivity.
Defined.

(** An input with at least two fields whose tail passes [parseTail] and
    whose normalized head is neither a key of [ByAlias] nor an id of
    [ByOsis]: [parseRefString] fails with [KindUnknownBook], which [Parse]
    returns wrapped as the cause of its [KindParse] error. *)
Theorem Parse_unknown_book `{GoUnicode} (s : string) (tbl : Table) (cv : string) :
  let fields := GoStrings.Fields (GoStrings.TrimSpace s) in
  let bookStr := NormalizeAlias (GoStrings.Join (removelast fields) " ") in
  (2 <= List.length fields)%nat ->
  parseTail (List.last fields EmptyString) = inl cv ->
  ByAlias tbl !! bookStr = None -> ByOsis tbl !! bookStr = None ->
  parseRefString s tbl =
    inr (mkBibleRefError KindUnknownBook ErrInvalidOSISCode
           (Some ("unknown book: " +:+ bookStr)) None)
  /\ Parse s tbl =
       inr (mkBibleRefError KindParse ErrBibleRefParseFailed
              (Some ("failed to parse reference string: " +:+ s))
              (Some (ErrBibleRef
                 (mkBibleRefError KindUnknownBook ErrInvalidOSISCode
                    (Some ("unknown book: " +:+ bookStr)) None)))).
Proof.
  intros fields bookStr Hlen Htail Ha Ho.
  assert (Hp : parseRefString s tbl =
               inr (mkBibleRefError KindUnknownBook ErrInvalidOSISCode
                      (Some ("unknown book: " +:+ bookStr)) None)).
  { apply (parseRefString_unresolved s tbl cv Hlen Htail).
    unfold resolveBook. fold fields. fold bookStr. rewrite Ha. exact Ho. }
  split; [exact Hp |].
  rewrite Parse_wrap, Hp. reflexivity.
Qed.

Lemma Parse_unknown_book_witness :
  parseRefString "Unknown 1:1" (tableOf testBooks) =
    inr (mkBibleRefError KindUnknownBook ErrInvalidOSISCode
           (Some "unknown book: unknown") None)
  /\ Parse "Unknown 1:1" (tableOf testBooks) =
       inr (mkBibleRefError KindParse ErrBibleRefParseFailed
              (Some "failed to parse reference string: Unknown 1:1")
              (Some (ErrBibleRef
                 (mkBibleRefError KindUnknownBook ErrInvalidOSISCode
                    (Some "unknown book: unknown") None)))).
Proof.
  apply (Parse_unknown_book "Unknown 1:1" (tableOf testBooks) "1:1");
    vm_compute; first [reflexivity | apply le_n].
Defined.

(** ** Numbers: [Atoi] and [Itoa] *)

Lemma maxUint64_val : maxUint64 = 18446744073709551615%Z.
Proof. reflexivity. Qed.

Lemma maxInt_val : maxInt = 9223372036854775807%Z.
Proof. reflexivity. Qed.

Lemma minInt_val : minInt = (-9223372036854775808)%Z.
Proof. reflexivity. Qed.

Lemma decimalValue_ge (s : string) (n : Z) :
  allBytes isDigit s = true -> (0 <= n)%Z -> (n <= decimalValue n s)%Z.
Proof.
  revert n. induction s as [|c r IH]; intros n Hd Hn; simpl in *; [lia |].
  apply andb_true_iff in Hd as [Hc Hr].
  pose proof (digitVal_range c Hc).
  specialize (IH (n * 10 + digitVal c)%Z Hr). lia.
Qed.

Lemma decimalValue_app (a b : string) (n : Z) :
  decimalValue n (a +:+ b) = decimalValue (decimalValue n a) b.
Proof.
  revert n. induction a as [|c a IH]; intros n; [reflexivity |].
  rewrite sapp_cons. simpl. apply IH.
Qed.

Lemma parseUintLoop_digits (s : string) (n : Z) :
  allBytes isDigit s = true -> (0 <= n <= maxUint64)%Z ->
  parseUintLoop n s =
    if (decimalValue n s <=? maxUint64)%Z then inl (decimalValue n s)
    else inr ErrRange.
Proof.
  revert n. induction s as [|c r IH]; intros n Hd Hn.
  - simpl. destruct (Z.leb_spec n maxUint64); [reflexivity | lia].
  - simpl in Hd. apply andb_true_iff in Hd as [Hc Hr].
    pose proof (digitVal_range c Hc) as Hv.
    pose proof (decimalValue_ge r (n * 10 + digitVal c)%Z Hr) as Hge.
    cbn [parseUintLoop decimalValue]. rewrite Hc. cbn [negb].
    rewrite maxUint64_val in *.
    change (18446744073709551615 / 10 + 1)%Z with 1844674407370955162%Z.
    destruct (Z.leb_spec 1844674407370955162 n).
    { destruct (Z.leb_spec (decimalValue (n * 10 + digitVal c) r)
                  18446744073709551615); [lia | reflexivity]. }
    cbv zeta.
    destruct (Z.ltb_spec 18446744073709551615 (n * 10 + digitVal c)).
    { destruct (Z.leb_spec (decimalValue (n * 10 + digitVal c) r)
                  18446744073709551615); [lia | reflexivity]. }
    apply IH; [exact Hr | lia].
Qed.

Lemma parseUintLoop_nonneg (s : string) (n un : Z) :
  (0 <= n)%Z -> parseUintLoop n s = inl un -> (0 <= un)%Z.
Proof.
  revert n. induction s as [|c r IH]; intros n Hn; simpl.
  - intros [= <-]. exact Hn.
  - destruct (isDigit c) eqn:Hc; [| discriminate]. cbn [negb].
    destruct (_ <=? n)%Z; [discriminate |].
    destruct (_ <? _)%Z; [discriminate |].
    apply IH. pose proof (digitVal_range c Hc). lia.
Qed.

Lemma isDigits_cons (s : string) :
  isDigits s = true ->
  exists c r, s = String c r /\ isDigit c = true /\ allBytes isDigit r = true.
Proof.
  unfold isDigits. destruct s as [|c r]; [discriminate |]. simpl.
  intros [Hc Hr]%andb_true_iff. eauto.
Qed.

Lemma isDigits_all (s : string) : isDigits s = true -> allBytes isDigit s = true.
Proof. unfold isDigits. intros [_ H]%andb_true_iff. exact H. Qed.

Lemma isDigits_nonempty (s : string) : isDigits s = true -> s <> EmptyString.
Proof. unfold isDigits. destruct s; [discriminate | congruence]. Qed.

(** [Atoi] on a non-empty string of digits: its value, unless that
    exceeds the largest [int]. *)
Lemma Atoi_digits (s : string) :
  isDigits s = true ->
  Atoi s =
    if (decimalValue 0 s <=? maxInt)%Z then inl (decimalValue 0 s)
    else inr {| Func := "Atoi"; Num := s; NumErr := ErrRange |}.
Proof.
  intros Hs. pose proof (isDigits_all s Hs) as Hall.
  destruct (isDigits_cons s Hs) as (c & r & -> & Hc & Hr).
  unfold Atoi.
  rewrite (digit_neq c 43 Hc), (digit_neq c 45 Hc) by lia. cbn [orb].
  rewrite parseUintLoop_digits by (rewrite ?maxUint64_val; first [exact Hall | lia]).
  rewrite maxUint64_val, maxInt_val.
  destruct (Z.leb_spec (decimalValue 0 (String c r)) 18446744073709551615).
  - cbn [negb andb].
    destruct (Z.ltb_spec 9223372036854775807 (decimalValue 0 (String c r)));
      destruct (Z.leb_spec (decimalValue 0 (String c r)) 9223372036854775807);
      try lia; reflexivity.
  - destruct (Z.leb_spec (decimalValue 0 (String c r)) 9223372036854775807);
      [lia | reflexivity].
Qed.

Lemma Atoi_range (s : string) (v : Z) :
  Atoi s = inl v -> (minInt <= v <= maxInt)%Z.
Proof.
  unfold Atoi. destruct s as [|c0 r0]; [discriminate |].
  set (body := if eqByte c0 43 || eqByte c0 45 then r0 else String c0 r0).
  destruct body as [|b0 br] eqn:Hbody; [discriminate |].
  destruct (parseUintLoop 0 (String b0 br)) as [un|[]] eqn:Hu; try discriminate.
  apply parseUintLoop_nonneg in Hu; [| lia].
  rewrite maxInt_val, minInt_val.
  destruct (eqByte c0 45); cbn [negb andb].
  - destruct (Z.ltb_spec (9223372036854775807 + 1) un); [discriminate |].
    intros [= <-]. lia.
  - destruct (Z.ltb_spec 9223372036854775807 un); [discriminate |].
    intros [= <-]. lia.
Qed.

Lemma byteVal_ascii_of_N (n : N) : (n < 256)%N -> byteVal (ascii_of_N n) = n.
Proof. apply N_ascii_embedding. Qed.

Lemma digitChar_digit (d : Z) :
  (0 <= d <= 9)%Z -> isDigit (digitChar d) = true /\ digitVal (digitChar d) = d.
Proof.
  intros Hd. unfold isDigit, digitVal, digitChar.
  rewrite byteVal_ascii_of_N by lia.
  split; [| lia].
  apply andb_true_iff. split; apply N.leb_le; lia.
Qed.

Lemma formatBits_acc (fuel : nat) (n : Z) (acc : string) :
  formatBits fuel n acc = formatBits fuel n EmptyString +:+ acc.
Proof.
  revert n acc. induction fuel as [|f IH]; intros n acc; [reflexivity |].
  cbn [formatBits]. destruct (n <? 10)%Z; [reflexivity |].
  rewrite IH, (IH _ (String _ EmptyString)), sapp_assoc. reflexivity.
Qed.

Lemma formatBits_S (fuel : nat) (n : Z) (acc : string) :
  formatBits (S fuel) n acc =
    if (n <? 10)%Z then String (digitChar (n mod 10)) acc
    else formatBits fuel (n / 10) (String (digitChar (n mod 10)) acc).
Proof. reflexivity. Qed.

Lemma formatBits_digits (fuel : nat) (n : Z) :
  (0 <= n < 2 ^ Z.of_nat (S fuel))%Z ->
  isDigits (formatBits (S fuel) n EmptyString) = true
  /\ decimalValue 0 (formatBits (S fuel) n EmptyString) = n.
Proof.
  revert n. induction fuel as [|f IH]; intros n Hn;
    rewrite formatBits_S;
    assert (Hmod : (0 <= n mod 10 <= 9)%Z)
      by (pose proof (Z.mod_pos_bound n 10); lia);
    destruct (digitChar_digit _ Hmod) as [Hdig Hval];
    (destruct (Z.ltb_spec n 10) as [Hlt|Hge];
     [ unfold isDigits; cbn [isEmpty negb allBytes decimalValue andb];
       rewrite Hdig, Hval; split; [reflexivity |];
       rewrite Z.mod_small by lia; lia | ]).
  - change (2 ^ Z.of_nat 1)%Z with 2%Z in Hn. lia.
  - rewrite formatBits_acc.
    assert (Hdiv : (0 <= n / 10 < 2 ^ Z.of_nat (S f))%Z).
    { rewrite (Nat2Z.inj_succ (S f)), Z.pow_succ_r in Hn by lia.
      split; [apply Z.div_pos; lia |].
      apply Z.div_lt_upper_bound; lia. }
    destruct (IH _ Hdiv) as [Hd Hv].
    split.
    + unfold isDigits in *. apply andb_true_iff in Hd as [Hne Hall].
      rewrite allBytes_app, Hall. cbn [allBytes]. rewrite Hdig.
      destruct (formatBits (S f) (n / 10) EmptyString); [discriminate | reflexivity].
    + rewrite decimalValue_app, Hv. cbn [decimalValue]. rewrite Hval.
      pose proof (Z.div_mod n 10). lia.
Qed.

Lemma utoa_digits (n : Z) :
  (0 <= n)%Z -> isDigits (utoa n) = true /\ decimalValue 0 (utoa n) = n.
Proof.
  intros Hn. unfold utoa. apply formatBits_digits.
  split; [exact Hn |].
  destruct (Z.eq_dec n 0%Z) as [->|Hne]; [reflexivity |].
  rewrite Nat2Z.inj_succ, Z2Nat.id by apply Z.log2_nonneg.
  apply Z.log2_spec. lia.
Qed.

Lemma Itoa_nonneg (n : Z) : (0 <= n)%Z -> Itoa n = utoa n.
Proof. intros Hn. unfold Itoa. destruct (Z.ltb_spec n 0); [lia | reflexivity]. Qed.

(** [Atoi] reads back what [Itoa] writes for a natural number that fits
    [int]. *)
Lemma Atoi_Itoa (n : Z) : (0 <= n <= maxInt)%Z -> Atoi (Itoa n) = inl n.
Proof.
  intros Hn. rewrite Itoa_nonneg by lia.
  destruct (utoa_digits n) as [Hd Hv]; [lia |].
  rewrite Atoi_digits by exact Hd. rewrite Hv.
  destruct (Z.leb_spec n maxInt); [reflexivity | lia].
Qed.

(** ** Searching and replacing: [Split], [Contains], [ReplaceAll] *)

Lemma digit_avoids (a : ascii) (s : string) :
  isDigit a = false -> allBytes isDigit s = true -> avoids a s = true.
Proof.
  intros Ha. apply allBytes_impl. intros c Hc.
  apply negb_true_iff, Ascii.eqb_neq. intros ->. congruence.
Qed.

Lemma avoids_app (a : ascii) (x y : string) :
  avoids a (x +:+ y) = avoids a x && avoids a y.
Proof. apply allBytes_app. Qed.

Lemma avoids_cons (a c : ascii) (s : string) :
  avoids a (String c s) = true -> c <> a /\ avoids a s = true.
Proof.
  unfold avoids. simpl. intros [Hc Hs]%andb_true_iff.
  split; [apply Ascii.eqb_neq, negb_true_iff, Hc | exact Hs].
Qed.

Lemma HasPrefix_first_ne (c a : ascii) (r p : string) :
  c <> a -> GoStrings.HasPrefix (String c r) (String a p) = false.
Proof.
  intros Hne. unfold GoStrings.HasPrefix. simpl.
  destruct (ascii_dec a c); [congruence | reflexivity].
Qed.

Lemma HasPrefix_app (p r : string) : GoStrings.HasPrefix (p +:+ r) p = true.
Proof.
  unfold GoStrings.HasPrefix. induction p as [|a p IH]; [destruct r; reflexivity |].
  rewrite sapp_cons. simpl. destruct (ascii_dec a a); [exact IH | congruence].
Qed.

Lemma splitAux_skip (sep cur q rest : string) :
  GoStrings.splitAux (String.length q) sep cur (q +:+ rest)
  = GoStrings.splitAux 0 sep cur rest.
Proof.
  induction q as [|c q IH]; [reflexivity |]. rewrite sapp_cons. exact IH.
Qed.

Lemma splitAux_none (a : ascii) (p s cur : string) :
  avoids a s = true ->
  GoStrings.splitAux 0 (String a p) cur s = [cur +:+ s].
Proof.
  revert cur. induction s as [|c s IH]; intros cur Hs.
  - rewrite sapp_nil_r. reflexivity.
  - apply avoids_cons in Hs as [Hc Hs]. cbn [GoStrings.splitAux].
    rewrite HasPrefix_first_ne by exact Hc. rewrite IH by exact Hs.
    unfold str1. rewrite sapp_assoc. reflexivity.
Qed.

Lemma splitAux_sep (a : ascii) (p x rest cur : string) :
  avoids a x = true ->
  GoStrings.splitAux 0 (String a p) cur (x +:+ String a p +:+ rest)
  = (cur +:+ x) :: GoStrings.splitAux 0 (String a p) EmptyString rest.
Proof.
  revert cur. induction x as [|c x IH]; intros cur Hx.
  - rewrite sapp_nil_l, sapp_nil_r.
    pose proof (HasPrefix_app (String a p) rest) as Hp.
    rewrite sapp_cons in *. cbn [GoStrings.splitAux]. rewrite Hp.
    replace (String.length (String a p) - 1)%nat with (String.length p)
      by (cbn [String.length]; lia).
    rewrite splitAux_skip. reflexivity.
  - apply avoids_cons in Hx as [Hc Hx]. rewrite sapp_cons.
    cbn [GoStrings.splitAux]. rewrite HasPrefix_first_ne by exact Hc.
    rewrite IH by exact Hx. unfold str1. rewrite sapp_assoc. reflexivity.
Qed.

Lemma Split_none (a : ascii) (p s : string) :
  avoids a s = true -> GoStrings.Split s (String a p) = [s].
Proof. intros Hs. unfold GoStrings.Split. rewrite splitAux_none by exact Hs. reflexivity. Qed.

Lemma Split_once (a : ascii) (p x y : string) :
  avoids a x = true -> avoids a y = true ->
  GoStrings.Split (x +:+ String a p +:+ y) (String a p) = [x; y].
Proof.
  intros Hx Hy. unfold GoStrings.Split.
  rewrite splitAux_sep by exact Hx. rewrite splitAux_none by exact Hy. reflexivity.
Qed.

Lemma Contains_none (a : ascii) (p s : string) :
  avoids a s = true -> GoStrings.Contains s (String a p) = false.
Proof.
  induction s as [|c s IH]; intros Hs; [reflexivity |].
  apply avoids_cons in Hs as [Hc Hs]. cbn [GoStrings.Contains].
  rewrite HasPrefix_first_ne by exact Hc. rewrite IH by exact Hs. reflexivity.
Qed.

Lemma Contains_app (x sub y : string) :
  GoStrings.Contains (x +:+ sub +:+ y) sub = true.
Proof.
  induction x as [|c x IH].
  - rewrite sapp_nil_l. destruct (sub +:+ y) eqn:E;
      cbn [GoStrings.Contains]; rewrite <- E, HasPrefix_app; reflexivity.
  - rewrite sapp_cons. cbn [GoStrings.Contains]. rewrite IH. apply orb_true_r.
Qed.

Lemma replaceAux_none (a : ascii) (p new s : string) :
  avoids a s = true -> GoStrings.replaceAux 0 (String a p) new s = s.
Proof.
  induction s as [|c s IH]; intros Hs; [reflexivity |].
  apply avoids_cons in Hs as [Hc Hs]. cbn [GoStrings.replaceAux].
  rewrite HasPrefix_first_ne by exact Hc. rewrite IH by exact Hs. reflexivity.
Qed.

Lemma replaceAux_app_avoid (a : ascii) (p new x y : string) :
  avoids a x = true ->
  GoStrings.replaceAux 0 (String a p) new (x +:+ y)
  = x +:+ GoStrings.replaceAux 0 (String a p) new y.
Proof.
  induction x as [|c x IH]; intros Hx; [reflexivity |].
  apply avoids_cons in Hx as [Hc Hx]. rewrite !sapp_cons.
  cbn [GoStrings.replaceAux]. rewrite HasPrefix_first_ne by exact Hc.
  rewrite IH by exact Hx. reflexivity.
Qed.

Lemma ReplaceAll_none (a : ascii) (p new s : string) :
  avoids a s = true -> GoStrings.ReplaceAll s (String a p) new = s.
Proof. apply replaceAux_none. Qed.

(** Replacing a one-byte [old]: the byte is gone from the result unless
    [new] brings it back; bytes that the string and [new] avoid stay
    avoided. *)
Lemma replaceAux_byte_avoids (a b : ascii) (new s : string) :
  avoids b new = true -> (a = b \/ avoids b s = true) ->
  avoids b (GoStrings.replaceAux 0 (str1 a) new s) = true.
Proof.
  intros Hnew. induction s as [|c s IH]; intros Hs; [reflexivity |].
  cbn [GoStrings.replaceAux]. unfold str1, GoStrings.HasPrefix. simpl String.prefix.
  destruct (ascii_dec a c) as [<-|Hne].
  - assert (Hp : String.prefix EmptyString s = true) by (destruct s; reflexivity).
    rewrite Hp. cbn [String.length Nat.sub]. rewrite avoids_app, Hnew.
    apply IH. destruct Hs as [Hs|Hs]; [left; exact Hs |].
    right. apply avoids_cons in Hs. tauto.
  - unfold avoids. cbn [allBytes]. fold (avoids b (GoStrings.replaceAux 0 (String a EmptyString) new s)).
    apply andb_true_iff. split.
    + apply negb_true_iff, Ascii.eqb_neq.
      destruct Hs as [<-|Hs]; [congruence | apply avoids_cons in Hs; tauto].
    + apply IH. destruct Hs as [Hs|Hs]; [left; exact Hs |].
      right. apply avoids_cons in Hs. tauto.
Qed.

(** ** [NormalizeVerseRange] *)

Lemma ReplaceAll_byte (s new : string) (a : ascii) :
  GoStrings.ReplaceAll s (str1 a) new = GoStrings.replaceAux 0 (str1 a) new s.
Proof. reflexivity. Qed.

Lemma HasPrefix_byte (c a : ascii) (r : string) :
  GoStrings.HasPrefix (String c r) (str1 a) = Ascii.eqb c a.
Proof.
  unfold GoStrings.HasPrefix, str1. simpl String.prefix.
  destruct (ascii_dec a c) as [->|Hne].
  - rewrite Ascii.eqb_refl. destruct r; reflexivity.
  - symmetry. apply Ascii.eqb_neq. congruence.
Qed.

Lemma replaceAux_hyphens_spaces (t : string) :
  GoStrings.replaceAux 0 (str1 " ") EmptyString
    (GoStrings.replaceAux 0 (str1 "-") EnDash t)
  = hyphensToEnDash t.
Proof.
  induction t as [|c t IH]; [reflexivity |].
  cbn [hyphensToEnDash GoStrings.replaceAux]. rewrite HasPrefix_byte.
  change (String.length (str1 "-") - 1)%nat with 0%nat.
  destruct (Ascii.eqb c "-").
  - change (str1 " ") with (String " " EmptyString).
    rewrite (replaceAux_app_avoid " "%char EmptyString EmptyString EnDash _ eq_refl).
    change (String " " EmptyString) with (str1 " "). rewrite IH. reflexivity.
  - cbn [GoStrings.replaceAux]. rewrite HasPrefix_byte.
    change (String.length (str1 " ") - 1)%nat with 0%nat.
    destruct (Ascii.eqb c " ").
    + rewrite sapp_nil_l. exact IH.
    + f_equal. exact IH.
Qed.

(** [NormalizeVerseRange] trims the white space off both ends, then turns
    every ASCII hyphen into [util.EnDash] and drops every ASCII space,
    keeping the other bytes in place; so its result holds neither an
    ASCII hyphen nor an ASCII space, whatever the input. *)
Theorem NormalizeVerseRange_hyphens_and_spaces (s : string) :
  NormalizeVerseRange s = hyphensToEnDash (GoStrings.TrimSpace s)
  /\ avoids "-" (NormalizeVerseRange s) = true
  /\ avoids " " (NormalizeVerseRange s) = true.
Proof.
  split.
  - unfold NormalizeVerseRange, Hyphen.
    change " " with (str1 " "). change "-" with (str1 "-").
    rewrite !ReplaceAll_byte. apply replaceAux_hyphens_spaces.
  - unfold NormalizeVerseRange, Hyphen.
    change " " with (str1 " "). change "-" with (str1 "-").
    rewrite !ReplaceAll_byte. split.
    + apply replaceAux_byte_avoids; [reflexivity |]. right.
      apply replaceAux_byte_avoids; [reflexivity | left; reflexivity].
    + apply replaceAux_byte_avoids; [reflexivity | left; reflexivity].
Qed.

Lemma TrimSpace_digit_ends (s r' : string) (c c' : ascii) (r : string) :
  s = String c r -> isDigit c = true ->
  revString s = String c' r' -> isDigit c' = true ->
  GoStrings.TrimSpace s = s.
Proof.
  intros -> Hc Hr Hc'. unfold GoStrings.TrimSpace, GoStrings.TrimLeftSpace.
  cbn [GoStrings.trimLeftAux].
  rewrite spaceWidth_nonstart by (apply digit_not_spaceStart, Hc).
  apply (TrimRightSpace_digit_end _ _ _ Hr Hc').
Qed.

(** A string that starts and ends with a digit and holds neither hyphen
    nor space is its own normal form. *)
Lemma NormalizeVerseRange_id (s : string) :
  (exists c r, s = String c r /\ isDigit c = true) ->
  (exists c' r', revString s = String c' r' /\ isDigit c' = true) ->
  avoids "-" s = true -> avoids " " s = true ->
  NormalizeVerseRange s = s.
Proof.
  intros (c & r & Hs & Hc) (c' & r' & Hr & Hc') Hh Hsp.
  unfold NormalizeVerseRange, Hyphen.
  rewrite (TrimSpace_digit_ends s r' c c' r Hs Hc Hr Hc').
  rewrite (ReplaceAll_none "-"%char EmptyString EnDash s Hh).
  apply ReplaceAll_none, Hsp.
Qed.

Lemma isDigits_first (d rest : string) :
  isDigits d = true -> exists c r, d +:+ rest = String c r /\ isDigit c = true.
Proof.
  intros (c & r & -> & Hc & _)%isDigits_cons. rewrite sapp_cons. eauto.
Qed.

Lemma isDigits_last (x d : string) :
  isDigits d = true ->
  exists c' r', revString (x +:+ d) = String c' r' /\ isDigit c' = true.
Proof.
  intros Hd. rewrite revString_app.
  destruct (allBytes_last isDigit d (isDigits_all d Hd) (isDigits_nonempty d Hd))
    as (c' & r' & -> & Hc').
  rewrite sapp_cons. eauto.
Qed.

Lemma avoids_EnDash_parts (a : ascii) (d2 d3 : string) :
  isDigit a = false -> avoids a EnDash = true ->
  isDigits d2 = true -> isDigits d3 = true ->
  avoids a (d2 +:+ EnDash +:+ d3) = true.
Proof.
  intros Ha He H2 H3. rewrite !avoids_app, He.
  rewrite !digit_avoids by (first [exact Ha | apply isDigits_all; assumption]).
  reflexivity.
Qed.

(** A single verse [d] is left as it is; a range written with a hyphen
    or with [util.EnDash] comes out with [util.EnDash]. *)
Lemma NormalizeVerseRange_single (d : string) :
  isDigits d = true -> NormalizeVerseRange d = d.
Proof.
  intros Hd. apply NormalizeVerseRange_id.
  - rewrite <- (sapp_nil_r d). apply isDigits_first, Hd.
  - apply (isDigits_last EmptyString d Hd).
  - apply digit_avoids; [reflexivity | apply isDigits_all, Hd].
  - apply digit_avoids; [reflexivity | apply isDigits_all, Hd].
Qed.

Lemma NormalizeVerseRange_EnDash (d2 d3 : string) :
  isDigits d2 = true -> isDigits d3 = true ->
  NormalizeVerseRange (d2 +:+ EnDash +:+ d3) = d2 +:+ EnDash +:+ d3.
Proof.
  intros H2 H3. apply NormalizeVerseRange_id.
  - apply isDigits_first, H2.
  - rewrite <- sapp_assoc. apply isDigits_last, H3.
  - apply avoids_EnDash_parts; auto.
  - apply avoids_EnDash_parts; auto.
Qed.

Lemma NormalizeVerseRange_hyphen (d2 d3 : string) :
  isDigits d2 = true -> isDigits d3 = true ->
  NormalizeVerseRange (d2 +:+ "-" +:+ d3) = d2 +:+ EnDash +:+ d3.
Proof.
  intros H2 H3. unfold NormalizeVerseRange, Hyphen.
  destruct (isDigits_first d2 ("-" +:+ d3) H2) as (c & r & Hs & Hc).
  destruct (isDigits_last (d2 +:+ "-") d3 H3) as (c' & r' & Hr & Hc').
  rewrite sapp_assoc in Hr.
  rewrite (TrimSpace_digit_ends _ r' c c' r Hs Hc Hr Hc').
  unfold GoStrings.ReplaceAll at 2.
  rewrite replaceAux_app_avoid
    by (apply digit_avoids; [reflexivity | apply isDigits_all, H2]).
  change ("-" +:+ d3) with (String "-" d3). cbn [GoStrings.replaceAux].
  assert (Hp : GoStrings.HasPrefix (String "-" d3) "-" = true)
    by (unfold GoStrings.HasPrefix; simpl; destruct d3; reflexivity).
  rewrite Hp. cbn [String.length Nat.sub].
  rewrite replaceAux_none
    by (apply digit_avoids; [reflexivity | apply isDigits_all, H3]).
  apply ReplaceAll_none. apply avoids_EnDash_parts; auto.
Qed.

(** ** [parseTail] *)

Lemma digitPrefixLen_app (d rest : string) :
  allBytes isDigit d = true ->
  digitPrefixLen (d +:+ rest) = (String.length d + digitPrefixLen rest)%nat.
Proof.
  induction d as [|c d IH]; intros Hd; [reflexivity |].
  simpl in Hd. apply andb_true_iff in Hd as [Hc Hd].
  rewrite sapp_cons. cbn [digitPrefixLen String.length]. rewrite Hc.
  rewrite IH by exact Hd. reflexivity.
Qed.

(** Every string splits into its leading digits and a rest that does not
    start with a digit. *)
Lemma digitPrefix_split (t : string) :
  exists d rest, t = d +:+ rest /\ allBytes isDigit d = true
                 /\ digitPrefixLen rest = 0%nat.
Proof.
  induction t as [|c t (d & rest & -> & Hd & Hr)].
  - exists EmptyString, EmptyString. repeat split.
  - destruct (isDigit c) eqn:Hc.
    + exists (String c d), rest. rewrite sapp_cons. split; [reflexivity |].
      split; [simpl; rewrite Hc, Hd; reflexivity | exact Hr].
    + exists EmptyString, (String c (d +:+ rest)). split; [reflexivity |].
      split; [reflexivity | simpl; rewrite Hc; reflexivity].
Qed.

(** [parseTail] on leading digits [d] followed by a [rest] that does not
    start with a digit. *)
Lemma parseTail_shape (d rest : string) :
  isDigits d = true -> digitPrefixLen rest = 0%nat ->
  parseTail (d +:+ rest) =
    match rest with
    | EmptyString => inl d
    | String ci versesPart =>
        if negb (eqByte ci 58) then
          inr (mkBibleRefError KindParse ErrBibleRefParseFailed
                 (Some ("expected ':' after chapter, got: "
                        +:+ sprintChar ci +:+ " at position "
                        +:+ Itoa (Z.of_nat (String.length d)))) None)
        else if isEmpty versesPart then
          inr (mkBibleRefError KindInvalidVerse ErrInvalidVerse
                 (Some "verse part cannot be empty after ':'") None)
        else inl (d +:+ ":" +:+ NormalizeVerseRange versesPart)
    end.
Proof.
  intros Hd Hrest.
  destruct (isDigits_cons d Hd) as (c0 & r0 & Hd0 & Hc0 & _).
  pose proof (isDigits_all d Hd) as Hall.
  unfold parseTail.
  rewrite (digitPrefixLen_app d rest Hall), Hrest, Nat.add_0_r.
  rewrite sliceFrom_app, sliceTo_app.
  rewrite Hd0 at 1. rewrite sapp_cons. rewrite Hc0. cbn [negb].
  destruct rest; [rewrite sapp_nil_r; subst d; reflexivity | reflexivity].
Qed.

Lemma eqByte_58 (c : ascii) : eqByte c 58 = true -> c = ":"%char.
Proof. apply eqByte_true. Qed.

Lemma parseTail_digits (d : string) : isDigits d = true -> parseTail d = inl d.
Proof.
  intros Hd. rewrite <- (sapp_nil_r d) at 1. rewrite parseTail_shape; auto.
Qed.

Lemma parseTail_colon (d v : string) :
  isDigits d = true -> v <> EmptyString ->
  parseTail (d +:+ ":" +:+ v) = inl (d +:+ ":" +:+ NormalizeVerseRange v).
Proof.
  intros Hd Hv. change (":" +:+ v) with (String ":" v).
  rewrite parseTail_shape by (first [exact Hd | reflexivity]).
  change (eqByte ":" 58) with true. cbn [negb].
  destruct v; [congruence | reflexivity].
Qed.

(** [parseTail] accepts exactly a chapter of one or more digits, alone
    or followed by a colon and a non-empty verse segment; it returns the
    chapter alone as it is, and otherwise the chapter, the colon and the
    normalized verse segment. *)
Theorem parseTail_accepts_iff (t t' : string) :
  parseTail t = inl t'
  <-> exists d, isDigits d = true
        /\ ((t = d /\ t' = d)
            \/ exists v, v <> EmptyString /\ t = d +:+ ":" +:+ v
                 /\ t' = d +:+ ":" +:+ NormalizeVerseRange v).
Proof.
  split.
  - intros Hp.
    destruct (digitPrefix_split t) as (d & rest & -> & Hall & Hrest).
    assert (Hd : isDigits d = true).
    { unfold isDigits. rewrite Hall, andb_true_r.
      destruct d as [|c d]; [| reflexivity].
      rewrite sapp_nil_l in Hp. unfold parseTail in Hp.
      destruct rest as [|c r]; [discriminate |].
      simpl in Hrest. destruct (isDigit c); [discriminate |].
      cbn [negb] in Hp. discriminate. }
    exists d. split; [exact Hd |].
    rewrite (parseTail_shape d rest Hd Hrest) in Hp.
    destruct rest as [|ci vp].
    + injection Hp as <-. left. rewrite sapp_nil_r. split; reflexivity.
    + destruct (eqByte ci 58) eqn:Hci; cbn [negb] in Hp; [| discriminate].
      destruct (isEmpty vp) eqn:Hvp; [discriminate |]. injection Hp as <-.
      right. exists vp. apply eqByte_58 in Hci as ->.
      split; [intros ->; discriminate | split; reflexivity].
  - intros (d & Hd & [[-> ->] | (v & Hv & -> & ->)]).
    + apply parseTail_digits, Hd.
    + apply parseTail_colon; assumption.
Qed.

(** The errors of [parseTail]: [KindParse] for the empty tail,
    [KindInvalidChapter] when the first byte is no digit, [KindParse] when
    the digits are followed by anything but a colon, [KindInvalidVerse]
    when nothing follows the colon. *)
Theorem parseTail_errors :
  parseTail EmptyString =
    inr (mkBibleRefError KindParse ErrBibleRefParseFailed
           (Some "tail cannot be empty") None)
  /\ (forall c r, isDigit c = false ->
        parseTail (String c r) =
          inr (mkBibleRefError KindInvalidChapter ErrInvalidChapter
                 (Some ("tail must start with a digit, got: " +:+ String c r))
                 None))
  /\ (forall d c r, isDigits d = true -> isDigit c = false -> c <> ":"%char ->
        parseTail (d +:+ String c r) =
          inr (mkBibleRefError KindParse ErrBibleRefParseFailed
                 (Some ("expected ':' after chapter, got: "
                        +:+ sprintChar c +:+ " at position "
                        +:+ Itoa (Z.of_nat (String.length d)))) None))
  /\ (forall d, isDigits d = true ->
        parseTail (d +:+ ":") =
          inr (mkBibleRefError KindInvalidVerse ErrInvalidVerse
                 (Some "verse part cannot be empty after ':'") None)).
Proof.
  split; [reflexivity |]. split; [| split].
  - intros c r Hc. unfold parseTail. rewrite Hc. reflexivity.
  - intros d c r Hd Hc Hne.
    rewrite parseTail_shape by (first [exact Hd | simpl; rewrite Hc; reflexivity]).
    destruct (eqByte c 58) eqn:E; [apply eqByte_58 in E; congruence | reflexivity].
  - intros d Hd. change ":" with (String ":" EmptyString) at 1.
    rewrite parseTail_shape by (first [exact Hd | reflexivity]). reflexivity.
Qed.

(** ** [parseChapterVerse] *)

Lemma EnDash_cons :
  exists a p, EnDash = String a p /\ isDigit a = false.
Proof. eexists. eexists. split; reflexivity. Qed.

Lemma Split_colon_one (d : string) :
  isDigits d = true -> GoStrings.Split d ":" = [d].
Proof.
  intros Hd. apply (Split_none ":" EmptyString).
  apply digit_avoids; [reflexivity | apply isDigits_all, Hd].
Qed.

Lemma Split_colon_two (d v : string) :
  isDigits d = true -> avoids ":" v = true ->
  GoStrings.Split (d +:+ ":" +:+ v) ":" = [d; v].
Proof.
  intros Hd Hv. apply (Split_once ":" EmptyString); [| exact Hv].
  apply digit_avoids; [reflexivity | apply isDigits_all, Hd].
Qed.

(** A chapter alone: its value, unless that exceeds the largest [int]. *)
Lemma parseChapterVerse_chapter (d : string) :
  isDigits d = true ->
  parseChapterVerse d =
    if (decimalValue 0 d <=? maxInt)%Z then inl (decimalValue 0 d, None)
    else inr (mkBibleRefError KindInvalidChapter ErrInvalidChapter
                (Some ("invalid chapter: " +:+ d))
                (Some (ErrNum {| Func := "Atoi"; Num := d; NumErr := ErrRange |}))).
Proof.
  intros Hd. unfold parseChapterVerse. rewrite Split_colon_one by exact Hd.
  cbn [List.length Nat.ltb Nat.leb]. rewrite Atoi_digits by exact Hd.
  destruct (decimalValue 0 d <=? maxInt)%Z; reflexivity.
Qed.

Lemma parseChapterVerse_single (d1 d2 : string) :
  isDigits d1 = true -> isDigits d2 = true ->
  (decimalValue 0 d1 <= maxInt)%Z -> (decimalValue 0 d2 <= maxInt)%Z ->
  parseChapterVerse (d1 +:+ ":" +:+ d2) =
    inl (decimalValue 0 d1,
         Some {| StartVerse := decimalValue 0 d2; EndVerse := None |}).
Proof.
  intros H1 H2 Hv1 Hv2. unfold parseChapterVerse.
  rewrite Split_colon_two
    by (first [exact H1 | apply digit_avoids; [reflexivity | apply isDigits_all, H2]]).
  cbn [List.length Nat.ltb Nat.leb]. rewrite Atoi_digits by exact H1.
  destruct (Z.leb_spec (decimalValue 0 d1) maxInt); [| lia].
  rewrite NormalizeVerseRange_single by exact H2.
  destruct EnDash_cons as (a & p & -> & Ha).
  rewrite Contains_none
    by (apply digit_avoids; [exact Ha | apply isDigits_all, H2]).
  rewrite Atoi_digits by exact H2.
  destruct (Z.leb_spec (decimalValue 0 d2) maxInt); [reflexivity | lia].
Qed.

Lemma parseChapterVerse_range (d1 d2 d3 : string) :
  isDigits d1 = true -> isDigits d2 = true -> isDigits d3 = true ->
  (decimalValue 0 d1 <= maxInt)%Z -> (decimalValue 0 d2 <= maxInt)%Z ->
  (decimalValue 0 d3 <= maxInt)%Z ->
  parseChapterVerse (d1 +:+ ":" +:+ d2 +:+ EnDash +:+ d3) =
    inl (decimalValue 0 d1,
         Some {| StartVerse := decimalValue 0 d2;
                 EndVerse := Some (decimalValue 0 d3) |}).
Proof.
  intros H1 H2 H3 Hv1 Hv2 Hv3. unfold parseChapterVerse.
  rewrite Split_colon_two
    by (first [exact H1 | apply avoids_EnDash_parts; auto]).
  cbn [List.length Nat.ltb Nat.leb]. rewrite Atoi_digits by exact H1.
  destruct (Z.leb_spec (decimalValue 0 d1) maxInt); [| lia].
  rewrite NormalizeVerseRange_EnDash by assumption.
  rewrite Contains_app.
  destruct EnDash_cons as (a & p & E & Ha). rewrite E.
  rewrite Split_once
    by (apply digit_avoids; [exact Ha | apply isDigits_all; assumption]).
  unfold parseVerseRange. rewrite !Atoi_digits by assumption.
  destruct (Z.leb_spec (decimalValue 0 d2) maxInt); [| lia].
  destruct (Z.leb_spec (decimalValue 0 d3) maxInt); [reflexivity | lia].
Qed.

(** A tail of digits only is passed on by [parseTail] as it is, and read
    by [parseChapterVerse] as a chapter without verses, the chapter being
    the number the digits denote, as long as that number fits [int]; a
    larger one fails with [KindInvalidChapter] (the range error of
    [Atoi]). *)
Theorem tail_of_digits (d : string) :
  isDigits d = true ->
  parseTail d = inl d
  /\ ((decimalValue 0 d <= maxInt)%Z ->
      parseChapterVerse d = inl (decimalValue 0 d, None))
  /\ ((maxInt < decimalValue 0 d)%Z ->
      parseChapterVerse d =
        inr (mkBibleRefError KindInvalidChapter ErrInvalidChapter
               (Some ("invalid chapter: " +:+ d))
               (Some (ErrNum {| Func := "Atoi"; Num := d; NumErr := ErrRange |})))).
Proof.
  intros Hd. split; [| split].
  - apply parseTail_digits, Hd.
  - intros Hv. rewrite parseChapterVerse_chapter by exact Hd.
    destruct (Z.leb_spec (decimalValue 0 d) maxInt); [reflexivity | lia].
  - intros Hv. rewrite parseChapterVerse_chapter by exact Hd.
    destruct (Z.leb_spec (decimalValue 0 d) maxInt); [lia | reflexivity].
Qed.

Lemma tail_of_digits_witness :
  parseTail "31" = inl "31"
  /\ ((decimalValue 0 "31" <= maxInt)%Z ->
      parseChapterVerse "31" = inl (decimalValue 0 "31", None))
  /\ ((maxInt < decimalValue 0 "31")%Z ->
      parseChapterVerse "31" =
        inr (mkBibleRefError KindInvalidChapter ErrInvalidChapter
               (Some ("invalid chapter: " +:+ "31"))
               (Some (ErrNum {| Func := "Atoi"; Num := "31"; NumErr := ErrRange |})))).
Proof. apply (tail_of_digits "31"). reflexivity. Defined.

Example chapter_too_large :
  parseChapterVerse "99999999999999999999" =
    inr (mkBibleRefError KindInvalidChapter ErrInvalidChapter
           (Some "invalid chapter: 99999999999999999999")
           (Some (ErrNum {| Func := "Atoi"; Num := "99999999999999999999";
                            NumErr := ErrRange |}))).
Proof. vm_compute. reflexivity. Qed.

(** A verse range written with a hyphen and the same range written with
    [util.EnDash] leave [parseTail] as the same string, which
    [parseChapterVerse] reads as the chapter and the range of the three
    numbers (each within [int]), in the order written. *)
Theorem range_with_hyphen_or_EnDash (d1 d2 d3 : string) :
  isDigits d1 = true -> isDigits d2 = true -> isDigits d3 = true ->
  (decimalValue 0 d1 <= maxInt)%Z -> (decimalValue 0 d2 <= maxInt)%Z ->
  (decimalValue 0 d3 <= maxInt)%Z ->
  parseTail (d1 +:+ ":" +:+ d2 +:+ "-" +:+ d3)
    = inl (d1 +:+ ":" +:+ d2 +:+ EnDash +:+ d3)
  /\ parseTail (d1 +:+ ":" +:+ d2 +:+ EnDash +:+ d3)
       = inl (d1 +:+ ":" +:+ d2 +:+ EnDash +:+ d3)
  /\ parseChapterVerse (d1 +:+ ":" +:+ d2 +:+ EnDash +:+ d3) =
       inl (decimalValue 0 d1,
            Some {| StartVerse := decimalValue 0 d2;
                    EndVerse := Some (decimalValue 0 d3) |}).
Proof.
  intros H1 H2 H3 Hv1 Hv2 Hv3. split; [| split].
  - rewrite parseTail_colon, NormalizeVerseRange_hyphen; auto.
    destruct (isDigits_first d2 ("-" +:+ d3) H2) as (c & r & -> & _). discriminate.
  - rewrite parseTail_colon, NormalizeVerseRange_EnDash; auto.
    destruct (isDigits_first d2 (EnDash +:+ d3) H2) as (c & r & -> & _). discriminate.
  - apply parseChapterVerse_range; assumption.
Qed.

Lemma range_with_hyphen_or_EnDash_witness :
  parseTail "1:1-5" = inl ("1:1" +:+ EnDash +:+ "5")
  /\ parseTail ("1:1" +:+ EnDash +:+ "5") = inl ("1:1" +:+ EnDash +:+ "5")
  /\ parseChapterVerse ("1:1" +:+ EnDash +:+ "5") =
       inl (1%Z, Some {| StartVerse := 1; EndVerse := Some 5%Z |}).
Proof.
  apply (range_with_hyphen_or_EnDash "1" "1" "5");
    first [reflexivity | vm_compute; discriminate].
Defined.

(** The en-dash character U+2013 itself is not [util.EnDash] as the
    source spells the constant, and is no separator for the parser. *)
Example range_with_U2013 :
  parseTail "1:1–5" = inl "1:1–5"
  /\ parseChapterVerse "1:1–5" =
       inr (mkBibleRefError KindInvalidVerse ErrInvalidVerse
              (Some "invalid verse: 1–5")
              (Some (ErrNum {| Func := "Atoi"; Num := "1–5"; NumErr := ErrSyntax |}))).
Proof. split; vm_compute; reflexivity. Qed.

Lemma splitAux_length_cur (sep s cur cur' : string) (k : nat) :
  List.length (GoStrings.splitAux k sep cur s)
  = List.length (GoStrings.splitAux k sep cur' s).
Proof.
  revert k cur cur'. induction s as [|c s IH]; intros k cur cur'; [reflexivity |].
  destruct k as [|k]; cbn [GoStrings.splitAux]; [| apply IH].
  destruct (GoStrings.HasPrefix (String c s) sep); [reflexivity | apply IH].
Qed.

Lemma splitAux_length_pos (sep s cur : string) (k : nat) :
  (1 <= List.length (GoStrings.splitAux k sep cur s))%nat.
Proof.
  revert k cur. induction s as [|c s IH]; intros k cur; [simpl; lia |].
  destruct k as [|k]; cbn [GoStrings.splitAux]; [| apply IH].
  destruct (GoStrings.HasPrefix (String c s) sep); [simpl; lia | apply IH].
Qed.

Lemma splitAux_colon_length (x w cur : string) :
  (1 + List.length (GoStrings.splitAux 0 ":" EmptyString w)
   <= List.length (GoStrings.splitAux 0 ":" cur (x +:+ ":" +:+ w)))%nat.
Proof.
  revert cur. induction x as [|c x IH]; intros cur.
  - rewrite sapp_nil_l. change (":" +:+ w) with (String ":" w).
    cbn [GoStrings.splitAux].
    assert (Hp : GoStrings.HasPrefix (String ":" w) ":" = true)
      by (unfold GoStrings.HasPrefix; simpl; destruct w; reflexivity).
    rewrite Hp. cbn [String.length Nat.sub List.length]. lia.
  - rewrite sapp_cons. cbn [GoStrings.splitAux].
    destruct (GoStrings.HasPrefix _ ":").
    + cbn [String.length Nat.sub List.length].
      specialize (IH EmptyString). lia.
    + apply IH.
Qed.

(** A tail with two colons or more, such as the cross-chapter range
    "15:1-16:1", is refused by [parseChapterVerse] with [KindParse],
    whatever stands between the colons. *)
Theorem parseChapterVerse_two_colons (x y z : string) :
  parseChapterVerse (x +:+ ":" +:+ y +:+ ":" +:+ z) =
    inr (mkBibleRefError KindParse ErrBibleRefParseFailed
           (Some "chapter and verse string must contain at most one colon")
           None).
Proof.
  unfold parseChapterVerse, GoStrings.Split.
  pose proof (splitAux_colon_length x (y +:+ ":" +:+ z) EmptyString) as H1.
  pose proof (splitAux_colon_length y z EmptyString) as H2.
  pose proof (splitAux_length_pos ":" z EmptyString 0) as H3.
  destruct (GoStrings.splitAux 0 ":" EmptyString (x +:+ ":" +:+ y +:+ ":" +:+ z))
    as [|chapterStr rest]; [simpl in H1; lia |].
  destruct (Nat.ltb_spec 2 (List.length (chapterStr :: rest))); [reflexivity | lia].
Qed.

Example cross_chapter_range_refused :
  Parse "1Sam 15:1-16:1" (tableOf testBooks) =
    inr (mkBibleRefError KindParse ErrBibleRefParseFailed
           (Some "failed to parse reference string: 1Sam 15:1-16:1")
           (Some (ErrBibleRef
              (mkBibleRefError KindParse ErrBibleRefParseFailed
                 (Some "chapter and verse string must contain at most one colon")
                 None)))).
Proof. vm_compute. reflexivity. Qed.

(** ** Round trip through the canonical form *)

Lemma spaceFree_cons0 (c : ascii) (s : string) :
  spaceWidth (String c s) = 0%nat -> spaceFree s = true ->
  spaceFree (String c s) = true.
Proof. intros Hw Hs. cbn [spaceFree]. rewrite Hw, Hs. reflexivity. Qed.

Lemma spaceFree_app_digits (d s : string) :
  allBytes isDigit d = true -> spaceFree s = true -> spaceFree (d +:+ s) = true.
Proof.
  intros Hd Hs. induction d as [|c d IH]; [exact Hs |].
  simpl in Hd. apply andb_true_iff in Hd as [Hc Hd]. rewrite sapp_cons.
  apply spaceFree_cons0; [| apply IH, Hd].
  apply spaceWidth_nonstart, digit_not_spaceStart, Hc.
Qed.

Lemma spaceFree_colon (s : string) :
  spaceFree s = true -> spaceFree (":" +:+ s) = true.
Proof.
  intros Hs. change (":" +:+ s) with (String ":" s).
  apply spaceFree_cons0; [apply spaceWidth_nonstart; reflexivity | exact Hs].
Qed.

Lemma spaceFree_EnDash (s : string) :
  spaceFree s = true -> spaceFree (EnDash +:+ s) = true.
Proof.
  intros Hs. unfold EnDash. rewrite !sapp_cons, sapp_nil_l.
  repeat (apply spaceFree_cons0;
          [first [reflexivity | apply spaceWidth_nonstart; reflexivity] |]).
  exact Hs.
Qed.

Lemma Itoa_digits (n : Z) :
  (0 <= n)%Z -> isDigits (Itoa n) = true /\ decimalValue 0 (Itoa n) = n.
Proof. intros Hn. rewrite Itoa_nonneg by exact Hn. apply utoa_digits, Hn. Qed.

(** What [String] writes after the id is one token without white space
    that ends with a digit; [parseTail] returns it as it is, and
    [parseChapterVerse] reads the chapter and the verses back from it. *)
Lemma canonicalTail_parses (chapter : Z) (verse : option VerseRange) :
  fitsInt chapter verse ->
  let t := canonicalTail chapter verse in
  parseTail t = inl t
  /\ parseChapterVerse t = inl (chapter, verse)
  /\ spaceFree t = true
  /\ (exists c r, revString t = String c r /\ isDigit c = true).
Proof.
  intros [Hch Hv] t. subst t. unfold canonicalTail.
  destruct (Itoa_digits chapter) as [Hd1 Hv1]; [lia |].
  destruct verse as [[sv [ev|]]|]; cbn [StartVerse EndVerse] in Hv;
    unfold VerseRange_String; cbn [StartVerse EndVerse].
  - destruct Hv as [Hsv Hev].
    destruct (Itoa_digits sv) as [Hd2 Hv2]; [lia |].
    destruct (Itoa_digits ev) as [Hd3 Hv3]; [lia |].
    split; [| split; [| split]].
    + rewrite parseTail_colon, NormalizeVerseRange_EnDash; auto.
      destruct (isDigits_first (Itoa sv) (EnDash +:+ Itoa ev) Hd2)
        as (c & r & -> & _). discriminate.
    + rewrite parseChapterVerse_range by (first [assumption | lia]).
      rewrite Hv1, Hv2, Hv3. reflexivity.
    + apply spaceFree_app_digits; [apply isDigits_all, Hd1 |].
      apply spaceFree_colon.
      apply spaceFree_app_digits; [apply isDigits_all, Hd2 |].
      apply spaceFree_EnDash.
      rewrite <- (sapp_nil_r (Itoa ev)).
      apply spaceFree_app_digits; [apply isDigits_all, Hd3 | reflexivity].
    + rewrite <- !sapp_assoc. apply isDigits_last, Hd3.
  - destruct Hv as [Hsv _].
    destruct (Itoa_digits sv) as [Hd2 Hv2]; [lia |].
    split; [| split; [| split]].
    + rewrite parseTail_colon, NormalizeVerseRange_single; auto.
      apply isDigits_nonempty, Hd2.
    + rewrite parseChapterVerse_single by (first [assumption | lia]).
      rewrite Hv1, Hv2. reflexivity.
    + apply spaceFree_app_digits; [apply isDigits_all, Hd1 |].
      apply spaceFree_colon.
      rewrite <- (sapp_nil_r (Itoa sv)).
      apply spaceFree_app_digits; [apply isDigits_all, Hd2 | reflexivity].
    + rewrite <- !sapp_assoc. apply isDigits_last, Hd2.
  - split; [| split; [| split]].
    + apply parseTail_digits, Hd1.
    + rewrite parseChapterVerse_chapter by exact Hd1. rewrite Hv1.
      destruct (Z.leb_spec chapter maxInt); [reflexivity | lia].
    + rewrite <- (sapp_nil_r (Itoa chapter)).
      apply spaceFree_app_digits; [apply isDigits_all, Hd1 | reflexivity].
    + apply (isDigits_last EmptyString), Hd1.
Qed.

Lemma BibleRef_String_tail (r : BibleRef) :
  BibleRef_String r = OSIS r +:+ " " +:+ canonicalTail (Chapter r) (Verse r).
Proof. unfold BibleRef_String, canonicalTail. destruct (Verse r); reflexivity. Qed.

(** The numbers that [parseChapterVerse] returns come from [Atoi], so
    they fit [int]. *)
Lemma parseChapterVerse_bounds (cv : string) (chapter : Z)
    (verse : option VerseRange) :
  parseChapterVerse cv = inl (chapter, verse) ->
  (minInt <= chapter <= maxInt)%Z
  /\ forall v, verse = Some v ->
       (minInt <= StartVerse v <= maxInt)%Z
       /\ forall e, EndVerse v = Some e -> (minInt <= e <= maxInt)%Z.
Proof.
  unfold parseChapterVerse.
  destruct (GoStrings.Split cv ":") as [|chapterStr rest]; [discriminate |].
  destruct (2 <? _)%nat; [discriminate |].
  destruct (Atoi chapterStr) as [ch|] eqn:Hch; [| discriminate].
  apply Atoi_range in Hch.
  destruct rest as [|part1 rest'].
  { intros [= <- <-]. split; [exact Hch | discriminate]. }
  destruct (GoStrings.Contains _ EnDash).
  - unfold parseVerseRange.
    destruct (GoStrings.Split _ EnDash) as [|p0 [|p1 [|? ?]]]; try discriminate.
    destruct (Atoi p0) as [sv|] eqn:Hsv; [| discriminate].
    destruct (Atoi p1) as [ev|] eqn:Hev; [| discriminate].
    apply Atoi_range in Hsv, Hev.
    intros [= <- <-]. split; [exact Hch |].
    intros v [= <-]. cbn. split; [exact Hsv |]. intros e [= <-]. exact Hev.
  - destruct (Atoi _) as [sv|] eqn:Hsv; [| discriminate].
    apply Atoi_range in Hsv.
    intros [= <- <-]. split; [exact Hch |].
    intros v [= <-]. cbn. split; [exact Hsv | discriminate].
Qed.

Lemma Join_nil_Fields (o : string) :
  GoStrings.Join (GoStrings.Fields o) " " = o -> o <> EmptyString ->
  GoStrings.Fields o <> [].
Proof. intros Hj Ho E. rewrite E in Hj. simpl in Hj. congruence. Qed.

(** An input made of a head that resolves to a book, a space, and the
    canonical tail of a chapter and verses that are valid for that book,
    parses to the reference of that book, chapter and verses. *)
Lemma parseRefString_canonical `{GoUnicode} (h : string) (tbl : Table)
    (book : Book) (chapter : Z) (verse : option VerseRange) :
  GoStrings.Fields h <> [] ->
  resolveBook tbl (NormalizeAlias (GoStrings.Join (GoStrings.Fields h) " "))
    = Some book ->
  fitsInt chapter verse ->
  BibleRef_Validate {| OSIS := Book_OSIS book; Chapter := chapter;
                       Verse := verse |} tbl = None ->
  parseRefString (h +:+ " " +:+ canonicalTail chapter verse) tbl
  = inl {| OSIS := Book_OSIS book; Chapter := chapter; Verse := verse |}.
Proof.
  intros Hnil Hres Hfit Hval.
  destruct (canonicalTail_parses _ _ Hfit)
    as (Htail & Hparse & Hfree & c & rr & Hrev & Hc).
  set (t := canonicalTail chapter verse) in *.
  assert (Ht : t <> EmptyString).
  { intros E. rewrite E in Hrev. discriminate. }
  assert (Hfields : GoStrings.Fields (h +:+ " " +:+ t)
                    = (GoStrings.Fields h ++ [t])%list)
    by (apply Fields_app_token; assumption).
  assert (Hrev' : exists rr', revString (h +:+ " " +:+ t) = String c rr').
  { rewrite <- sapp_assoc, revString_app, Hrev, sapp_cons. eauto. }
  destruct Hrev' as [rr' Hrev'].
  destruct (Fields_TrimSpace_digit_end _ _ _ Hrev' Hc) as [Hft _].
  { rewrite Hfields. destruct (GoStrings.Fields h); discriminate. }
  rewrite (parseRefString_resolved (h +:+ " " +:+ t) tbl t book).
  - rewrite Hparse.
    assert (Hlt : match verse with
                  | Some v => (StartVerse v <? 1)%Z
                  | None => false
                  end = false).
    { apply BibleRef_Validate_cases_start in Hval. exact Hval. }
    rewrite Hlt, Hval. reflexivity.
  - rewrite Hft, Hfields, length_app. simpl.
    destruct (GoStrings.Fields h); [congruence | simpl; lia].
  - rewrite Hft, Hfields, last_last. exact Htail.
  - rewrite Hft, Hfields, removelast_last. exact Hres.
Qed.

(** The canonical form of a reference that [Parse] returned parses to the
    same reference, for a table of [NewTable], provided the id is written
    with single spaces between its words (as "Prov" or "2 Kgs" are) and
    its normalized form is mapped by [ByAlias] to the id itself (which
    [NewTable] ensures unless a book with another id claims that key). *)
Theorem Parse_String_roundtrip `{GoUnicode} (books : list Book) (tbl : Table)
    (s : string) (r : BibleRef) :
  NewTable books = inl tbl ->
  Parse s tbl = inl r ->
  GoStrings.Join (GoStrings.Fields (OSIS r)) " " = OSIS r ->
  ByAlias tbl !! NormalizeAlias (OSIS r) = Some (OSIS r) ->
  Parse (BibleRef_String r) tbl = inl r.
Proof.
  intros Hn Hp Hjoin Halias.
  apply NewTable_inv in Hn as [Hall (HO1 & _)].
  apply Parse_inl, parseRefString_inl in Hp as [Hval (cv & book & Hp)].
  cbv zeta in Hp. destruct Hp as (_ & _ & _ & Hcv & _).
  pose proof Hval as Hok.
  apply BibleRef_Validate_ok in Hok as (book' & Hb' & Hch & Hvs).
  destruct (HO1 _ _ Hb') as [Hin' Hid'].
  assert (Hne : OSIS r <> EmptyString).
  { rewrite Forall_forall in Hall.
    apply list_elem_of_In, Hall, Book_Validate_None in Hin'.
    rewrite <- Hid'. tauto. }
  apply parseChapterVerse_bounds in Hcv as [Hchb Hvb].
  assert (Hfit : fitsInt (Chapter r) (Verse r)).
  { split; [lia |]. destruct (Verse r) as [v|]; [| exact I].
    destruct Hvs as [Hs He]. destruct (Hvb v eq_refl) as [Hsb Heb].
    split; [lia |]. destruct (EndVerse v) as [e|]; [| exact I].
    specialize (Heb e eq_refl). lia. }
  assert (Heta : {| OSIS := Book_OSIS book'; Chapter := Chapter r;
                    Verse := Verse r |} = r)
    by (rewrite Hid'; destruct r; reflexivity).
  rewrite Parse_wrap, BibleRef_String_tail.
  rewrite (parseRefString_canonical (OSIS r) tbl book').
  - rewrite Heta. reflexivity.
  - apply Join_nil_Fields; assumption.
  - rewrite Hjoin. unfold resolveBook. rewrite Halias. exact Hb'.
  - exact Hfit.
  - rewrite Heta. exact Hval.
Qed.

Lemma NewTable_booksWithDuplicates :
  NewTable booksWithDuplicates = inl (tableOf booksWithDuplicates).
Proof. vm_compute. reflexivity. Qed.

Lemma Parse_String_roundtrip_witness :
  Parse (BibleRef_String (rangeRef "Prov" 31 10 31)) (tableOf testBooks)
  = inl (rangeRef "Prov" 31 10 31).
Proof.
  apply (Parse_String_roundtrip testBooks (tableOf testBooks) "PRO 31:10-31"
           (rangeRef "Prov" 31 10 31) NewTable_testBooks);
    vm_compute; reflexivity.
Defined.

(** Without the proviso on [ByAlias] the round trip fails: with "prov"
    claimed by both books, "Matt 1" parses, and its canonical form
    "Matt 1" parses again (the normalized id "matt" is a free key); but
    "Prov 1" parses to the reference "Matt 1", a different id. *)
Example roundtrip_changes_id_on_duplicate :
  Parse "Prov 1" (tableOf booksWithDuplicates) = inl (chapterRef "Matt" 1)
  /\ BibleRef_String (chapterRef "Matt" 1) = "Matt 1"
  /\ Parse "proverbs 1" (tableOf booksWithDuplicates) = inl (chapterRef "Prov" 1)
  /\ Parse (BibleRef_String (chapterRef "Prov" 1)) (tableOf booksWithDuplicates)
     = inl (chapterRef "Matt" 1).
Proof. repeat split; vm_compute; reflexivity. Qed.

(** ** Heads that resolve *)

(** Any head that normalizes to a key of a book of the list, a key no
    book with another id shares, resolves to that book's id: followed by
    a space and a chapter (and verses) valid for the table, it parses to
    the reference with that id, chapter and verses.  Case, periods,
    Roman-numeral prefixes and the white space between the words of the
    head matter only through [NormalizeAlias] and [Fields]. *)
Theorem Parse_registered_head `{GoUnicode} (books : list Book) (tbl : Table)
    (b : Book) (h k : string) (chapter : Z) (verse : option VerseRange) :
  NewTable books = inl tbl -> In b books -> In k (aliasKeys b) ->
  (forall b', In b' books -> In k (aliasKeys b') -> Book_OSIS b' = Book_OSIS b) ->
  GoStrings.Fields h <> [] ->
  NormalizeAlias (GoStrings.Join (GoStrings.Fields h) " ") = k ->
  fitsInt chapter verse ->
  BibleRef_Validate {| OSIS := Book_OSIS b; Chapter := chapter;
                       Verse := verse |} tbl = None ->
  Parse (h +:+ " " +:+ canonicalTail chapter verse) tbl
  = inl {| OSIS := Book_OSIS b; Chapter := chapter; Verse := verse |}.
Proof.
  intros Hn Hin Hk Huniq Hnil Hnorm Hfit Hval.
  apply NewTable_inv in Hn as [_ (HO1 & _ & HA1 & HA2)].
  destruct (HA2 _ _ Hin Hk) as [o Ho].
  destruct (HA1 _ _ Ho) as (b1 & Hin1 & Hk1 & ->).
  rewrite (Huniq _ Hin1 Hk1) in Ho.
  pose proof Hval as Hok.
  apply BibleRef_Validate_ok in Hok as (book' & Hb' & _). cbn [OSIS] in Hb'.
  destruct (HO1 _ _ Hb') as [_ Hid'].
  rewrite Parse_wrap, <- Hid'.
  rewrite (parseRefString_canonical h tbl book'); [reflexivity | exact Hnil | | exact Hfit |].
  - rewrite Hnorm. unfold resolveBook. rewrite Ho. exact Hb'.
  - rewrite Hid'. exact Hval.
Qed.

Lemma Parse_registered_head_witness :
  Parse ("Book  of WISDOM" +:+ " "
         +:+ canonicalTail 1 (Some {| StartVerse := 1; EndVerse := Some 5%Z |}))
        (tableOf testBooks)
  = inl {| OSIS := "Wis"; Chapter := 1;
           Verse := Some {| StartVerse := 1; EndVerse := Some 5%Z |} |}.
Proof.
  apply (Parse_registered_head testBooks (tableOf testBooks)
           (mkBook "Wis" "Wisdom of Solomon"
              ["wisdom of solomon"; "wisdom"; "wis"; "book of wisdom"]
              "Apocrypha" 70 19)
           "Book  of WISDOM" "book of wisdom" 1%Z
           (Some {| StartVerse := 1; EndVerse := Some 5%Z |})
           NewTable_testBooks).
  - simpl. repeat first [left; reflexivity | right].
  - vm_compute. repeat first [left; reflexivity | right].
  - intros b' Hb' Hk'. simpl in Hb'.
    destruct Hb' as [<-|[<-|[<-|[<-|[<-|[]]]]]]; vm_compute in Hk' |- *;
      first [reflexivity | exfalso; intuition discriminate].
  - vm_compute. discriminate.
  - vm_compute. reflexivity.
  - vm_compute. intuition discriminate.
  - vm_compute. reflexivity.
Defined.

(** A registry built from the one book "2Kgs" with the alias "ii kings"
    (any name, order and other aliases, at least 20 chapters): the alias
    is stored under "2 kings", the head "II Kings" normalizes to that same
    key, and "II Kings 20" parses to chapter 20 of "2Kgs".  The
    replacement of "iii " precedes that of "ii ", which precedes that of
    "i ". *)
Theorem Parse_roman_numeral_head `{GoUnicode} (name testament : string)
    (aliases : list string) (order chapters : Z) :
  name <> EmptyString -> (1 <= order)%Z -> (20 <= chapters)%Z ->
  In "ii kings" aliases ->
  exists tbl,
    NewTable [mkBook "2Kgs" name aliases testament order chapters] = inl tbl
    /\ ByAlias tbl !! "2 kings" = Some "2Kgs"
    /\ NormalizeAlias "II Kings" = "2 kings"
    /\ Parse "II Kings 20" tbl = inl (chapterRef "2Kgs" 20)
    /\ NormalizeAlias "III John" = "3 john"
    /\ NormalizeAlias "I Sam" = "1 sam".
Proof.
  intros Hname Horder Hch Hin.
  set (b := mkBook "2Kgs" name aliases testament order chapters).
  assert (Hvalid : Book_Validate b = None).
  { apply Book_Validate_None. cbn. repeat split; try lia; congruence. }
  exists (addBook b {| ByOsis := ∅; ByAlias := ∅ |}).
  assert (Hkey : ByAlias (addBook b {| ByOsis := ∅; ByAlias := ∅ |}) !! "2 kings"
                 = Some "2Kgs").
  { rewrite addBook_ByAlias. destruct (in_dec _ _ _) as [|Hout]; [reflexivity |].
    exfalso. apply Hout. cbn [Book_Aliases b].
    change "2 kings" with (NormalizeAlias "ii kings"). apply in_map, Hin. }
  split; [| split; [exact Hkey | split; [reflexivity | split; [| split; reflexivity]]]].
  - unfold NewTable. cbn [newTableLoop]. rewrite Hvalid. reflexivity.
  - rewrite Parse_wrap.
    change "II Kings 20" with ("II Kings" +:+ " " +:+ canonicalTail 20 None).
    assert (Hb : ByOsis (addBook b {| ByOsis := ∅; ByAlias := ∅ |}) !! "2Kgs" = Some b)
      by (rewrite addBook_ByOsis; apply lookup_insert_eq).
    rewrite (parseRefString_canonical "II Kings" _ b 20 None); [reflexivity | | | |].
    + vm_compute. discriminate.
    + change (NormalizeAlias (GoStrings.Join (GoStrings.Fields "II Kings") " "))
        with "2 kings".
      unfold resolveBook. rewrite Hkey. exact Hb.
    + split; [rewrite maxInt_val; lia | exact I].
    + unfold BibleRef_Validate. cbn [OSIS Chapter Verse].
      change (Book_OSIS b) with "2Kgs". rewrite Hb.
      change (Book_Chapters b) with chapters. change (20 <? 1)%Z with false.
      destruct (Z.ltb_spec chapters 20); [lia | reflexivity].
Qed.

Lemma Parse_roman_numeral_head_witness :
  exists tbl,
    NewTable [mkBook "2Kgs" "2 Kings" ["2 kings"; "ii kings"] "OT" 12 25] = inl tbl
    /\ ByAlias tbl !! "2 kings" = Some "2Kgs"
    /\ NormalizeAlias "II Kings" = "2 kings"
    /\ Parse "II Kings 20" tbl = inl (chapterRef "2Kgs" 20)
    /\ NormalizeAlias "III John" = "3 john"
    /\ NormalizeAlias "I Sam" = "1 sam".
Proof.
  apply (Parse_roman_numeral_head "2 Kings" "OT" ["2 kings"; "ii kings"] 12 25).
  - discriminate.
  - lia.
  - lia.
  - right. left. reflexivity.
Defined.

(** ** Kinds of reference and formats *)

(** A reference is of exactly one kind: chapter only ([Verse] is nil),
    single verse (no end verse), or range (an end verse). *)
Theorem reference_kinds_partition (r : BibleRef) :
  (IsChapterOnly r = true /\ IsSingleVerse r = false /\ IsRange r = false
   /\ Verse r = None)
  \/ (IsChapterOnly r = false /\ IsSingleVerse r = true /\ IsRange r = false
      /\ exists s, Verse r = Some {| StartVerse := s; EndVerse := None |})
  \/ (IsChapterOnly r = false /\ IsSingleVerse r = false /\ IsRange r = true
      /\ exists s e, Verse r = Some {| StartVerse := s; EndVerse := Some e |}).
Proof.
  unfold IsChapterOnly, IsSingleVerse, IsRange.
  destruct (Verse r) as [[s [e|]]|]; cbn.
  - right. right. repeat split. exists s, e. reflexivity.
  - right. left. repeat split. exists s. reflexivity.
  - left. repeat split.
Qed.

(** For a reference that [Parse] returned from a table of [NewTable],
    [FormatHuman] writes the (non-empty) display name of the registered
    book with that id, followed by the same chapter and verses as the
    canonical form; [FormatCanonical], which needs no table, is
    [String]. *)
Theorem Format_of_parsed `{GoUnicode} (books : list Book) (tbl : Table)
    (s : string) (r : BibleRef) :
  NewTable books = inl tbl -> Parse s tbl = inl r ->
  exists book,
    In book books /\ Book_OSIS book = OSIS r /\ Book_Name book <> EmptyString
    /\ BibleRef_Format r FormatHuman (Some tbl)
       = Some (Book_Name book +:+ " " +:+ canonicalTail (Chapter r) (Verse r))
    /\ BibleRef_Format r FormatCanonical None = Some (BibleRef_String r)
    /\ BibleRef_String r = OSIS r +:+ " " +:+ canonicalTail (Chapter r) (Verse r).
Proof.
  intros Hn Hp. apply NewTable_inv in Hn as [Hall (HO1 & _)].
  apply Parse_inl, parseRefString_inl in Hp as [Hval _].
  apply BibleRef_Validate_ok in Hval as (book & Hb & _).
  destruct (HO1 _ _ Hb) as [Hin Hid].
  exists book. split; [exact Hin | split; [exact Hid |]].
  rewrite Forall_forall in Hall.
  pose proof (proj1 (Book_Validate_None book) (Hall _ (proj2 (list_elem_of_In _ _) Hin)))
    as (_ & Hname & _).
  split; [exact Hname |].
  split; [| split; [| apply BibleRef_String_tail]].
  - unfold BibleRef_Format, canonicalTail. rewrite Hb.
    destruct (Verse r); reflexivity.
  - unfold BibleRef_Format, BibleRef_String. destruct (Verse r); reflexivity.
Qed.

Lemma Format_of_parsed_witness :
  exists book,
    In book testBooks /\ Book_OSIS book = "Prov" /\ Book_Name book <> EmptyString
    /\ BibleRef_Format (rangeRef "Prov" 31 10 31) FormatHuman (Some (tableOf testBooks))
       = Some (Book_Name book +:+ " "
               +:+ canonicalTail 31 (Some {| StartVerse := 10; EndVerse := Some 31%Z |}))
    /\ BibleRef_Format (rangeRef "Prov" 31 10 31) FormatCanonical None
       = Some (BibleRef_String (rangeRef "Prov" 31 10 31))
    /\ BibleRef_String (rangeRef "Prov" 31 10 31)
       = "Prov" +:+ " "
         +:+ canonicalTail 31 (Some {| StartVerse := 10; EndVerse := Some 31%Z |}).
Proof.
  apply (Format_of_parsed testBooks (tableOf testBooks) "proverbs 31:10-31"
           (rangeRef "Prov" 31 10 31) NewTable_testBooks).
  vm_compute. reflexivity.
Defined.

Example Format_examples :
  BibleRef_Format (rangeRef "Prov" 31 10 31) FormatHuman (Some (tableOf testBooks))
    = Some ("Proverbs 31:10" +:+ EnDash +:+ "31")
  /\ BibleRef_Format (rangeRef "Prov" 31 10 31) FormatOSIS None
     = Some ("Prov.31.10" +:+ EnDash +:+ "31")
  /\ BibleRef_Format (rangeRef "Prov" 31 10 31) FormatHuman None = None
  /\ BibleRef_String (chapterRef "Prov" 31) = "Prov 31".
Proof. repeat split; vm_compute; reflexivity. Qed.

(** ** White space around and between the fields *)

Lemma spaceWidth_app_lead (c c0 : ascii) (a t : string) :
  isLead c0 = true ->
  spaceWidth (String c a +:+ String c0 t) = spaceWidth (String c a).
Proof.
  intros H0. rewrite sapp_cons. simpl. destruct (isSpace1 c); [reflexivity |].
  destruct a as [|c2 a2].
  - rewrite sapp_nil_l.
    assert (H2 : isSpace2 c c0 = false) by byte_facts. rewrite H2.
    destruct t as [|c3 t3]; [reflexivity |].
    assert (H3 : isSpace3 c c0 c3 = false) by byte_facts. rewrite H3.
    reflexivity.
  - rewrite sapp_cons. destruct (isSpace2 c c2); [reflexivity |].
    destruct a2 as [|c3 a3].
    + rewrite sapp_nil_l.
      assert (H3 : isSpace3 c c2 c0 = false) by byte_facts. rewrite H3.
      reflexivity.
    + rewrite sapp_cons. reflexivity.
Qed.

Lemma fieldsAux_skip_all (r cur : string) :
  GoStrings.fieldsAux (String.length r) cur r = GoStrings.flush cur.
Proof. induction r as [|c r IH]; [reflexivity | exact IH]. Qed.

Lemma spaceWidth_lead (c : ascii) (r : string) :
  spaceWidth (String c r) <> 0%nat -> isLead c = true.
Proof.
  simpl. destruct (isSpace1 c) eqn:H1; [intros _; byte_facts |].
  destruct r as [|c2 r2]; [congruence |].
  destruct (isSpace2 c c2) eqn:H2; [intros _; byte_facts |].
  destruct r2 as [|c3 r3]; [congruence |].
  destruct (isSpace3 c c2 c3) eqn:H3; [intros _; byte_facts | congruence].
Qed.

(** One white-space rune after a string adds no field. *)
Lemma fieldsAux_app_rune (w : string) :
  w <> EmptyString -> spaceWidth w = String.length w ->
  forall (a cur : string) (k : nat),
    (k <= String.length a)%nat ->
    GoStrings.fieldsAux k cur (a +:+ w) = GoStrings.fieldsAux k cur a.
Proof.
  intros Hw Hlen. destruct w as [|c0 t]; [congruence |].
  assert (Hlead : isLead c0 = true).
  { apply (spaceWidth_lead c0 t). rewrite Hlen. discriminate. }
  induction a as [|c a IH]; intros cur k Hk.
  - simpl in Hk. assert (k = 0%nat) as -> by lia.
    rewrite sapp_nil_l. cbn [GoStrings.fieldsAux]. rewrite Hlen.
    cbn [String.length]. rewrite fieldsAux_skip_all. apply app_nil_r.
  - destruct k as [|k].
    + pose proof (spaceWidth_app_lead c c0 a t Hlead) as Hwa.
      pose proof (spaceWidth_le_length (String c a)) as Hl.
      rewrite sapp_cons in *. cbn [GoStrings.fieldsAux]. rewrite Hwa.
      destruct (spaceWidth (String c a)) as [|n].
      * apply IH. lia.
      * rewrite IH by (simpl in Hl; lia). reflexivity.
    + rewrite sapp_cons. cbn [GoStrings.fieldsAux]. apply IH. simpl in Hk. lia.
Qed.

(** The white-space rune that a string ends with, read off its reversed
    bytes. *)
Lemma spaceWidthRev_rune (rs : string) (k : nat) :
  spaceWidthRev rs = S k ->
  exists w rs', rs = revString w +:+ rs' /\ String.length w = S k
                /\ spaceWidth w = S k
                /\ GoStrings.trimLeftAux spaceWidthRev 0 rs
                   = GoStrings.trimLeftAux spaceWidthRev 0 rs'.
Proof.
  destruct rs as [|c1 r1]; [discriminate |].
  intros Hw. cbn [GoStrings.trimLeftAux]. rewrite Hw. simpl in Hw.
  destruct (isSpace1 c1) eqn:H1.
  { injection Hw as <-. exists (str1 c1), r1.
    split; [reflexivity | split; [reflexivity | split]].
    - simpl. rewrite H1. reflexivity.
    - destruct r1; reflexivity. }
  destruct r1 as [|c2 r2]; [discriminate |].
  destruct (isSpace2 c2 c1) eqn:H2.
  { injection Hw as <-. exists (String c2 (str1 c1)), r2.
    split; [reflexivity | split; [reflexivity | split]].
    - simpl. assert (E : isSpace1 c2 = false) by byte_facts.
      rewrite E, H2. reflexivity.
    - cbn [GoStrings.trimLeftAux]. destruct r2; reflexivity. }
  destruct r2 as [|c3 r3]; [discriminate |].
  destruct (isSpace3 c3 c2 c1) eqn:H3; [| discriminate].
  injection Hw as <-. exists (String c3 (String c2 (str1 c1))), r3.
  split; [reflexivity | split; [reflexivity | split]].
  - simpl. assert (E1 : isSpace1 c3 = false) by byte_facts.
    assert (E2 : isSpace2 c3 c2 = false) by byte_facts.
    rewrite E1, E2, H3. reflexivity.
  - cbn [GoStrings.trimLeftAux]. destruct r3; reflexivity.
Qed.

Lemma Fields_trimRight_rev (n : nat) (rs : string) :
  (String.length rs <= n)%nat ->
  GoStrings.Fields (revString (GoStrings.trimLeftAux spaceWidthRev 0 rs))
  = GoStrings.Fields (revString rs).
Proof.
  revert rs. induction n as [|n IH]; intros rs Hn.
  - destruct rs; [reflexivity | simpl in Hn; lia].
  - destruct (spaceWidthRev rs) as [|k] eqn:Hw.
    + destruct rs; [reflexivity |]. cbn [GoStrings.trimLeftAux]. rewrite Hw.
      reflexivity.
    + destruct (spaceWidthRev_rune rs k Hw) as (w & rs' & -> & Hlen & Hsw & ->).
      rewrite slength_app in Hn.
      assert (Hrl : String.length (revString w) = String.length w).
      { clear. unfold revString. 
        assert (G : forall a acc, String.length (revOnto a acc)
                                  = (String.length a + String.length acc)%nat).
        { induction a as [|c a IHa]; intros acc; [reflexivity |].
          simpl. rewrite IHa. simpl. lia. }
        rewrite G. simpl. lia. }
      rewrite IH by lia.
      rewrite revString_app, revString_involutive.
      unfold GoStrings.Fields. symmetry. apply fieldsAux_app_rune.
      * destruct w; [discriminate | congruence].
      * congruence.
      * lia.
Qed.

Lemma Fields_TrimSpace (s : string) :
  GoStrings.Fields (GoStrings.TrimSpace s) = GoStrings.Fields s.
Proof.
  unfold GoStrings.TrimSpace, GoStrings.TrimRightSpace.
  rewrite (Fields_trimRight_rev _ _ (le_n _)), revString_involutive.
  apply Fields_TrimLeftSpace.
Qed.

Lemma fieldsAux_cur_nonempty (s cur : string) (k : nat) :
  cur <> EmptyString -> GoStrings.fieldsAux k cur s <> [].
Proof.
  revert cur k. induction s as [|c s IH]; intros cur k Hc.
  - destruct cur; [congruence | discriminate].
  - destruct k as [|k]; cbn [GoStrings.fieldsAux]; [| apply IH, Hc].
    destruct (spaceWidth (String c s)).
    + apply IH. destruct cur; discriminate.
    + destruct cur; [congruence | discriminate].
Qed.

Lemma fieldsAux_nil_trimLeft (s : string) (k : nat) :
  GoStrings.fieldsAux k EmptyString s = [] ->
  GoStrings.trimLeftAux spaceWidth k s = EmptyString.
Proof.
  revert k. induction s as [|c s IH]; intros k; [reflexivity |].
  destruct k as [|k]; cbn [GoStrings.fieldsAux GoStrings.trimLeftAux]; [| apply IH].
  destruct (spaceWidth (String c s)).
  - intros Hf. exfalso. revert Hf. apply fieldsAux_cur_nonempty. discriminate.
  - apply IH.
Qed.

Lemma TrimSpace_empty_iff (s : string) :
  isEmpty (GoStrings.TrimSpace s) = true <-> GoStrings.Fields s = [].
Proof.
  split.
  - intros E%isEmpty_true. rewrite <- Fields_TrimSpace, E. reflexivity.
  - intros Hf. apply isEmpty_true. unfold GoStrings.TrimSpace, GoStrings.TrimLeftSpace.
    rewrite (fieldsAux_nil_trimLeft s 0 Hf). reflexivity.
Qed.

Lemma parseRefString_Fields `{GoUnicode} (s1 s2 : string) (tbl : Table) :
  GoStrings.Fields s1 = GoStrings.Fields s2 ->
  parseRefString s1 tbl = parseRefString s2 tbl.
Proof.
  intros Hf. unfold parseRefString. rewrite !Fields_TrimSpace, Hf.
  destruct (isEmpty (GoStrings.TrimSpace s1)) eqn:E1;
    destruct (isEmpty (GoStrings.TrimSpace s2)) eqn:E2; try reflexivity.
  - apply TrimSpace_empty_iff in E1. rewrite Hf in E1.
    apply TrimSpace_empty_iff in E1. congruence.
  - apply TrimSpace_empty_iff in E2. rewrite <- Hf in E2.
    apply TrimSpace_empty_iff in E2. congruence.
Qed.

(** Only the fields of the input matter: two inputs with the same fields
    (whatever white space, ASCII or Unicode, stands around and between
    them) parse to the same reference or fail with the same error of
    [parseRefString]. *)
Theorem Parse_depends_on_fields `{GoUnicode} (s1 s2 : string) (tbl : Table) :
  GoStrings.Fields s1 = GoStrings.Fields s2 ->
  parseRefString s1 tbl = parseRefString s2 tbl
  /\ doParse s1 tbl = doParse s2 tbl
  /\ forall r, Parse s1 tbl = inl r <-> Parse s2 tbl = inl r.
Proof.
  intros Hf. pose proof (parseRefString_Fields s1 s2 tbl Hf) as Hp.
  split; [exact Hp |]. split.
  - rewrite !doParse_parseRefString. exact Hp.
  - intros r. rewrite !Parse_wrap, Hp.
    destruct (parseRefString s2 tbl); split; intros E; first [exact E | discriminate].
Qed.

Lemma Parse_depends_on_fields_witness :
  parseRefString "   Prov   31:10-31   " (tableOf testBooks)
  = parseRefString "Prov 31:10-31" (tableOf testBooks)
  /\ doParse "   Prov   31:10-31   " (tableOf testBooks)
     = doParse "Prov 31:10-31" (tableOf testBooks)
  /\ forall r, Parse "   Prov   31:10-31   " (tableOf testBooks) = inl r
               <-> Parse "Prov 31:10-31" (tableOf testBooks) = inl r.
Proof.
  apply (Parse_depends_on_fields "   Prov   31:10-31   " "Prov 31:10-31").
  reflexivity.
Defined.

Lemma Fields_blank (s : string) :
  allBytes isSpace1 s = true -> GoStrings.Fields s = [].
Proof.
  unfold GoStrings.Fields. induction s as [|c s IH]; [reflexivity |].
  simpl allBytes. intros [Hc Hs]%andb_true_iff.
  cbn [GoStrings.fieldsAux]. simpl spaceWidth. rewrite Hc. exact (IH Hs).
Qed.

Lemma Fields_token (s : string) :
  spaceFree s = true -> s <> EmptyString -> GoStrings.Fields s = [s].
Proof.
  intros Hf Hs. unfold GoStrings.Fields. rewrite fieldsAux_spaceFree by exact Hf.
  rewrite sapp_nil_l. destruct s; [congruence | reflexivity].
Qed.

(** Inputs with fewer than two fields are refused with [KindParse]: an
    input without any field (empty, or white space only) as empty, an
    input of one field (a token without white space) for lack of a
    chapter; the table is not consulted. *)
Theorem Parse_too_few_fields `{GoUnicode} (s : string) (tbl : Table) :
  (List.length (GoStrings.Fields s) < 2)%nat ->
  parseRefString s tbl =
    inr (mkBibleRefError KindParse ErrBibleRefParseFailed
           (Some (match GoStrings.Fields s with
                  | [] => "reference string cannot be empty"
                  | _ => "reference string must contain at least a book and a chapter"
                  end)) None).
Proof.
  intros Hlen. destruct (GoStrings.Fields s) as [|f [|g l]] eqn:Hf.
  - unfold parseRefString.
    rewrite (proj2 (TrimSpace_empty_iff s) Hf). reflexivity.
  - unfold parseRefString. rewrite Fields_TrimSpace, Hf.
    destruct (isEmpty (GoStrings.TrimSpace s)) eqn:E; [| reflexivity].
    apply TrimSpace_empty_iff in E. congruence.
  - simpl in Hlen. lia.
Qed.

Lemma Parse_too_few_fields_witness :
  parseRefString "  Prov  " (tableOf testBooks) =
    inr (mkBibleRefError KindParse ErrBibleRefParseFailed
           (Some "reference string must contain at least a book and a chapter")
           None).
Proof.
  apply (Parse_too_few_fields "  Prov  " (tableOf testBooks)).
  vm_compute. lia.
Defined.

Example Parse_too_few_fields_examples :
  Parse "" (tableOf testBooks) =
    inr (mkBibleRefError KindParse ErrBibleRefParseFailed
           (Some "failed to parse reference string: ")
           (Some (ErrBibleRef
              (mkBibleRefError KindParse ErrBibleRefParseFailed
                 (Some "reference string cannot be empty") None))))
  /\ parseRefString "Prov" (tableOf testBooks) =
       inr (mkBibleRefError KindParse ErrBibleRefParseFailed
              (Some "reference string must contain at least a book and a chapter")
              None).
Proof. split; vm_compute; reflexivity. Qed.

(** ** [NormalizeAlias] *)

Lemma replaceAux_avoids (b : ascii) (old new s : string) (k : nat) :
  avoids b s = true -> avoids b new = true ->
  avoids b (GoStrings.replaceAux k old new s) = true.
Proof.
  intros Hs Hnew. revert k. induction s as [|c s IH]; intros k; [reflexivity |].
  apply avoids_cons in Hs as [Hc Hs]. specialize (IH Hs).
  destruct k as [|k]; cbn [GoStrings.replaceAux]; [| apply IH].
  destruct (GoStrings.HasPrefix (String c s) old).
  - rewrite avoids_app, Hnew, IH. reflexivity.
  - unfold avoids. cbn [allBytes]. fold (avoids b (GoStrings.replaceAux 0 old new s)).
    rewrite IH, andb_true_r. apply negb_true_iff, Ascii.eqb_neq, Hc.
Qed.

Lemma ReplaceAll_avoids (b : ascii) (s old new : string) :
  avoids b s = true -> avoids b new = true ->
  avoids b (GoStrings.ReplaceAll s old new) = true.
Proof.
  intros Hs Hnew. unfold GoStrings.ReplaceAll.
  destruct old; [exact Hs | apply replaceAux_avoids; assumption].
Qed.

(** [NormalizeAlias] never returns a string that holds a period, whatever
    the input and whatever the lower-casing of non-ASCII text does. *)
Theorem NormalizeAlias_no_period `{GoUnicode} (s : string) :
  avoids "." (NormalizeAlias s) = true.
Proof.
  unfold NormalizeAlias.
  do 8 (apply ReplaceAll_avoids; [| reflexivity]).
  change "." with (str1 "."). rewrite ReplaceAll_byte.
  apply replaceAux_byte_avoids; [reflexivity | left; reflexivity].
Qed.

(** ** The en-dash character *)







(** So the test input "Proverbs 31:10–31" (with U+2013) does not parse. *)
Example Parse_U2013_fails :
  Parse ("Proverbs 31:10" +:+ U2013 +:+ "31") (tableOf testBooks) =
    inr (mkBibleRefError KindParse ErrBibleRefParseFailed
           (Some ("failed to parse reference string: Proverbs 31:10" +:+ U2013 +:+ "31"))
           (Some (ErrBibleRef
              (mkBibleRefError KindInvalidVerse ErrInvalidVerse
                 (Some ("invalid verse: 10" +:+ U2013 +:+ "31"))
                 (Some (ErrNum {| Func := "Atoi"; Num := "10" +:+ U2013 +:+ "31";
                                  NumErr := ErrSyntax |}))))))
  /\ Parse "Proverbs 31:10-31" (tableOf testBooks) = inl (rangeRef "Prov" 31 10 31)
  /\ BibleRef_String (rangeRef "Prov" 31 10 31) = "Prov 31:10" +:+ EnDash +:+ "31"
  /\ EnDash <> U2013.
Proof.
  split; [| split; [| split]]; try (vm_compute; reflexivity). discriminate.
Qed.

(** ** The case of an ASCII head *)

Lemma spaceWidth_ascii (c : ascii) (r : string) :
  (byteVal c <? 128)%N = true ->
  spaceWidth (String c r) = if isSpace1 c then 1%nat else 0%nat.
Proof.
  intros Hc. simpl. destruct (isSpace1 c); [reflexivity |].
  destruct r as [|c2 r2]; [reflexivity |].
  assert (H2 : isSpace2 c c2 = false) by byte_facts. rewrite H2.
  destruct r2 as [|c3 r3]; [reflexivity |].
  assert (H3 : isSpace3 c c2 c3 = false) by byte_facts. rewrite H3. reflexivity.
Qed.

Lemma spaceWidthRev_ascii (c : ascii) (r : string) :
  (byteVal c <? 128)%N = true ->
  spaceWidthRev (String c r) = if isSpace1 c then 1%nat else 0%nat.
Proof.
  intros Hc. simpl. destruct (isSpace1 c); [reflexivity |].
  destruct r as [|c2 r2]; [reflexivity |].
  assert (H2 : isSpace2 c2 c = false) by byte_facts. rewrite H2.
  destruct r2 as [|c3 r3]; [reflexivity |].
  assert (H3 : isSpace3 c3 c2 c = false) by byte_facts. rewrite H3. reflexivity.
Qed.

Lemma lowerByte_val (c : ascii) :
  byteVal (GoStrings.lowerByte c)
  = if isUpper c then (byteVal c + 32)%N else byteVal c.
Proof.
  unfold GoStrings.lowerByte. destruct (isUpper c) eqn:Hu; [| reflexivity].
  apply byteVal_ascii_of_N. byte_facts.
Qed.

Lemma lowerByte_ascii (c : ascii) :
  (byteVal c <? 128)%N = true -> (byteVal (GoStrings.lowerByte c) <? 128)%N = true.
Proof.
  intros Hc. rewrite lowerByte_val. destruct (isUpper c) eqn:Hu; [| exact Hc].
  apply N.ltb_lt. byte_facts.
Qed.

Lemma lowerByte_space (c : ascii) : isSpace1 (GoStrings.lowerByte c) = isSpace1 c.
Proof.
  unfold isSpace1, eqByte. rewrite lowerByte_val.
  destruct (isUpper c) eqn:Hu; [| reflexivity].
  assert (E1 : isSpace1 c = false) by byte_facts.
  unfold isSpace1, eqByte in E1. rewrite E1.
  apply not_true_is_false. intro. byte_facts.
Qed.

Lemma lowerByte_idem (c : ascii) :
  GoStrings.lowerByte (GoStrings.lowerByte c) = GoStrings.lowerByte c.
Proof.
  apply byteVal_inj. rewrite (lowerByte_val (GoStrings.lowerByte c)).
  destruct (isUpper (GoStrings.lowerByte c)) eqn:Hu; [| reflexivity].
  exfalso. unfold isUpper in Hu. rewrite lowerByte_val in Hu.
  destruct (isUpper c) eqn:Hc; [byte_facts | unfold isUpper in Hc; congruence].
Qed.

Abbreviation lower := (mapBytes GoStrings.lowerByte).

Lemma lower_app (a b : string) : lower (a +:+ b) = lower a +:+ lower b.
Proof. induction a; [reflexivity | rewrite sapp_cons; simpl; rewrite IHa; reflexivity]. Qed.

Lemma lower_idem (s : string) : lower (lower s) = lower s.
Proof. induction s; simpl; [reflexivity | rewrite lowerByte_idem, IHs; reflexivity]. Qed.

Lemma lower_ascii (s : string) :
  GoStrings.isASCII s = true -> GoStrings.isASCII (lower s) = true.
Proof.
  unfold GoStrings.isASCII. induction s; simpl; [reflexivity |].
  intros [Ha Hs]%andb_true_iff. rewrite (lowerByte_ascii _ Ha), (IHs Hs). reflexivity.
Qed.

Lemma ToLower_ascii `{GoUnicode} (s : string) :
  GoStrings.isASCII s = true -> GoStrings.ToLower s = lower s.
Proof. intros Hs. unfold GoStrings.ToLower. rewrite Hs. reflexivity. Qed.

Lemma lower_revOnto (s acc : string) :
  revOnto (lower s) (lower acc) = lower (revOnto s acc).
Proof.
  revert acc. induction s; intros acc; [reflexivity |]. simpl.
  rewrite <- IHs. reflexivity.
Qed.

Lemma lower_revString (s : string) : revString (lower s) = lower (revString s).
Proof. apply (lower_revOnto s EmptyString). Qed.

Lemma isASCII_revString (s : string) :
  GoStrings.isASCII s = true -> GoStrings.isASCII (revString s) = true.
Proof.
  unfold GoStrings.isASCII. induction s; [reflexivity |].
  simpl. intros [Ha Hs]%andb_true_iff.
  change (String a s) with (str1 a +:+ s). rewrite revString_app, allBytes_app.
  rewrite (IHs Hs). simpl. rewrite Ha. reflexivity.
Qed.

Lemma isASCII_trimLeftAux (width : string -> nat) (s : string) (k : nat) :
  GoStrings.isASCII s = true ->
  GoStrings.isASCII (GoStrings.trimLeftAux width k s) = true.
Proof.
  intros Hs. destruct (trimLeftAux_suffix width s k) as [p Hp].
  unfold GoStrings.isASCII in *. rewrite Hp, allBytes_app in Hs.
  apply andb_true_iff in Hs. tauto.
Qed.

Lemma trimLeftAux_lower (width : string -> nat) (s : string) :
  (forall c r, (byteVal c <? 128)%N = true ->
               width (String c r) = if isSpace1 c then 1%nat else 0%nat) ->
  GoStrings.isASCII s = true ->
  GoStrings.trimLeftAux width 0 (lower s) = lower (GoStrings.trimLeftAux width 0 s).
Proof.
  intros Hw. unfold GoStrings.isASCII. induction s as [|c s IH]; [reflexivity |].
  simpl allBytes. intros [Hc Hs]%andb_true_iff.
  cbn [mapBytes GoStrings.trimLeftAux].
  rewrite (Hw _ _ Hc), (Hw _ _ (lowerByte_ascii _ Hc)), lowerByte_space.
  destruct (isSpace1 c); [apply IH, Hs | reflexivity].
Qed.

Lemma TrimSpace_lower (s : string) :
  GoStrings.isASCII s = true ->
  GoStrings.TrimSpace (lower s) = lower (GoStrings.TrimSpace s)
  /\ GoStrings.isASCII (GoStrings.TrimSpace s) = true.
Proof.
  intros Hs. unfold GoStrings.TrimSpace, GoStrings.TrimRightSpace, GoStrings.TrimLeftSpace.
  pose proof (isASCII_trimLeftAux spaceWidth s 0 Hs) as H1.
  pose proof (isASCII_revString _ H1) as H2.
  pose proof (isASCII_trimLeftAux spaceWidthRev _ 0 H2) as H3.
  split; [| apply isASCII_revString, H3].
  rewrite (trimLeftAux_lower spaceWidth s spaceWidth_ascii Hs).
  rewrite lower_revString.
  rewrite (trimLeftAux_lower spaceWidthRev _ spaceWidthRev_ascii H2).
  apply lower_revString.
Qed.

(** On ASCII text [NormalizeAlias] does not see the case of letters. *)
Lemma NormalizeAlias_lower `{GoUnicode} (s : string) :
  GoStrings.isASCII s = true -> NormalizeAlias (lower s) = NormalizeAlias s.
Proof.
  intros Hs. destruct (TrimSpace_lower s Hs) as [Ht Ha].
  unfold NormalizeAlias. rewrite Ht.
  rewrite (ToLower_ascii _ (lower_ascii _ Ha)), (ToLower_ascii _ Ha), lower_idem.
  reflexivity.
Qed.

Lemma flush_lower (cur : string) :
  GoStrings.flush (lower cur) = map lower (GoStrings.flush cur).
Proof. destruct cur; reflexivity. Qed.

Lemma fieldsAux_lower (s cur : string) :
  GoStrings.isASCII s = true ->
  GoStrings.fieldsAux 0 (lower cur) (lower s)
  = map lower (GoStrings.fieldsAux 0 cur s).
Proof.
  unfold GoStrings.isASCII. revert cur.
  induction s as [|c s IH]; intros cur; [intros _; apply flush_lower |].
  simpl allBytes. intros [Hc Hs]%andb_true_iff.
  cbn [mapBytes GoStrings.fieldsAux].
  rewrite (spaceWidth_ascii _ _ Hc), (spaceWidth_ascii _ _ (lowerByte_ascii _ Hc)),
    lowerByte_space.
  destruct (isSpace1 c).
  - rewrite map_app, <- flush_lower. f_equal. apply (IH EmptyString Hs).
  - rewrite <- IH by exact Hs. rewrite lower_app. reflexivity.
Qed.

Lemma Fields_lower (s : string) :
  GoStrings.isASCII s = true ->
  GoStrings.Fields (lower s) = map lower (GoStrings.Fields s).
Proof. apply (fieldsAux_lower s EmptyString). Qed.

Lemma Join_lower (l : list string) :
  GoStrings.Join (map lower l) " " = lower (GoStrings.Join l " ").
Proof.
  induction l as [|x [|y l] IH]; [reflexivity | reflexivity |].
  change (GoStrings.Join (map lower (x :: y :: l)) " ")
    with (lower x +:+ " " +:+ GoStrings.Join (map lower (y :: l)) " ").
  change (GoStrings.Join (x :: y :: l) " ")
    with (x +:+ " " +:+ GoStrings.Join (y :: l) " ").
  rewrite IH, !lower_app. reflexivity.
Qed.

Lemma fieldsAux_ascii (s cur : string) (k : nat) :
  GoStrings.isASCII cur = true -> GoStrings.isASCII s = true ->
  Forall (fun f => GoStrings.isASCII f = true) (GoStrings.fieldsAux k cur s).
Proof.
  unfold GoStrings.isASCII. revert cur k.
  induction s as [|c s IH]; intros cur k Hcur Hs.
  - destruct cur; [constructor | repeat constructor; exact Hcur].
  - simpl allBytes in Hs. apply andb_true_iff in Hs as [Hc Hs].
    destruct k as [|k]; cbn [GoStrings.fieldsAux]; [| apply IH; assumption].
    destruct (spaceWidth (String c s)).
    + apply IH; [| exact Hs]. rewrite allBytes_app, Hcur. simpl. rewrite Hc. reflexivity.
    + apply Forall_app. split; [| apply IH; [reflexivity | exact Hs]].
      destruct cur; [constructor | repeat constructor; exact Hcur].
Qed.

Lemma Join_ascii (l : list string) :
  Forall (fun f => GoStrings.isASCII f = true) l ->
  GoStrings.isASCII (GoStrings.Join l " ") = true.
Proof.
  unfold GoStrings.isASCII.
  induction l as [|x [|y l] IH]; intros Hl; [reflexivity | |].
  - inversion Hl; subst. assumption.
  - inversion Hl as [|? ? Hx Hyl]; subst.
    change (GoStrings.Join (x :: y :: l) " ")
      with (x +:+ " " +:+ GoStrings.Join (y :: l) " ").
    rewrite !allBytes_app, Hx, (IH Hyl). reflexivity.
Qed.

(** The normalized head of an ASCII input does not depend on the case of
    its letters. *)
Lemma head_lower `{GoUnicode} (h : string) :
  GoStrings.isASCII h = true ->
  NormalizeAlias (GoStrings.Join (GoStrings.Fields h) " ")
  = NormalizeAlias (GoStrings.Join (GoStrings.Fields (lower h)) " ").
Proof.
  intros Hh. rewrite Fields_lower, Join_lower by exact Hh.
  symmetry. apply NormalizeAlias_lower, Join_ascii.
  apply (fieldsAux_ascii h EmptyString 0); [reflexivity | exact Hh].
Qed.

(** Two ASCII heads that differ only in the case of their letters,
    followed by the same tail, parse alike: to the same reference or to
    the same error of [parseRefString]. *)
Theorem Parse_head_case_insensitive `{GoUnicode} (h1 h2 t : string) (tbl : Table) :
  GoStrings.isASCII h1 = true -> GoStrings.isASCII h2 = true ->
  lower h1 = lower h2 ->
  spaceFree t = true -> t <> EmptyString ->
  parseRefString (h1 +:+ " " +:+ t) tbl = parseRefString (h2 +:+ " " +:+ t) tbl
  /\ forall r, Parse (h1 +:+ " " +:+ t) tbl = inl r
               <-> Parse (h2 +:+ " " +:+ t) tbl = inl r.
Proof.
  intros H1 H2 Hl Hf Ht.
  assert (Hp : parseRefString (h1 +:+ " " +:+ t) tbl
               = parseRefString (h2 +:+ " " +:+ t) tbl).
  { pose proof (head_lower h1 H1) as Hn1. pose proof (head_lower h2 H2) as Hn2.
    assert (Hlen : List.length (GoStrings.Fields h1) = List.length (GoStrings.Fields h2)).
    { rewrite <- (length_map lower (GoStrings.Fields h1)),
        <- (length_map lower (GoStrings.Fields h2)).
      rewrite <- !Fields_lower by assumption. rewrite Hl. reflexivity. }
    unfold parseRefString. rewrite !Fields_TrimSpace.
    rewrite !Fields_app_token by assumption.
    rewrite !removelast_last, !last_last, !length_app, Hlen, Hn1, Hn2, Hl.
    destruct (isEmpty (GoStrings.TrimSpace (h1 +:+ " " +:+ t))) eqn:E1.
    { apply TrimSpace_empty_iff in E1. rewrite Fields_app_token in E1 by assumption.
      destruct (GoStrings.Fields h1); discriminate. }
    destruct (isEmpty (GoStrings.TrimSpace (h2 +:+ " " +:+ t))) eqn:E2.
    { apply TrimSpace_empty_iff in E2. rewrite Fields_app_token in E2 by assumption.
      destruct (GoStrings.Fields h2); discriminate. }
    reflexivity. }
  split; [exact Hp |].
  intros r. rewrite !Parse_wrap, Hp.
  destruct (parseRefString (h2 +:+ " " +:+ t) tbl); split; intros E;
    first [exact E | discriminate].
Qed.

Lemma Parse_head_case_insensitive_witness :
  parseRefString ("PRO" +:+ " " +:+ "31:10-31") (tableOf testBooks)
  = parseRefString ("pro" +:+ " " +:+ "31:10-31") (tableOf testBooks)
  /\ forall r, Parse ("PRO" +:+ " " +:+ "31:10-31") (tableOf testBooks) = inl r
               <-> Parse ("pro" +:+ " " +:+ "31:10-31") (tableOf testBooks) = inl r.
Proof.
  apply (Parse_head_case_insensitive "PRO" "pro" "31:10-31");
    first [reflexivity | discriminate].
Defined.

(** ** A signed verse number *)

Lemma Atoi_plus (d : string) :
  isDigits d = true -> (decimalValue 0 d <= maxInt)%Z ->
  Atoi (String "+" d) = inl (decimalValue 0 d).
Proof.
  intros Hd Hv. pose proof (isDigits_all d Hd) as Hall.
  destruct (isDigits_cons d Hd) as (c & r & -> & Hc & Hr).
  unfold Atoi. change (eqByte "+" 43) with true. change (eqByte "+" 45) with false.
  cbn [orb negb andb].
  rewrite parseUintLoop_digits by (rewrite ?maxUint64_val; first [exact Hall | lia]).
  rewrite maxUint64_val. rewrite maxInt_val in *.
  destruct (Z.leb_spec (decimalValue 0 (String c r)) 18446744073709551615); [| lia].
  destruct (Z.ltb_spec 9223372036854775807 (decimalValue 0 (String c r)));
    [lia | reflexivity].
Qed.

Lemma NormalizeVerseRange_plus (d : string) :
  isDigits d = true -> NormalizeVerseRange (String "+" d) = String "+" d.
Proof.
  intros Hd. pose proof (isDigits_all d Hd) as Hall.
  assert (Ht : GoStrings.TrimSpace (String "+" d) = String "+" d).
  { unfold GoStrings.TrimSpace, GoStrings.TrimLeftSpace.
    cbn [GoStrings.trimLeftAux]. rewrite spaceWidth_nonstart by reflexivity.
    destruct (isDigits_last "+" d Hd) as (c' & r' & Hr & Hc').
    apply (TrimRightSpace_digit_end _ _ _ Hr Hc'). }
  assert (Hh : avoids "-" (String "+" d) = true).
  { change (String "+" d) with ("+" +:+ d). rewrite avoids_app.
    rewrite (digit_avoids "-" d) by (first [reflexivity | exact Hall]). reflexivity. }
  assert (Hs : avoids " " (String "+" d) = true).
  { change (String "+" d) with ("+" +:+ d). rewrite avoids_app.
    rewrite (digit_avoids " " d) by (first [reflexivity | exact Hall]). reflexivity. }
  unfold NormalizeVerseRange, Hyphen. rewrite Ht.
  rewrite (ReplaceAll_none "-"%char EmptyString EnDash _ Hh).
  apply ReplaceAll_none, Hs.
Qed.

(** The verse of a tail may carry a plus sign: [parseTail] passes
    [d1:+d2] unchanged, since it inspects only the chapter and the
    colon, and [parseChapterVerse] reads the verse with [strconv.Atoi],
    which accepts the sign.  The result is the single verse [d2] of
    chapter [d1]. *)
Theorem verse_with_plus_sign (d1 d2 : string) :
  isDigits d1 = true -> isDigits d2 = true ->
  (decimalValue 0 d1 <= maxInt)%Z -> (decimalValue 0 d2 <= maxInt)%Z ->
  parseTail (d1 +:+ ":" +:+ String "+" d2) = inl (d1 +:+ ":" +:+ String "+" d2)
  /\ parseChapterVerse (d1 +:+ ":" +:+ String "+" d2) =
       inl (decimalValue 0 d1,
            Some {| StartVerse := decimalValue 0 d2; EndVerse := None |}).
Proof.
  intros H1 H2 Hv1 Hv2. pose proof (isDigits_all d2 H2) as Hall.
  split.
  - rewrite parseTail_colon by (first [exact H1 | discriminate]).
    rewrite NormalizeVerseRange_plus by exact H2. reflexivity.
  - unfold parseChapterVerse.
    rewrite Split_colon_two.
    2: exact H1.
    2: { change (String "+" d2) with ("+" +:+ d2). rewrite avoids_app.
         rewrite (digit_avoids ":" d2) by (first [reflexivity | exact Hall]).
         reflexivity. }
    cbn [List.length Nat.ltb Nat.leb]. rewrite Atoi_digits by exact H1.
    destruct (Z.leb_spec (decimalValue 0 d1) maxInt); [| lia].
    rewrite NormalizeVerseRange_plus by exact H2.
    assert (Hc : GoStrings.Contains (String "+" d2) EnDash = false).
    { unfold EnDash. apply Contains_none.
      change (String "+" d2) with ("+" +:+ d2). rewrite avoids_app.
      rewrite (digit_avoids _ d2) by (first [reflexivity | exact Hall]).
      reflexivity. }
    rewrite Hc, Atoi_plus by assumption. reflexivity.
Qed.

Lemma verse_with_plus_sign_witness :
  parseTail ("31" +:+ ":" +:+ String "+" "10") = inl ("31" +:+ ":" +:+ String "+" "10")
  /\ parseChapterVerse ("31" +:+ ":" +:+ String "+" "10") =
       inl (decimalValue 0 "31",
            Some {| StartVerse := decimalValue 0 "10"; EndVerse := None |}).
Proof.
  apply (verse_with_plus_sign "31" "10");
    first [reflexivity | vm_compute; discriminate].
Defined.

Example Parse_plus_sign :
  Parse "Prov 31:+10" (tableOf testBooks)
  = inl {| OSIS := "Prov"; Chapter := 31;
           Verse := Some {| StartVerse := 10; EndVerse := None |} |}
  /\ BibleRef_String {| OSIS := "Prov"; Chapter := 31;
                        Verse := Some {| StartVerse := 10; EndVerse := None |} |}
     = "Prov 31:10".
Proof. split; vm_compute; reflexivity. Qed.
